(** * Cash-Up reward ledger: a shallow embedding of [server/app/main.py]

    The request handlers of the FastAPI application are embedded as
    functions over an explicit database state.  A request runs inside a
    SQLAlchemy session: writes go to the session, [db.commit()] makes them
    durable, an escaping [HTTPException] rolls the session back to the
    last commit.  Floating-point values are IEEE binary64 numbers
    ([SpecFloat]), integers are [Z], identifiers and dates are strings. *)

From Stdlib Require Import ZArith List String Ascii Bool Lia.
From Stdlib Require Import DecimalString DecimalPos DecimalZ HexadecimalString.
From Stdlib Require Import Sorting.Permutation Sorting.Sorted.
From Stdlib Require Import Floats.SpecFloat.
Import ListNotations.

Local Open Scope string_scope.
Local Open Scope list_scope.
Local Open Scope Z_scope.

Infix "==" := String.eqb (at level 70, no associativity).

(** ** Python floats *)

Definition float := spec_float.

Module PyFloat.

Definition prec : Z := 53.
Definition emax : Z := 1024.

(** [float(n)] for a Python int: the nearest binary64 number. *)
Definition of_int (n : Z) : float := binary_normalize prec emax n 0 false.

(** [x * y] on floats. *)
Definition mul (x y : float) : float := SFmul prec emax x y.

(** [x / y] on floats, used to write decimal literals such as [0.78]. *)
Definition div (x y : float) : float := SFdiv prec emax x y.

(** [n * x] for an int [n] and a float [x]: the int is converted first;
    an int too large for a float raises [OverflowError] ([None]). *)
Definition int_mul (n : Z) (x : float) : option float :=
  match of_int n with
  | S754_infinity _ => None
  | fn => Some (mul fn x)
  end.

(** [int(x)]: truncation toward zero; infinities and NaN raise. *)
Definition to_int (x : float) : option Z :=
  match x with
  | S754_zero _ => Some 0
  | S754_finite s m e =>
      let q := Z.shiftl (Zpos m) e in
      Some (if s then - q else q)
  | S754_infinity _ | S754_nan => None
  end.

(** [math.floor(x)]: the largest integer not above [x]. *)
Definition floor (x : float) : option Z :=
  match x with
  | S754_zero _ => Some 0
  | S754_finite s m e => Some (Z.shiftl (if s then Zneg m else Zpos m) e)
  | S754_infinity _ | S754_nan => None
  end.

(** [x <= n] for a float [x] and an int [n]; Python compares the two
    exactly, and every comparison with NaN is false. *)
Definition le_int (x : float) (n : Z) : bool :=
  match x with
  | S754_zero _ => 0 <=? n
  | S754_finite s m e =>
      let sm := if s then Zneg m else Zpos m in
      if 0 <=? e then sm * 2 ^ e <=? n else sm <=? n * 2 ^ (- e)
  | S754_infinity s => s
  | S754_nan => false
  end.

(** The sign test [x >= 0] (false on NaN). *)
Definition nonneg (x : float) : bool :=
  match x with
  | S754_zero _ => true
  | S754_finite s _ _ => negb s
  | S754_infinity s => negb s
  | S754_nan => false
  end.

End PyFloat.

(** ** Data model ([models.py] rows as records) *)

Inductive PhotoStatus := PHOTO_STATUS_PENDING | PHOTO_STATUS_ACTIVE.

Inductive CouponStatus := COUPON_STATUS_ISSUED.

Definition PENDING_ACTIVATION_MINUTES : Z := 30.

Record Festival := mkFestival {
  fest_id : string;
  budget : Z;
  per_user_daily_cap : Z;
  per_photo_point : Z;
  center_lat : option float;
  center_lng : option float;
  radius_meters : option Z
}.

Record User := mkUser {
  usr_id : string;
  display_name : string
}.

Record UserDailySummary := mkSummary {
  sum_user_id : string;
  sum_festival_id : string;
  sum_date : string;
  total_pending : Z;
  total_active : Z;
  total_consumed : Z
}.

(** [image_url] and the classifier columns ([has_trash], [trash_count],
    [max_trash_confidence], [yolo_raw]) are left out: the handlers only
    write them.  [created_at] is in microseconds. *)
Record TrashPhoto := mkPhoto {
  photo_id : string;
  photo_user_id : string;
  photo_festival_id : string;
  hash : string;
  status : PhotoStatus;
  points : Z;
  created_at : Z
}.

Record Coupon := mkCoupon {
  coupon_user_id : string;
  coupon_festival_id : string;
  shop_name : string;
  amount : Z;
  code : string;
  coupon_status : CouponStatus
}.

Record TrashBin := mkBin {
  bin_id : string;
  bin_festival_id : string;
  bin_code : string;
  bin_name : string
}.

Record BinScan := mkScan {
  scan_festival_id : string;
  scan_bin_id : string;
  scan_user_id : string
}.

Record JackpotPool := mkPool {
  pool_festival_id : string;
  current_amount : Z;
  seed_amount : Z;
  contribution_rate : float;
  last_winner_id : option string;
  last_draw_date : option string
}.

Record JackpotEntry := mkEntry {
  entry_user_id : string;
  entry_festival_id : string;
  entry_week_key : string;
  entry_count : Z
}.

Record JackpotWinner := mkWinner {
  winner_user_id : string;
  winner_festival_id : string;
  winner_week_key : string;
  winner_amount : Z
}.

(** The database: one list per table, in insertion order. *)
Record DB := mkDB {
  festivals : list Festival;
  users : list User;
  summaries : list UserDailySummary;
  photos : list TrashPhoto;
  coupons : list Coupon;
  bins : list TrashBin;
  scans : list BinScan;
  pools : list JackpotPool;
  entries : list JackpotEntry;
  winners : list JackpotWinner
}.

Definition with_summaries (d : DB) (v : list UserDailySummary) : DB :=
  mkDB (festivals d) (users d) v (photos d) (coupons d) (bins d) (scans d)
       (pools d) (entries d) (winners d).

Definition with_photos (d : DB) (v : list TrashPhoto) : DB :=
  mkDB (festivals d) (users d) (summaries d) v (coupons d) (bins d) (scans d)
       (pools d) (entries d) (winners d).

Definition with_coupons (d : DB) (v : list Coupon) : DB :=
  mkDB (festivals d) (users d) (summaries d) (photos d) v (bins d) (scans d)
       (pools d) (entries d) (winners d).

Definition with_scans (d : DB) (v : list BinScan) : DB :=
  mkDB (festivals d) (users d) (summaries d) (photos d) (coupons d) (bins d) v
       (pools d) (entries d) (winners d).

Definition with_pools (d : DB) (v : list JackpotPool) : DB :=
  mkDB (festivals d) (users d) (summaries d) (photos d) (coupons d) (bins d)
       (scans d) v (entries d) (winners d).

Definition with_entries (d : DB) (v : list JackpotEntry) : DB :=
  mkDB (festivals d) (users d) (summaries d) (photos d) (coupons d) (bins d)
       (scans d) (pools d) v (winners d).

Definition with_winners (d : DB) (v : list JackpotWinner) : DB :=
  mkDB (festivals d) (users d) (summaries d) (photos d) (coupons d) (bins d)
       (scans d) (pools d) (entries d) v.

(** ** External collaborators and configuration

    Everything the handlers call that is not defined in [main.py]: the
    floating-point trigonometry of the geofence, the [imagehash] library,
    [random.choices], the admin token read from the process environment,
    and the column defaults that [models.py] declares for rows created
    without explicit values. *)

Record Externals := mkExternals {
  (** [haversine_distance(lat1, lon1, lat2, lon2)], in meters *)
  haversine_distance : float -> float -> float -> float -> float;
  (** [imagehash.ImageHash] *)
  ImageHash : Type;
  (** [imagehash.hex_to_hash]; [None] when the call raises *)
  hex_to_hash : string -> option ImageHash;
  (** [ImageHash.__len__], which decides the truth value of a hash *)
  image_hash_len : ImageHash -> nat;
  (** [ImageHash.__sub__]; [None] when it raises [TypeError] *)
  image_hash_sub : ImageHash -> ImageHash -> option Z;
  (** [random.choices(users, weights=weights, k=1)]; [None] when it raises *)
  choices : list string -> list Z -> option (list string);
  ADMIN_TOKEN : string;
  (** defaults of [JackpotPool(festival_id=...)] *)
  pool_default_current_amount : Z;
  pool_default_seed_amount : Z;
  pool_default_contribution_rate : float;
  (** default of [JackpotEntry.entry_count] *)
  entry_default_count : Z
}.

(** ** Errors raised by the handlers

    Each constructor is one [http_error] call site (or family of call
    sites with the same meaning); [InternalError] stands for an exception
    that is not an [HTTPException] and surfaces as a 500 response. *)

Inductive HttpError :=
| Forbidden
| MissingParameters
| UserNotFound
| FestivalNotFound
| BinNotFound
| OutsideGeofence
| RateLimited
| DuplicateImage
| CapExceeded
| BudgetExhausted
| NothingToActivate
| SummaryNotFound
| InsufficientBalance
| Unauthorized
| PoolNotFound
| NoParticipants
| WinnerNotFound
| InternalError.

Definition status_code (e : HttpError) : Z :=
  match e with
  | Forbidden => 403
  | UserNotFound | FestivalNotFound | BinNotFound | PoolNotFound | WinnerNotFound => 404
  | RateLimited => 429
  | Unauthorized => 401
  | InternalError => 500
  | _ => 400
  end.

(** ** The request monad: a session over the database *)

Record Tx := mkTx {
  committed : DB;   (* what the last [db.commit()] made durable *)
  session : DB      (* what the running request sees *)
}.

Inductive Result (A : Type) :=
| Ok (a : A)
| Raise (e : HttpError).

Arguments Ok {A} a.
Arguments Raise {A} e.

Definition Req (A : Type) : Type := Tx -> Result A * Tx.

Definition ret {A} (a : A) : Req A := fun tx => (Ok a, tx).

Definition bind {A B} (m : Req A) (k : A -> Req B) : Req B :=
  fun tx =>
    match m tx with
    | (Ok a, tx') => k a tx'
    | (Raise e, tx') => (Raise e, tx')
    end.

Notation "x <- m ;; k" := (bind m (fun x => k))
  (at level 61, m at next level, right associativity).
Notation "m ;;; k" := (bind m (fun _ => k))
  (at level 61, right associativity).

(** [http_error(status, message)] *)
Definition http_error {A} (e : HttpError) : Req A := fun tx => (Raise e, tx).

(** [if cond: http_error(...)] *)
Definition fail_if (cond : bool) (e : HttpError) : Req unit :=
  if cond then http_error e else ret tt.

(** [x = lookup; if not x: http_error(...)] *)
Definition require {A} (o : option A) (e : HttpError) : Req A :=
  match o with
  | Some a => ret a
  | None => http_error e
  end.

(** A computation that does not touch the session. *)
Definition lift_result {A} (r : Result A) : Req A := fun tx => (r, tx).

Definition read_db : Req DB := fun tx => (Ok (session tx), tx).

Definition write_db (f : DB -> DB) : Req unit :=
  fun tx => (Ok tt, mkTx (committed tx) (f (session tx))).

(** [db.commit()] *)
Definition commit : Req unit :=
  fun tx => (Ok tt, mkTx (session tx) (session tx)).

(** Modelled from the spec: the session dependency [get_db] lives in
    [db.py], which is not part of the sources.  Every gated write path
    executes inside a transaction: a handler that returns has its session
    committed, a handler that raises has it rolled back, which leaves
    what earlier [db.commit()] calls of the same request made durable. *)
Definition run_request {A} (m : Req A) (d : DB) : Result A * DB :=
  match m (mkTx d d) with
  | (Ok a, tx) => (Ok a, session tx)
  | (Raise e, tx) => (Raise e, committed tx)
  end.

(** ** Query helpers *)

(** A mutation of a mapped object changes the one row it was loaded from. *)
Fixpoint update_first {A} (p : A -> bool) (f : A -> A) (l : list A) : list A :=
  match l with
  | [] => []
  | x :: t => if p x then f x :: t else x :: update_first p f t
  end.

(** [.scalar_one_or_none()]: more than one row raises. *)
Definition scalar_one_or_none {A} (rows : list A) : Req (option A) :=
  match rows with
  | [] => ret None
  | [x] => ret (Some x)
  | _ => http_error InternalError
  end.

(** [ORDER BY]: a stable insertion sort ([le x y] holds when [x] may
    precede [y]); rows with equal keys keep their insertion order. *)
Fixpoint insert_by {A} (le : A -> A -> bool) (x : A) (l : list A) : list A :=
  match l with
  | [] => [x]
  | y :: t => if le x y then x :: y :: t else y :: insert_by le x t
  end.

Definition order_by {A} (le : A -> A -> bool) (l : list A) : list A :=
  fold_right (insert_by le) [] l.

Definition created_at_asc (x y : TrashPhoto) : bool := created_at x <=? created_at y.
Definition created_at_desc (x y : TrashPhoto) : bool := created_at y <=? created_at x.

Definition sum_Z (l : list Z) : Z := fold_right Z.add 0 l.

(** [timedelta(minutes=n)] in the unit of the timestamps (microseconds) *)
Definition minutes (n : Z) : Z := n * 60 * 1000000.

(** [a or b] on an optional string: [None] and the empty string are falsy. *)
Definition str_or (a : option string) (b : string) : string :=
  match a with
  | Some s => if s == "" then b else s
  | None => b
  end.

Definition opt_is (s : string) (a : option string) : bool :=
  match a with
  | Some t => s == t
  | None => false
  end.

Definition is_empty_opt (a : option string) : bool :=
  match a with
  | Some s => s == ""
  | None => true
  end.

Definition db_get_festival (d : DB) (id : string) : option Festival :=
  find (fun f => fest_id f == id) (festivals d).

Definition db_get_user (d : DB) (id : string) : option User :=
  find (fun u => usr_id u == id) (users d).

(** What the handlers read from the clock during one request. *)
Record Clock := mkClock {
  utcnow : Z;         (* [datetime.utcnow()], in microseconds *)
  today : string;     (* [get_today()]: the KST date as %Y-%m-%d *)
  week_key : string;  (* year and ISO week of the KST time *)
  time_ns : Z         (* [time.time_ns()] *)
}.

(** ** Perceptual-hash strings *)

Definition is_hex_digit (c : ascii) : bool :=
  let n := nat_of_ascii c in
  ((48 <=? n) && (n <=? 57) || (65 <=? n) && (n <=? 70) || (97 <=? n) && (n <=? 102))%nat.

Definition is_bin_digit (c : ascii) : bool :=
  let n := nat_of_ascii c in
  ((n =? 48) || (n =? 49))%nat.

(** [re.fullmatch(r"[0-9a-fA-F]+", value)] *)
Definition fullmatch_hex (value : string) : bool :=
  negb (value == "") && forallb is_hex_digit (list_ascii_of_string value).

(** [int(value, 2)] on a string of binary digits *)
Definition int_base2 (value : string) : N :=
  fold_left (fun acc c => (2 * acc + (if (nat_of_ascii c =? 49)%nat then 1 else 0))%N)
            (list_ascii_of_string value) 0%N.

Fixpoint zfill (n : nat) (s : string) : string :=
  match n with
  | O => s
  | S k => if (String.length s <=? k)%nat then zfill k (String "0" s) else s
  end.

(** [f"{n:016x}"] *)
Definition format_016x (n : N) : string :=
  zfill 16 (HexadecimalString.NilZero.string_of_uint (N.to_hex_uint n)).

Fixpoint count_mismatches (a b : list ascii) : Z :=
  match a, b with
  | x :: a', y :: b' => (if Ascii.eqb x y then 0 else 1) + count_mismatches a' b'
  | _, _ => 0
  end.

Definition hamming_distance (a b : string) : Z :=
  if negb (String.length a =? String.length b)%nat
  then Z.of_nat (Nat.max (String.length a) (String.length b))
  else count_mismatches (list_ascii_of_string a) (list_ascii_of_string b).

(** ** Ledger queries *)

Definition summary_matches (user_id festival_id day : string) (s : UserDailySummary) : bool :=
  (sum_user_id s == user_id) && (sum_festival_id s == festival_id) && (sum_date s == day).

Definition find_summary (d : DB) (user_id festival_id day : string) : option UserDailySummary :=
  find (summary_matches user_id festival_id day) (summaries d).

(** [UserDailySummary(user_id=..., festival_id=..., date=...)]: the three
    balances start at zero. *)
Definition new_summary (user_id festival_id day : string) : UserDailySummary :=
  mkSummary user_id festival_id day 0 0 0.

Definition ensure_summary (clk : Clock) (user_id festival_id : string) : Req UserDailySummary :=
  d <- read_db ;;
  match find_summary d user_id festival_id (today clk) with
  | Some summary => ret summary
  | None =>
      let summary := new_summary user_id festival_id (today clk) in
      write_db (fun d => with_summaries d (summaries d ++ [summary])) ;;;
      commit ;;;
      ret summary
  end.

(** A write through the mapped summary object of [(user, festival, day)]. *)
Definition update_summary (user_id festival_id day : string)
    (f : UserDailySummary -> UserDailySummary) : Req unit :=
  write_db (fun d =>
    with_summaries d (update_first (summary_matches user_id festival_id day) f (summaries d))).

Definition photo_points_of (festival_id : string) (d : DB) : Z :=
  sum_Z (map points (filter (fun p => photo_festival_id p == festival_id) (photos d))).

Definition coupon_points_of (festival_id : string) (d : DB) : Z :=
  sum_Z (map amount (filter (fun c => coupon_festival_id c == festival_id) (coupons d))).

Definition get_budget_usage (d : DB) (festival_id : string) : Z :=
  photo_points_of festival_id d + coupon_points_of festival_id d.

Definition ensure_budget_room (festival : Festival) (needed : Z) : Req unit :=
  d <- read_db ;;
  let used := get_budget_usage d (fest_id festival) in
  fail_if (used + needed >? budget festival) BudgetExhausted.

Definition add_pending (n : Z) (s : UserDailySummary) : UserDailySummary :=
  mkSummary (sum_user_id s) (sum_festival_id s) (sum_date s)
            (total_pending s + n) (total_active s) (total_consumed s).

(** [total_pending -= n; total_active += n] *)
Definition move_pending_to_active (n : Z) (s : UserDailySummary) : UserDailySummary :=
  mkSummary (sum_user_id s) (sum_festival_id s) (sum_date s)
            (total_pending s - n) (total_active s + n) (total_consumed s).

(** [total_active -= n; total_consumed += n] *)
Definition move_active_to_consumed (n : Z) (s : UserDailySummary) : UserDailySummary :=
  mkSummary (sum_user_id s) (sum_festival_id s) (sum_date s)
            (total_pending s) (total_active s - n) (total_consumed s + n).

Definition add_active (n : Z) (s : UserDailySummary) : UserDailySummary :=
  mkSummary (sum_user_id s) (sum_festival_id s) (sum_date s)
            (total_pending s) (total_active s + n) (total_consumed s).

Definition today_total (s : UserDailySummary) : Z :=
  total_pending s + total_active s + total_consumed s.

Definition add_current_amount (n : Z) (p : JackpotPool) : JackpotPool :=
  mkPool (pool_festival_id p) (current_amount p + n) (seed_amount p)
         (contribution_rate p) (last_winner_id p) (last_draw_date p).

Definition reset_pool (winner_id day : string) (p : JackpotPool) : JackpotPool :=
  mkPool (pool_festival_id p) (seed_amount p) (seed_amount p)
         (contribution_rate p) (Some winner_id) (Some day).

Definition bump_entry (e : JackpotEntry) : JackpotEntry :=
  mkEntry (entry_user_id e) (entry_festival_id e) (entry_week_key e) (entry_count e + 1).

Definition set_status (st : PhotoStatus) (p : TrashPhoto) : TrashPhoto :=
  mkPhoto (photo_id p) (photo_user_id p) (photo_festival_id p) (hash p) st
          (points p) (created_at p).

Definition pool_of (festival_id : string) (p : JackpotPool) : bool :=
  pool_festival_id p == festival_id.

Definition entry_of (user_id festival_id wk : string) (e : JackpotEntry) : bool :=
  (entry_user_id e == user_id) && (entry_festival_id e == festival_id)
  && (entry_week_key e == wk).

Definition is_pending (p : TrashPhoto) : bool :=
  match status p with
  | PHOTO_STATUS_PENDING => true
  | PHOTO_STATUS_ACTIVE => false
  end.

Definition mem_string (x : string) (l : list string) : bool :=
  existsb (fun y => y == x) l.

(** ** Request payloads and responses *)

Record UploadForm := mkUploadForm {
  up_userId : option string;
  up_lat : option float;          (* [float(lat)] when the field is present *)
  up_lng : option float;
  up_image_hash : string;         (* [compute_image_hash] of the stored file *)
  up_photo_id : string            (* primary key given to the new row *)
}.

Record ScanPayload := mkScanPayload {
  scan_userId : option string;
  scan_binCode : option string;   (* [normalize_bin_code(payload.get("binCode"))] *)
  scan_lat : option float;
  scan_lng : option float
}.

Record CouponPayload := mkCouponPayload {
  cp_userId : option string;
  cp_shopName : option string;
  cp_amount : option Z            (* [int(amount)] when the field is present *)
}.

Record ScanResponse := mkScanResponse {
  resp_activated : Z;
  resp_convertedCount : nat;
  resp_summary : option UserDailySummary
}.

Record DrawResponse := mkDrawResponse {
  resp_winner_name : string;
  resp_amount : Z
}.

(** ** The handlers *)

Section Handlers.

Variable ext : Externals.

Definition is_inside_festival (festival : Festival) (lat lng : option float) : bool :=
  match center_lat festival, center_lng festival with
  | Some clat, Some clng =>
      match lat, lng with
      | Some la, Some lo =>
          let distance := haversine_distance ext la lo clat clng in
          let radius :=
            match radius_meters festival with
            | Some r => if r =? 0 then 1500 else r
            | None => 1500
            end in
          PyFloat.le_int distance radius
      | _, _ => false
      end
  | _, _ => true
  end.

Definition parse_hash (value : string) : option (ImageHash ext) :=
  if value == "" then None
  else if fullmatch_hex value then hex_to_hash ext value
  else if (String.length value =? 64)%nat
          && forallb is_bin_digit (list_ascii_of_string value)
       then hex_to_hash ext (format_016x (int_base2 value))
  else None.

(** The truth value of [parse_hash(...)]: [None] is falsy, a hash is
    truthy when its [__len__] is not zero. *)
Definition truthy_hash (o : option (ImageHash ext)) : bool :=
  match o with
  | Some h => (0 <? image_hash_len ext h)%nat
  | None => false
  end.

(** The distance computed for one stored photo in the dedup loop;
    [None] when the subtraction raises. *)
Definition photo_distance (new_hash : string) (new_hash_obj : option (ImageHash ext))
    (photo : TrashPhoto) : option Z :=
  let existing_hash := if hash photo == "" then None else parse_hash (hash photo) in
  if truthy_hash existing_hash && truthy_hash new_hash_obj then
    match new_hash_obj, existing_hash with
    | Some n, Some e => image_hash_sub ext n e
    | _, _ => None
    end
  else Some (hamming_distance (hash photo) new_hash).

Fixpoint dedup_loop (new_hash : string) (new_hash_obj : option (ImageHash ext))
    (recent_photos : list TrashPhoto) : Result unit :=
  match recent_photos with
  | [] => Ok tt
  | photo :: rest =>
      match photo_distance new_hash new_hash_obj photo with
      | None => Raise InternalError
      | Some distance =>
          if distance <=? 5 then Raise DuplicateImage
          else dedup_loop new_hash new_hash_obj rest
      end
  end.

(** The 20 most recent photos of the user, newest first. *)
Definition recent_photos_of (d : DB) (user_id : string) : list TrashPhoto :=
  firstn 20 (order_by created_at_desc
               (filter (fun p => photo_user_id p == user_id) (photos d))).

(** [int(festival.per_photo_point * jackpot_pool.contribution_rate)] *)
Definition jackpot_contribution (per_photo : Z) (rate : float) : option Z :=
  match PyFloat.int_mul per_photo rate with
  | Some x => PyFloat.to_int x
  | None => None
  end.

Definition new_pool (festival_id : string) : JackpotPool :=
  mkPool festival_id (pool_default_current_amount ext) (pool_default_seed_amount ext)
         (pool_default_contribution_rate ext) None None.

Definition new_entry (user_id festival_id wk : string) : JackpotEntry :=
  mkEntry user_id festival_id wk (entry_default_count ext).

(** The new photo row takes the request's [utcnow] as its [created_at]
    (the column default). *)
Definition upload_photo (festival_id : string) (form : UploadForm)
    (current_user_id : string) (clk : Clock)
    : Req (TrashPhoto * option UserDailySummary) :=
  let user_id := str_or (up_userId form) current_user_id in
  fail_if (negb (user_id == current_user_id)) Forbidden ;;;
  d <- read_db ;;
  let user := db_get_user d user_id in
  let festival := db_get_festival d festival_id in
  _ <- require user UserNotFound ;;
  festival <- require festival FestivalNotFound ;;
  fail_if (negb (is_inside_festival festival (up_lat form) (up_lng form))) OutsideGeofence ;;;
  let one_minute_ago := utcnow clk - minutes 1 in
  let recent_count :=
    Z.of_nat (List.length
      (filter (fun p => (photo_user_id p == user_id) && (created_at p >=? one_minute_ago))
              (photos d))) in
  fail_if (recent_count >=? 5) RateLimited ;;;
  let new_hash := up_image_hash form in
  let new_hash_obj := parse_hash new_hash in
  lift_result (dedup_loop new_hash new_hash_obj (recent_photos_of d user_id)) ;;;
  summary <- ensure_summary clk user_id festival_id ;;
  fail_if (today_total summary >=? per_user_daily_cap festival) CapExceeded ;;;
  ensure_budget_room festival (per_photo_point festival) ;;;
  let photo := mkPhoto (up_photo_id form) user_id festival_id new_hash
                       PHOTO_STATUS_PENDING (per_photo_point festival) (utcnow clk) in
  write_db (fun d => with_photos d (photos d ++ [photo])) ;;;
  update_summary user_id festival_id (today clk) (add_pending (per_photo_point festival)) ;;;
  d1 <- read_db ;;
  found <- scalar_one_or_none (filter (pool_of festival_id) (pools d1)) ;;
  jackpot_pool <-
    match found with
    | Some p => ret p
    | None =>
        write_db (fun d => with_pools d (pools d ++ [new_pool festival_id])) ;;;
        ret (new_pool festival_id)
    end ;;
  contribution <-
    require (jackpot_contribution (per_photo_point festival) (contribution_rate jackpot_pool))
            InternalError ;;
  write_db (fun d =>
    with_pools d (update_first (pool_of festival_id) (add_current_amount contribution) (pools d))) ;;;
  d2 <- read_db ;;
  entry <- scalar_one_or_none (filter (entry_of user_id festival_id (week_key clk)) (entries d2)) ;;
  match entry with
  | Some _ =>
      write_db (fun d =>
        with_entries d (update_first (entry_of user_id festival_id (week_key clk))
                                     bump_entry (entries d)))
  | None =>
      write_db (fun d =>
        with_entries d (entries d ++ [new_entry user_id festival_id (week_key clk)]))
  end ;;;
  d3 <- read_db ;;
  ret (photo, find_summary d3 user_id festival_id (today clk)).

(** The activation loop of [scan_bin]: it stops at the first photo that
    does not fit. *)
Fixpoint activation_loop (remaining_cap : Z) (activated : Z) (ids_to_activate : list string)
    (pending_photos : list TrashPhoto) : Z * list string :=
  match pending_photos with
  | [] => (activated, ids_to_activate)
  | photo :: rest =>
      if activated + points photo >? remaining_cap then (activated, ids_to_activate)
      else activation_loop remaining_cap (activated + points photo)
                           (ids_to_activate ++ [photo_id photo]) rest
  end.

(** The [where] clause of the pending-photo query of [scan_bin]. *)
Definition awaiting_activation (user_id festival_id : string) (cutoff : Z)
    (p : TrashPhoto) : bool :=
  (photo_user_id p == user_id) && (photo_festival_id p == festival_id)
  && is_pending p && (created_at p >=? cutoff).

(** The PENDING photos of the user in the festival created at or after
    [cutoff], oldest first. *)
Definition pending_photos_of (d : DB) (user_id festival_id : string) (cutoff : Z)
    : list TrashPhoto :=
  order_by created_at_asc
    (filter (awaiting_activation user_id festival_id cutoff) (photos d)).

Definition scan_bin (festival_id : string) (payload : ScanPayload)
    (current_user_id : string) (clk : Clock) : Req ScanResponse :=
  let user_id := str_or (scan_userId payload) current_user_id in
  fail_if (negb (user_id == current_user_id)) Forbidden ;;;
  let scanned := scan_binCode payload in
  fail_if ((user_id == "") || is_empty_opt scanned) MissingParameters ;;;
  d <- read_db ;;
  let festival := db_get_festival d festival_id in
  let bin_obj :=
    find (fun b => (bin_festival_id b == festival_id) && opt_is (bin_code b) scanned)
         (bins d) in
  let user := db_get_user d user_id in
  festival <- require festival FestivalNotFound ;;
  bin_obj <- require bin_obj BinNotFound ;;
  _ <- require user UserNotFound ;;
  fail_if (negb (is_inside_festival festival (scan_lat payload) (scan_lng payload)))
          OutsideGeofence ;;;
  fail_if (get_budget_usage d festival_id >=? budget festival) BudgetExhausted ;;;
  summary <- ensure_summary clk user_id festival_id ;;
  let remaining_cap :=
    Z.max 0 (per_user_daily_cap festival - (total_active summary + total_consumed summary)) in
  fail_if (remaining_cap <=? 0) CapExceeded ;;;
  let cutoff := utcnow clk - minutes PENDING_ACTIVATION_MINUTES in
  let pending_photos := pending_photos_of d user_id festival_id cutoff in
  fail_if (match pending_photos with [] => true | _ => false end) NothingToActivate ;;;
  let '(activated, ids_to_activate) := activation_loop remaining_cap 0 [] pending_photos in
  fail_if (match ids_to_activate with [] => true | _ => false end) CapExceeded ;;;
  write_db (fun d =>
    with_photos d
      (map (fun p => if mem_string (photo_id p) ids_to_activate
                     then set_status PHOTO_STATUS_ACTIVE p else p)
           (photos d))) ;;;
  update_summary user_id festival_id (today clk) (move_pending_to_active activated) ;;;
  write_db (fun d =>
    with_scans d (scans d ++ [mkScan festival_id (bin_id bin_obj) user_id])) ;;;
  d1 <- read_db ;;
  ret (mkScanResponse activated (List.length ids_to_activate)
                      (find_summary d1 user_id festival_id (today clk))).

(** [str(n)] for an int *)
Definition str_of_int (n : Z) : string :=
  DecimalString.NilZero.string_of_int (Z.to_int n).

(** [s[-6:]] *)
Definition last6 (s : string) : string :=
  let n := String.length s in
  if (n <=? 6)%nat then s else String.substring (n - 6) 6 s.

Definition upper_char (c : ascii) : ascii :=
  let n := nat_of_ascii c in
  if ((97 <=? n) && (n <=? 122))%nat then ascii_of_nat (n - 32) else c.

(** [s.upper()] *)
Fixpoint upper (s : string) : string :=
  match s with
  | EmptyString => EmptyString
  | String c t => String (upper_char c) (upper t)
  end.

(** [f"HDFEST-{amount_int}-{str(int(time.time_ns()))[-6:]}".upper()] *)
Definition coupon_code (amount_int : Z) (clk : Clock) : string :=
  upper ("HDFEST-" ++ str_of_int amount_int ++ "-"
                   ++ last6 (str_of_int (time_ns clk)))%string.

Definition issue_coupon (festival_id : string) (payload : CouponPayload)
    (current_user_id : string) (clk : Clock) : Req Coupon :=
  let user_id := str_or (cp_userId payload) current_user_id in
  fail_if (negb (user_id == current_user_id)) Forbidden ;;;
  let shop := cp_shopName payload in
  let amount_int := cp_amount payload in
  fail_if ((user_id == "") || is_empty_opt shop) MissingParameters ;;;
  amount_int <- require amount_int MissingParameters ;;
  d <- read_db ;;
  festival <- require (db_get_festival d festival_id) FestivalNotFound ;;
  _ <- ensure_summary clk user_id festival_id ;;
  d1 <- read_db ;;
  summary <- require (find_summary d1 user_id festival_id (today clk)) SummaryNotFound ;;
  fail_if (total_active summary <? amount_int) InsufficientBalance ;;;
  ensure_budget_room festival amount_int ;;;
  let code := coupon_code amount_int clk in
  update_summary user_id festival_id (today clk) (move_active_to_consumed amount_int) ;;;
  let coupon := mkCoupon user_id festival_id (str_or shop "") amount_int code
                         COUPON_STATUS_ISSUED in
  write_db (fun d => with_coupons d (coupons d ++ [coupon])) ;;;
  ret coupon.

(** [if token != ADMIN_TOKEN: http_error(401, ...)] *)
Definition require_admin (token : option string) : Req unit :=
  fail_if (negb (opt_is (ADMIN_TOKEN ext) token)) Unauthorized.

Definition week_entries (d : DB) (festival_id wk : string) : list JackpotEntry :=
  filter (fun e => (entry_festival_id e == festival_id) && (entry_week_key e == wk))
         (entries d).

Definition draw_jackpot (festival_id : string) (x_admin_token : option string)
    (clk : Clock) : Req DrawResponse :=
  require_admin x_admin_token ;;;
  d <- read_db ;;
  found <- scalar_one_or_none (filter (pool_of festival_id) (pools d)) ;;
  pool <- require found PoolNotFound ;;
  let wk := week_key clk in
  let drawn := week_entries d festival_id wk in
  fail_if (match drawn with [] => true | _ => false end) NoParticipants ;;;
  let participants := map entry_user_id drawn in
  let weights := map entry_count drawn in
  picked <- require (choices ext participants weights) InternalError ;;
  winner_id <- require (hd_error picked) InternalError ;;
  winner <- require (db_get_user d winner_id) WinnerNotFound ;;
  let day := today clk in
  summary <- scalar_one_or_none
               (filter (summary_matches winner_id festival_id day) (summaries d)) ;;
  match summary with
  | Some _ => ret tt
  | None =>
      write_db (fun d =>
        with_summaries d (summaries d ++ [new_summary winner_id festival_id day]))
  end ;;;
  update_summary winner_id festival_id day (add_active (current_amount pool)) ;;;
  let winner_record := mkWinner winner_id festival_id wk (current_amount pool) in
  write_db (fun d => with_winners d (winners d ++ [winner_record])) ;;;
  let awarded_amount := current_amount pool in
  write_db (fun d =>
    with_pools d (update_first (pool_of festival_id) (reset_pool winner_id day) (pools d))) ;;;
  commit ;;;
  ret (mkDrawResponse (display_name winner) awarded_amount).

(** ** Committed operations *)

Inductive Operation :=
| SubmitPhoto (festival_id : string) (form : UploadForm) (current_user_id : string)
              (clk : Clock)
| ActivateByBinScan (festival_id : string) (payload : ScanPayload)
                    (current_user_id : string) (clk : Clock)
| IssueCoupon (festival_id : string) (payload : CouponPayload) (current_user_id : string)
              (clk : Clock)
| DrawJackpot (festival_id : string) (x_admin_token : option string) (clk : Clock).

(** The database as one request leaves it, whether it succeeds or fails. *)
Definition apply_op (op : Operation) (d : DB) : DB :=
  match op with
  | SubmitPhoto f form u clk => snd (run_request (upload_photo f form u clk) d)
  | ActivateByBinScan f payload u clk => snd (run_request (scan_bin f payload u clk) d)
  | IssueCoupon f payload u clk => snd (run_request (issue_coupon f payload u clk) d)
  | DrawJackpot f token clk => snd (run_request (draw_jackpot f token clk) d)
  end.

Fixpoint run_ops (ops : list Operation) (d : DB) : DB :=
  match ops with
  | [] => d
  | op :: rest => run_ops rest (apply_op op d)
  end.

Definition is_draw (op : Operation) : bool :=
  match op with
  | DrawJackpot _ _ _ => true
  | _ => false
  end.

End Handlers.

(** ** Symbolic execution of a request *)

Ltac db_simpl :=
  cbn [festivals users summaries photos coupons bins scans pools entries winners
       with_summaries with_photos with_coupons with_scans with_pools
       with_entries with_winners].

Ltac exec :=
  cbv beta iota zeta delta
    [run_request bind fail_if require ret http_error lift_result
     read_db write_db commit scalar_one_or_none update_summary
     ensure_summary ensure_budget_room require_admin session committed];
  db_simpl.

Ltac branch :=
  match goal with
  | |- context [match ?x with _ => _ end] =>
      lazymatch x with
      | context [match _ with _ => _ end] => fail
      | _ => destruct x eqn:?
      end
  end.

Ltac run := exec; repeat (branch; exec).

(** The database after [ensure_summary] has run and committed. *)
Definition touch_summary (clk : Clock) (user_id festival_id : string) (d : DB) : DB :=
  match find_summary d user_id festival_id (today clk) with
  | Some _ => d
  | None =>
      with_summaries d (summaries d ++ [new_summary user_id festival_id (today clk)])
  end.

(** ** Ledger invariants *)

(** Every festival's used budget stays within its budget. *)
Definition budget_respected (d : DB) : Prop :=
  forall fid festival,
    db_get_festival d fid = Some festival ->
    get_budget_usage d fid <= budget festival.

(** Every daily summary stays within the daily cap of its festival. *)
Definition cap_respected (d : DB) : Prop :=
  forall s festival,
    In s (summaries d) ->
    db_get_festival d (sum_festival_id s) = Some festival ->
    today_total s <= per_user_daily_cap festival.

(** Every daily summary holds a whole number of photo rewards. *)
Definition whole_rewards (d : DB) : Prop :=
  forall s festival,
    In s (summaries d) ->
    db_get_festival d (sum_festival_id s) = Some festival ->
    (per_photo_point festival | today_total s).

(** Festival settings under which the cap gate of [upload_photo], which
    compares the total before the credit, cannot be overshot. *)
Definition cap_configured (d : DB) : Prop :=
  forall fid festival,
    db_get_festival d fid = Some festival ->
    0 <= per_user_daily_cap festival
    /\ 0 < per_photo_point festival
    /\ (per_photo_point festival | per_user_daily_cap festival).

Definition ledger_ok (d : DB) : Prop := cap_respected d /\ whole_rewards d.

Definition no_draw (ops : list Operation) : bool :=
  forallb (fun op => negb (is_draw op)) ops.

(** The summary [ensure_summary] hands to a handler: the stored row of
    the user's day, or the fresh zero row. *)
Definition current_summary (clk : Clock) (user_id festival_id : string) (d : DB)
    : UserDailySummary :=
  match find_summary d user_id festival_id (today clk) with
  | Some s => s
  | None => new_summary user_id festival_id (today clk)
  end.

(** A festival fenced around latitude 37, without a radius. *)
Definition fenced_festival (radius : option Z) : Festival :=
  mkFestival "fest-1" 1000000 500000 1000
             (Some (PyFloat.of_int 37)) (Some (PyFloat.of_int 127)) radius.

(** The balances [get_summary] reports for a key: those of the stored
    row, or the zeros of the row [ensure_summary] creates on first touch. *)
Definition daily_balances (d : DB) (user_id festival_id day : string) : Z * Z * Z :=
  match find_summary d user_id festival_id day with
  | Some s => (total_pending s, total_active s, total_consumed s)
  | None => (0, 0, 0)
  end.

(** The failures of the five gates of [upload_photo]. *)
Definition gate_error (e : HttpError) : bool :=
  match e with
  | OutsideGeofence | RateLimited | DuplicateImage | CapExceeded | BudgetExhausted => true
  | _ => false
  end.

(** The gates that come before the summary is looked up. *)
Definition early_gate (e : HttpError) : bool :=
  match e with
  | OutsideGeofence | RateLimited | DuplicateImage => true
  | _ => false
  end.

(** ** A sample deployment

    Concrete collaborators and rows in the shape of the jackpot tests:
    hashes are bit lists read off hexadecimal digits, the draw picks the
    last participant, the distance is a one-dimensional stand-in. *)

Definition nibble (c : ascii) : option N :=
  let n := N_of_ascii c in
  (if (48 <=? n) && (n <=? 57) then Some (n - 48)
   else if (65 <=? n) && (n <=? 70) then Some (n - 55)
   else if (97 <=? n) && (n <=? 102) then Some (n - 87)
   else None)%N.

Fixpoint sample_hex_to_hash (s : string) : option (list bool) :=
  match s with
  | EmptyString => Some []
  | String c t =>
      match nibble c, sample_hex_to_hash t with
      | Some n, Some bits =>
          Some (N.testbit n 3 :: N.testbit n 2 :: N.testbit n 1 :: N.testbit n 0 :: bits)
      | _, _ => None
      end
  end.

Fixpoint count_differing (a b : list bool) : Z :=
  match a, b with
  | x :: a', y :: b' => (if Bool.eqb x y then 0 else 1) + count_differing a' b'
  | _, _ => 0
  end.

Definition sample_hash_sub (a b : list bool) : option Z :=
  if (List.length a =? List.length b)%nat then Some (count_differing a b) else None.

Definition pick_last (participants : list string) (weights : list Z)
    : option (list string) :=
  match rev participants with
  | w :: _ => Some [w]
  | [] => None
  end.

Definition sample_distance (lat lng clat clng : float) : float :=
  PyFloat.mul (PyFloat.of_int 111000)
              (SFabs (SFsub PyFloat.prec PyFloat.emax lat clat)).

Definition sample_ext : Externals :=
  mkExternals sample_distance (list bool) sample_hex_to_hash (@List.length bool)
              sample_hash_sub pick_last "test-admin-token"
              0 0 (PyFloat.of_int 1) 1.

(** The same collaborators with column defaults in the shape of the
    jackpot test: a new pool row starts at 10,000 with a seed of 10,000
    and a contribution rate of 1.0. *)
Definition seeded_ext : Externals :=
  mkExternals sample_distance (list bool) sample_hex_to_hash (@List.length bool)
              sample_hash_sub pick_last "test-admin-token"
              10000 10000 (PyFloat.of_int 1) 1.

Definition sample_clock : Clock :=
  mkClock 1793700000000000 "2026-11-03" "2026-W45" 1793700000123456789.

Definition sample_festival (cap per_photo : Z) : Festival :=
  mkFestival "fest-1" 1000000 cap per_photo None None None.

Definition half : float := PyFloat.div (PyFloat.of_int 1) (PyFloat.of_int 2).

(** One festival, two users, a pool of 50,000 over a seed of 10,000 and
    the weekly entries alice:1, bob:3. *)
Definition sample_db (cap per_photo : Z) (rate : float) : DB :=
  mkDB [sample_festival cap per_photo]
       [mkUser "user-a" "alice"; mkUser "user-b" "bob"]
       [] [] []
       [mkBin "bin-1" "fest-1" "TRASH_BIN_01" "bin #1"]
       []
       [mkPool "fest-1" 50000 10000 rate None None]
       [mkEntry "user-a" "fest-1" "2026-W45" 1; mkEntry "user-b" "fest-1" "2026-W45" 3]
       [].

(** The same festival and users before anything happened: no photos,
    summaries, pool or entries. *)
Definition fresh_db (cap per_photo : Z) : DB :=
  mkDB [sample_festival cap per_photo]
       [mkUser "user-a" "alice"; mkUser "user-b" "bob"]
       [] [] []
       [mkBin "bin-1" "fest-1" "TRASH_BIN_01" "bin #1"]
       [] [] [] [].

Definition sample_form (photo image_hash : string) : UploadForm :=
  mkUploadForm None None None image_hash photo.

Definition sample_ops : list Operation :=
  [ SubmitPhoto "fest-1" (sample_form "photo-1" "ffff0000ffff0000") "user-a" sample_clock;
    SubmitPhoto "fest-1" (sample_form "photo-2" "0123456789abcdef") "user-a" sample_clock;
    ActivateByBinScan "fest-1" (mkScanPayload None (Some "TRASH_BIN_01") None None)
                      "user-a" sample_clock;
    IssueCoupon "fest-1" (mkCouponPayload None (Some "cafe") (Some 1500))
                "user-a" sample_clock ].

(** The sample ledger with 600,000 points per photo after alice's first
    photo: the budget of 1,000,000 has no room for a second one. *)
Definition spent_db : DB :=
  run_ops sample_ext (firstn 1 sample_ops) (sample_db 5000000 600000 half).

(** bob's upload into the spent ledger *)
Definition bob_upload : Result (TrashPhoto * option UserDailySummary) * DB :=
  run_request (upload_photo sample_ext "fest-1" (sample_form "photo-2" "0123456789abcdef")
                            "user-b" sample_clock) spent_db.

(** alice's upload into the sample ledger *)
Definition alice_upload (per_photo : Z) (rate : float)
    : Result (TrashPhoto * option UserDailySummary) * DB :=
  run_request (upload_photo sample_ext "fest-1" (sample_form "photo-1" "ffff0000ffff0000")
                            "user-a" sample_clock) (sample_db 500000 per_photo rate).

(** The sample ledger after alice's two photos and her bin scan: 2,000
    active points. *)
Definition active_db : DB :=
  run_ops sample_ext (firstn 3 sample_ops) (sample_db 500000 1000 half).

Definition coupon_request (amount_int : Z) : CouponPayload :=
  mkCouponPayload None (Some "cafe") (Some amount_int).

(** The sample clock one millisecond later. *)
Definition a_millisecond_later : Clock :=
  mkClock (utcnow sample_clock + 1000) (today sample_clock) (week_key sample_clock)
          (time_ns sample_clock + 1000000).

(** alice's pending photos of 300, 900 and 100 points, taken three, two
    and one minute ago, and one of 100 points taken forty minutes ago;
    the daily cap is 500. *)
Definition mixed_photo (id : string) (pts minutes_ago : Z) : TrashPhoto :=
  mkPhoto id "user-a" "fest-1" "ffff0000ffff0000" PHOTO_STATUS_PENDING pts
          (utcnow sample_clock - minutes minutes_ago).

Definition mixed_db : DB :=
  with_summaries
    (with_photos (sample_db 500 1000 half)
       [mixed_photo "p3" 100 1; mixed_photo "p1" 300 3; mixed_photo "p0" 100 40;
        mixed_photo "p2" 900 2])
    [mkSummary "user-a" "fest-1" "2026-11-03" 1400 0 0].

Definition sample_scan : ScanPayload :=
  mkScanPayload None (Some "TRASH_BIN_01") None None.

(** The sample ledger after alice's first photo. *)
Definition one_photo_db : DB :=
  run_ops sample_ext (firstn 1 sample_ops) (sample_db 500000 1000 half).

(** ** Read handlers and the admin summary *)

(** Settings read from the process environment that the handlers above
    do not use. *)
Record Settings := mkSettings {
  DEFAULT_FESTIVAL_ID : option string;
  ADMIN_PASSWORD : string;
  SECRET_KEY : string
}.

(** [a or b] on two optional strings. *)
Definition opt_or (a b : option string) : option string :=
  match a with
  | Some s => if s == "" then b else Some s
  | None => b
  end.

Record SummaryResponse := mkSummaryResponse {
  sr_festival : Festival;
  sr_totalPending : Z;
  sr_totalActive : Z;
  sr_totalConsumed : Z;
  sr_cap : Z
}.

Definition get_summary (cfg : Settings) (user_id : string) (festivalId : option string)
    (current_user_id : string) (clk : Clock) : Req SummaryResponse :=
  fail_if (negb (current_user_id == user_id)) Forbidden ;;;
  let festival_id := opt_or festivalId (DEFAULT_FESTIVAL_ID cfg) in
  fail_if (is_empty_opt festival_id) MissingParameters ;;;
  let festival_id := str_or festival_id "" in
  d <- read_db ;;
  let festival := db_get_festival d festival_id in
  let user := db_get_user d user_id in
  festival <- require festival FestivalNotFound ;;
  _ <- require user UserNotFound ;;
  summary <- ensure_summary clk user_id festival_id ;;
  ret (mkSummaryResponse festival (total_pending summary) (total_active summary)
                         (total_consumed summary) (per_user_daily_cap festival)).

Definition list_photos (cfg : Settings) (user_id : string) (festivalId : option string)
    (current_user_id : string) : Req (list TrashPhoto) :=
  fail_if (negb (current_user_id == user_id)) Forbidden ;;;
  let festival_id := opt_or festivalId (DEFAULT_FESTIVAL_ID cfg) in
  fail_if (is_empty_opt festival_id) MissingParameters ;;;
  let festival_id := str_or festival_id "" in
  d <- read_db ;;
  ret (order_by created_at_desc
         (filter (fun p => (photo_user_id p == user_id) && (photo_festival_id p == festival_id))
                 (photos d))).

Record JackpotStatus := mkJackpotStatus {
  js_current_amount : Z;
  js_last_winner_name : option string;
  js_last_draw_date : option (option string)   (* [None]: the key is absent *)
}.

Definition get_jackpot (festival_id : string) : Req JackpotStatus :=
  d <- read_db ;;
  pool <- scalar_one_or_none (filter (pool_of festival_id) (pools d)) ;;
  match pool with
  | None => ret (mkJackpotStatus 0 None None)
  | Some pool =>
      let last_winner_name :=
        match last_winner_id pool with
        | Some w =>
            if w == "" then None
            else match db_get_user d w with
                 | Some winner => Some (display_name winner)
                 | None => None
                 end
        | None => None
        end in
      ret (mkJackpotStatus (current_amount pool) last_winner_name
                           (Some (last_draw_date pool)))
  end.

Definition status_eqb (a b : PhotoStatus) : bool :=
  match a, b with
  | PHOTO_STATUS_PENDING, PHOTO_STATUS_PENDING => true
  | PHOTO_STATUS_ACTIVE, PHOTO_STATUS_ACTIVE => true
  | _, _ => false
  end.

(** [select status, sum(points) ... group by status]: one row for each
    status that occurs. *)
Definition photos_group (festival_id : string) (d : DB) : list (PhotoStatus * Z) :=
  let rows := filter (fun p => photo_festival_id p == festival_id) (photos d) in
  flat_map (fun st =>
              match filter (fun p => status_eqb (status p) st) rows with
              | [] => []
              | group => [(st, sum_Z (map points group))]
              end)
           [PHOTO_STATUS_PENDING; PHOTO_STATUS_ACTIVE].

(** [select bin_id, count(bin_id) ... group by bin_id] *)
Definition bin_usage (festival_id : string) (d : DB) : list (string * Z) :=
  let rows := filter (fun sc => scan_festival_id sc == festival_id) (scans d) in
  map (fun b => (b, Z.of_nat (List.length (filter (fun sc => scan_bin_id sc == b) rows))))
      (nodup string_dec (map scan_bin_id rows)).

(** [select count(distinct user_id)] over the photos of the festival *)
Definition distinct_users (festival_id : string) (d : DB) : Z :=
  Z.of_nat (List.length
    (nodup string_dec
       (map photo_user_id (filter (fun p => photo_festival_id p == festival_id) (photos d))))).

(** The loop over [photos_group] that picks the two totals. *)
Fixpoint status_totals (group : list (PhotoStatus * Z)) (acc : Z * Z) : Z * Z :=
  match group with
  | [] => acc
  | (st, total) :: rest =>
      let acc1 := if status_eqb st PHOTO_STATUS_PENDING then (total, snd acc) else acc in
      let acc2 := if status_eqb st PHOTO_STATUS_ACTIVE then (fst acc1, total) else acc1 in
      status_totals rest acc2
  end.

Record AdminSummary := mkAdminSummary {
  as_festival : Festival;
  as_totalParticipants : Z;
  as_totalPending : Z;
  as_totalActive : Z;
  as_budgetUsed : Z;
  as_budgetRemaining : Z;
  as_binUsage : list (string * Z * option string)
}.

Definition admin_summary (ext : Externals) (festival_id : string)
    (x_admin_token : option string) : Req AdminSummary :=
  require_admin ext x_admin_token ;;;
  d <- read_db ;;
  festival <- require (db_get_festival d festival_id) FestivalNotFound ;;
  let group := photos_group festival_id d in
  let usage_rows := bin_usage festival_id d in
  let festival_bins := filter (fun b => bin_festival_id b == festival_id) (bins d) in
  (* [bin_lookup = {b.id: b for b in bins}]: the last row of an id wins *)
  let bin_lookup := fun id => find (fun b => bin_id b == id) (rev festival_bins) in
  let '(total_pending, total_active) := status_totals group (0, 0) in
  let usage :=
    map (fun row => (fst row, snd row, option_map bin_code (bin_lookup (fst row))))
        usage_rows in
  ret (mkAdminSummary festival (distinct_users festival_id d) total_pending total_active
                      (get_budget_usage d festival_id)
                      (Z.max 0 (budget festival - get_budget_usage d festival_id))
                      usage).

(** The total a summary key reports: pending plus active plus consumed. *)
Definition daily_total (d : DB) (user_id festival_id day : string) : Z :=
  let '(p, a, c) := daily_balances d user_id festival_id day in p + a + c.

(** Every daily summary keeps its active and consumed points together
    within the daily cap of its festival. *)
Definition spend_respected (d : DB) : Prop :=
  forall s festival,
    In s (summaries d) ->
    db_get_festival d (sum_festival_id s) = Some festival ->
    total_active s + total_consumed s <= per_user_daily_cap festival.

(** The condition of [spend_respected] on one row. *)
Definition spend_within (festival : Festival) (s : UserDailySummary) : Prop :=
  total_active s + total_consumed s <= per_user_daily_cap festival.

Definition caps_nonneg (d : DB) : Prop :=
  forall fid festival,
    db_get_festival d fid = Some festival -> 0 <= per_user_daily_cap festival.

(** What a request may leave behind when it fails: nothing, or the
    zero-balance row of [ensure_summary]. *)
Definition ledger_untouched (d d' : DB) : Prop :=
  festivals d' = festivals d /\ users d' = users d /\ photos d' = photos d
  /\ coupons d' = coupons d /\ bins d' = bins d /\ scans d' = scans d
  /\ pools d' = pools d /\ entries d' = entries d /\ winners d' = winners d
  /\ forall u f day, daily_balances d' u f day = daily_balances d u f day.

(** An invariant of the summary rows, each read against its festival. *)
Definition summaries_satisfy (P : Festival -> UserDailySummary -> Prop) (d : DB) : Prop :=
  forall s festival,
    In s (summaries d) ->
    db_get_festival d (sum_festival_id s) = Some festival ->
    P festival s.

(** The conditions under which [upload_photo] accepts a submission. *)
Definition upload_admissible (ext : Externals) (festival_id : string) (form : UploadForm)
    (current_user_id : string) (clk : Clock) (d : DB) : Prop :=
  str_or (up_userId form) current_user_id = current_user_id
  /\ (exists user, db_get_user d current_user_id = Some user)
  /\ exists festival,
       db_get_festival d festival_id = Some festival
       /\ is_inside_festival ext festival (up_lat form) (up_lng form) = true
       /\ Z.of_nat (List.length
            (filter (fun p => (photo_user_id p == current_user_id)
                              && (created_at p >=? utcnow clk - minutes 1)) (photos d))) < 5
       /\ (forall photo, In photo (recent_photos_of d current_user_id) ->
             exists dist,
               photo_distance ext (up_image_hash form)
                              (parse_hash ext (up_image_hash form)) photo = Some dist
               /\ 5 < dist)
       /\ today_total (current_summary clk current_user_id festival_id d)
          < per_user_daily_cap festival
       /\ get_budget_usage d festival_id + per_photo_point festival <= budget festival
       /\ (exists pool contribution,
             (filter (pool_of festival_id) (pools d) = [pool]
              \/ (filter (pool_of festival_id) (pools d) = []
                  /\ pool = new_pool ext festival_id))
             /\ jackpot_contribution (per_photo_point festival) (contribution_rate pool)
                = Some contribution)
       /\ (List.length (filter (entry_of current_user_id festival_id (week_key clk))
                               (entries d)) <= 1)%nat.

(** ** Bin codes

    Strings are sequences of 8-bit characters; the string functions below
    are those of Python on ASCII text. *)

(** [c.isspace()] *)
Definition is_space (c : ascii) : bool :=
  let n := nat_of_ascii c in
  ((9 <=? n) && (n <=? 13) || (28 <=? n) && (n <=? 32))%nat.

(** [c.isdigit()], and the class [\d] of [re] *)
Definition is_digit (c : ascii) : bool :=
  let n := nat_of_ascii c in
  ((48 <=? n) && (n <=? 57))%nat.

(** [s.isascii()] *)
Definition is_ascii (s : string) : bool :=
  forallb (fun c => (nat_of_ascii c <? 128)%nat) (list_ascii_of_string s).

(** [s.lstrip()] *)
Fixpoint lstrip (l : list ascii) : list ascii :=
  match l with
  | c :: t => if is_space c then lstrip t else l
  | [] => []
  end.

(** [s.strip()] *)
Definition strip (l : list ascii) : list ascii :=
  rev (lstrip (rev (lstrip l))).

(** [s.replace(old, new)] for two one-character strings *)
Definition replace_char (old new : ascii) (l : list ascii) : list ascii :=
  map (fun c => if Ascii.eqb c old then new else c) l.

(** [s.replace(old, "")] for a one-character string *)
Definition remove_char (old : ascii) (l : list ascii) : list ascii :=
  filter (fun c => negb (Ascii.eqb c old)) l.

Fixpoint take_while (f : ascii -> bool) (l : list ascii) : list ascii :=
  match l with
  | c :: t => if f c then c :: take_while f t else []
  | [] => []
  end.

(** Group 1 of [re.search(r"(\d+)$", code)], empty when there is no
    match: the longest run of digits that ends the string or, as [$]
    allows, that ends just before its final newline. *)
Definition trailing_digits (code : list ascii) : list ascii :=
  match rev code with
  | c :: r =>
      if Ascii.eqb c "010" then rev (take_while is_digit r)
      else rev (take_while is_digit (c :: r))
  | [] => []
  end.

(** [code.isdigit()] *)
Definition isdigit (code : list ascii) : bool :=
  match code with
  | [] => false
  | _ => forallb is_digit code
  end.

(** [code.startswith(prefix)] *)
Fixpoint startswith (prefix code : list ascii) : bool :=
  match prefix, code with
  | [], _ => true
  | a :: prefix', b :: code' => Ascii.eqb a b && startswith prefix' code'
  | _ :: _, [] => false
  end.

(** [int(digits)] for a run of ASCII digits.  (CPython 3.11 and later
    refuse runs of more than 4300 digits unless configured otherwise.) *)
Definition int_of_digits (digits : list ascii) : Z :=
  match DecimalString.NilEmpty.uint_of_string (string_of_list_ascii digits) with
  | Some d => Z.of_uint d
  | None => 0
  end.

(** [s.zfill(width)] *)
Definition str_zfill (width : nat) (s : string) : string :=
  let pad := string_of_list_ascii (repeat "0"%char (width - String.length s)) in
  match s with
  | String c t =>
      if Ascii.eqb c "+" || Ascii.eqb c "-" then String c (pad ++ t)%string
      else (pad ++ s)%string
  | EmptyString => pad
  end.

(** [f"{n:02d}"] *)
Definition format_02d (n : Z) : string := str_zfill 2 (str_of_int n).

(** [str(bin_code).strip().upper().replace("-", "_").replace(" ", "")] *)
Definition clean_bin_code (bin_code : string) : list ascii :=
  remove_char " " (replace_char "-" "_" (map upper_char (strip (list_ascii_of_string bin_code)))).

Definition normalize_bin_code (bin_code : option string) : option string :=
  match bin_code with
  | None => None
  | Some bin_code =>
      let code := clean_bin_code bin_code in
      let digits := trailing_digits code in
      if match digits with [] => false | _ => true end
         && (isdigit code
             || startswith (list_ascii_of_string "TRASHBIN") code
             || startswith (list_ascii_of_string "TRASH_BIN") code)
      then Some ("TRASH_BIN_" ++ format_02d (int_of_digits digits))%string
      else Some (string_of_list_ascii code)
  end.

(** ** Generating bins *)

Record GeneratePayload := mkGeneratePayload {
  gen_token : option string;   (* [payload.get("token")] *)
  gen_count : option Z;        (* [int(payload.get("count"))]; [None]: absent or null *)
  gen_bin_id : Z -> string     (* primary key given to the row of a sequence number *)
}.

Definition with_bins (d : DB) (v : list TrashBin) : DB :=
  mkDB (festivals d) (users d) (summaries d) (photos d) (coupons d) v (scans d)
       (pools d) (entries d) (winners d).

(** [range(n)] *)
Definition range (n : Z) : list Z := map Z.of_nat (seq 0 (Z.to_nat n)).

(** [f"TRASH_BIN_{str(seq).zfill(2)}"] *)
Definition bin_code_of_seq (seq : Z) : string :=
  ("TRASH_BIN_" ++ str_zfill 2 (str_of_int seq))%string.

(** [f"공식 수거함 #{seq}"] *)
Definition bin_name_of_seq (seq : Z) : string :=
  ("공식 수거함 #" ++ str_of_int seq)%string.

Definition bins_of (festival_id : string) (d : DB) : list TrashBin :=
  filter (fun b => bin_festival_id b == festival_id) (bins d).

(** The loop of [generate_bins] over [range(parsed_count)]. *)
Definition generated_bins (payload : GeneratePayload) (festival_id : string)
    (existing parsed_count : Z) : list TrashBin :=
  map (fun idx =>
         let seq := existing + idx + 1 in
         mkBin (gen_bin_id payload seq) festival_id (bin_code_of_seq seq)
               (bin_name_of_seq seq))
      (range parsed_count).

(** Every new row also gets the same constant description, a column that
    the bin record of the model does not carry. *)
Definition generate_bins (ext : Externals) (festival_id : string) (payload : GeneratePayload)
    (x_admin_token : option string) : Req (list TrashBin) :=
  require_admin ext (opt_or x_admin_token (gen_token payload)) ;;;
  parsed_count <- require (gen_count payload) MissingParameters ;;
  fail_if ((parsed_count =? 0) || (parsed_count <=? 0)) MissingParameters ;;;
  d <- read_db ;;
  _ <- require (db_get_festival d festival_id) FestivalNotFound ;;
  let existing := Z.of_nat (List.length (bins_of festival_id d)) in
  let new_bins := generated_bins payload festival_id existing parsed_count in
  write_db (fun d => with_bins d (bins d ++ new_bins)) ;;;
  ret new_bins.

(** The bins of a festival carry the codes of the numbers 1, 2, ... in
    this order, as they do when all of them came from [generate_bins]. *)
Definition numbered (festival_id : string) (d : DB) : Prop :=
  map bin_code (bins_of festival_id d)
  = map (fun idx => bin_code_of_seq (idx + 1))
        (range (Z.of_nat (List.length (bins_of festival_id d)))).

(** The lookup of [scan_bin] for a scanned code. *)
Definition find_bin (d : DB) (festival_id : string) (scanned : option string)
    : option TrashBin :=
  find (fun b => (bin_festival_id b == festival_id) && opt_is (bin_code b) scanned) (bins d).

(** ** Tokens and authentication *)

Record TokenLib := mkTokenLib {
  (** [hmac.new(key.encode(), payload, "sha256").hexdigest()] *)
  hmac_sha256_hexdigest : string -> string -> string;
  (** [base64.urlsafe_b64encode(data).decode()] *)
  urlsafe_b64encode : string -> string;
  (** [base64.urlsafe_b64decode(token.encode()).decode()]; [None] when it raises *)
  urlsafe_b64decode : string -> option string;
  (** [int(s)]; [None] when it raises *)
  int_of_str : string -> option Z
}.

(** [60 * 60 * 24 * 30] seconds *)
Definition TOKEN_LIFETIME : Z := 60 * 60 * 24 * 30.

(** [now] is [int(time.time())]. *)
Definition create_token (lib : TokenLib) (cfg : Settings) (now : Z) (user_id : string)
    : string :=
  let issued_at := str_of_int now in
  let payload := (user_id ++ ":" ++ issued_at)%string in
  let signature := hmac_sha256_hexdigest lib (SECRET_KEY cfg) payload in
  urlsafe_b64encode lib (payload ++ ":" ++ signature)%string.

(** [s.split(sep)] for a one-character separator *)
Fixpoint split_on (sep : ascii) (s : string) : list string :=
  match s with
  | EmptyString => [EmptyString]
  | String c t =>
      if Ascii.eqb c sep then EmptyString :: split_on sep t
      else match split_on sep t with
           | p :: ps => String c p :: ps
           | [] => [String c EmptyString]
           end
  end.

(** [sep.join(parts)] for a one-character separator *)
Fixpoint join (sep : ascii) (parts : list string) : string :=
  match parts with
  | [] => EmptyString
  | [p] => p
  | p :: ps => (p ++ String sep (join sep ps))%string
  end.

Definition verify_token (lib : TokenLib) (cfg : Settings) (now : Z) (token : option string)
    : option string :=
  match token with
  | None => None
  | Some token =>
      if token == "" then None
      else
        match urlsafe_b64decode lib token with
        | None => None
        | Some raw =>
            match split_on ":" raw with
            | [user_id; issued_at; signature] =>
                let payload := (user_id ++ ":" ++ issued_at)%string in
                let expected := hmac_sha256_hexdigest lib (SECRET_KEY cfg) payload in
                if negb (expected == signature) then None
                else
                  match int_of_str lib issued_at with
                  | None => None
                  | Some issued =>
                      if now - issued >? TOKEN_LIFETIME then None else Some user_id
                  end
            | _ => None
            end
        end
  end.

Definition lower_char (c : ascii) : ascii :=
  let n := nat_of_ascii c in
  if ((65 <=? n) && (n <=? 90))%nat then ascii_of_nat (n + 32) else c.

(** [s.lower()] *)
Fixpoint lower (s : string) : string :=
  match s with
  | EmptyString => EmptyString
  | String c t => String (lower_char c) (lower t)
  end.

(** [s.split(sep, 1)[1]]; [None] when it raises [IndexError] *)
Fixpoint after_first (sep : ascii) (s : string) : option string :=
  match s with
  | EmptyString => None
  | String c t => if Ascii.eqb c sep then Some t else after_first sep t
  end.

Definition get_current_user_id (lib : TokenLib) (cfg : Settings) (now : Z)
    (authorization : option string) : Result string :=
  match authorization with
  | None => Raise Unauthorized
  | Some authorization =>
      if (authorization == "")
         || negb (startswith (list_ascii_of_string "bearer ")
                             (list_ascii_of_string (lower authorization)))
      then Raise Unauthorized
      else
        match after_first " " authorization with
        | None => Raise InternalError
        | Some token =>
            match verify_token lib cfg now (Some token) with
            | Some user_id => if user_id == "" then Raise Unauthorized else Ok user_id
            | None => Raise Unauthorized
            end
        end
  end.

(** ** Mock login *)

Record LoginPayload := mkLoginPayload {
  login_nickname : option string;   (* [payload.get("nickname")] *)
  login_user_id : string            (* primary key given to the new row *)
}.

Record LoginResponse := mkLoginResponse {
  lr_user : User;
  lr_token : string
}.

Definition with_users (d : DB) (v : list User) : DB :=
  mkDB (festivals d) v (summaries d) (photos d) (coupons d) (bins d) (scans d)
       (pools d) (entries d) (winners d).

(** [now] is [int(time.time())] as [create_token] reads it. *)
Definition mock_login (lib : TokenLib) (cfg : Settings) (now : Z) (payload : LoginPayload)
    : Req LoginResponse :=
  let nickname := login_nickname payload in
  fail_if (is_empty_opt nickname) MissingParameters ;;;
  let user := mkUser (login_user_id payload) (str_or nickname "") in
  write_db (fun d => with_users d (users d ++ [user])) ;;;
  let token := create_token lib cfg now (usr_id user) in
  ret (mkLoginResponse user token).

(** A token library for the sample deployment: the identity as encoding
    and a keyed checksum in place of the digest. *)
Definition sample_digest (key payload : string) : string :=
  str_of_int (fold_left (fun acc c => (31 * acc + Z.of_nat (nat_of_ascii c)) mod 1000000007)
                        (list_ascii_of_string (key ++ payload)%string) 7).

Definition sample_int_of_str (s : string) : option Z :=
  option_map Z.of_int (DecimalString.NilZero.int_of_string s).

Definition sample_lib : TokenLib :=
  mkTokenLib sample_digest (fun s => s) Some sample_int_of_str.

Definition sample_settings : Settings :=
  mkSettings (Some "fest-1") "admin123" "dev-secret-key".

Definition sample_generate (count : Z) : GeneratePayload :=
  mkGeneratePayload None (Some count) (fun seq => ("bin-" ++ str_of_int seq)%string).

(** The sample ledger after the four sample requests. *)
Definition settled_db : DB :=
  run_ops sample_ext sample_ops (sample_db 500000 1000 half).

(** The sample ledger after alice's two photos. *)
Definition two_photo_db : DB :=
  run_ops sample_ext (firstn 2 sample_ops) (sample_db 500000 1000 half).

(** The sample ledger after the draw of the week. *)
Definition drawn_db : DB :=
  snd (run_request (draw_jackpot sample_ext "fest-1" (Some "test-admin-token") sample_clock)
                   (sample_db 500000 1000 half)).

(** The fresh ledger after three more bins were generated. *)
Definition binned_db : DB :=
  snd (run_request (generate_bins sample_ext "fest-1" (sample_generate 3)
                                  (Some "test-admin-token"))
                   (fresh_db 500000 1000)).

(** alice's token, issued at the time of the sample clock. *)
Definition sample_token : string :=
  create_token sample_lib sample_settings 1793700000 "user-a".

Definition carol_login : LoginPayload := mkLoginPayload (Some "carol") "user-c".

(** * Properties *)

(** ** List and lookup facts *)

Lemma summary_matches_new u f day :
  summary_matches u f day (new_summary u f day) = true.
Proof.
  unfold summary_matches, new_summary; cbn.
  now rewrite !String.eqb_refl.
Qed.

Lemma find_app_some {A} (p : A -> bool) l x y :
  find p l = Some y -> find p (l ++ [x]) = Some y.
Proof.
  induction l as [|z t IH]; cbn; [discriminate|].
  destruct (p z); [auto | exact IH].
Qed.

Lemma find_app_none {A} (p : A -> bool) l x :
  find p l = None -> find p (l ++ [x]) = if p x then Some x else None.
Proof.
  induction l as [|y t IH]; cbn; [reflexivity|].
  destruct (p y); [discriminate | exact IH].
Qed.

Lemma find_summary_fresh d u f day :
  find_summary d u f day = None ->
  find_summary (with_summaries d (summaries d ++ [new_summary u f day])) u f day
  = Some (new_summary u f day).
Proof.
  unfold find_summary; cbn; intros H.
  now rewrite (find_app_none _ _ _ H), summary_matches_new.
Qed.

Lemma db_get_festival_id d fid f :
  db_get_festival d fid = Some f -> fest_id f = fid.
Proof.
  unfold db_get_festival; intros H.
  apply find_some in H. now apply String.eqb_eq.
Qed.

Lemma opt_is_true s a : opt_is s a = true -> a = Some s.
Proof.
  destruct a as [t|]; cbn; [|discriminate].
  intros H. apply String.eqb_eq in H. now subst.
Qed.

Ltac to_Z :=
  repeat match goal with
  | H : context [_ >=? _] |- _ => rewrite Z.geb_leb in H
  | H : context [_ >? _] |- _ => rewrite Z.gtb_ltb in H
  end;
  repeat match goal with
  | H : (_ <=? _) = false |- _ => apply Z.leb_gt in H
  | H : (_ <=? _) = true |- _ => apply Z.leb_le in H
  | H : (_ <? _) = false |- _ => apply Z.ltb_ge in H
  | H : (_ <? _) = true |- _ => apply Z.ltb_lt in H
  end.

Section Effects.

Variable ext : Externals.

Lemma upload_photo_effect fid form cu clk d r d' :
  run_request (upload_photo ext fid form cu clk) d = (r, d') ->
  let user_id := str_or (up_userId form) cu in
  let d0 := touch_summary clk user_id fid d in
  ((exists e, r = Raise e) /\ (d' = d \/ d' = d0))
  \/
  (exists festival summary pool pools0 contribution,
      db_get_festival d fid = Some festival /\
      find_summary d0 user_id fid (today clk) = Some summary /\
      today_total summary < per_user_daily_cap festival /\
      get_budget_usage d (fest_id festival) + per_photo_point festival <= budget festival /\
      let photo := mkPhoto (up_photo_id form) user_id fid (up_image_hash form)
                           PHOTO_STATUS_PENDING (per_photo_point festival) (utcnow clk) in
      (exists sm, r = Ok (photo, sm)) /\
      photos d' = photos d ++ [photo] /\
      summaries d' = update_first (summary_matches user_id fid (today clk))
                                  (add_pending (per_photo_point festival)) (summaries d0) /\
      festivals d' = festivals d /\ users d' = users d /\ coupons d' = coupons d /\
      bins d' = bins d /\ scans d' = scans d /\ winners d' = winners d /\
      ((filter (pool_of fid) (pools d) = [pool] /\ pools0 = pools d) \/
       (filter (pool_of fid) (pools d) = [] /\ pool = new_pool ext fid /\
        pools0 = pools d ++ [pool])) /\
      jackpot_contribution (per_photo_point festival) (contribution_rate pool)
        = Some contribution /\
      pools d' = update_first (pool_of fid) (add_current_amount contribution) pools0 /\
      ((exists en, filter (entry_of user_id fid (week_key clk)) (entries d) = [en] /\
          entries d' = update_first (entry_of user_id fid (week_key clk)) bump_entry
                                    (entries d)) \/
       (filter (entry_of user_id fid (week_key clk)) (entries d) = [] /\
          entries d' = entries d ++ [new_entry ext user_id fid (week_key clk)]))).
Proof.
  unfold upload_photo, touch_summary. run.
  all: intros H; inversion H; subst; clear H.
  all: try (left; split; [eexists; reflexivity | auto]; fail).
  all: right; to_Z; do 5 eexists; db_simpl.
  all: repeat match goal with |- _ /\ _ => split end.
  all: first
    [ reflexivity | eassumption | lia | (eexists; reflexivity)
    | (apply find_summary_fresh; assumption)
    | (left; split; reflexivity)
    | (right; split; [reflexivity | split; reflexivity])
    | (left; eexists; split; reflexivity)
    | (right; split; reflexivity) ].
Qed.

Lemma scan_bin_effect fid payload cu clk d r d' :
  run_request (scan_bin ext fid payload cu clk) d = (r, d') ->
  let user_id := str_or (scan_userId payload) cu in
  let d0 := touch_summary clk user_id fid d in
  ((exists e, r = Raise e) /\ (d' = d \/ d' = d0))
  \/
  (exists festival summary bin_obj,
      db_get_festival d fid = Some festival /\
      find_summary d0 user_id fid (today clk) = Some summary /\
      let remaining_cap :=
        Z.max 0 (per_user_daily_cap festival
                 - (total_active summary + total_consumed summary)) in
      let pending_photos :=
        pending_photos_of d user_id fid (utcnow clk - minutes PENDING_ACTIVATION_MINUTES) in
      let activated := fst (activation_loop remaining_cap 0 [] pending_photos) in
      let ids_to_activate := snd (activation_loop remaining_cap 0 [] pending_photos) in
      0 < remaining_cap /\ pending_photos <> [] /\ ids_to_activate <> [] /\
      (exists sm, r = Ok (mkScanResponse activated (List.length ids_to_activate) sm)) /\
      photos d' = map (fun p => if mem_string (photo_id p) ids_to_activate
                                then set_status PHOTO_STATUS_ACTIVE p else p) (photos d) /\
      summaries d' = update_first (summary_matches user_id fid (today clk))
                                  (move_pending_to_active activated) (summaries d0) /\
      scans d' = scans d ++ [mkScan fid (bin_id bin_obj) user_id] /\
      festivals d' = festivals d /\ users d' = users d /\ coupons d' = coupons d /\
      bins d' = bins d /\ pools d' = pools d /\ entries d' = entries d /\
      winners d' = winners d).
Proof.
  unfold scan_bin, touch_summary. run.
  all: intros H; inversion H; subst; clear H.
  all: try (left; split; [eexists; reflexivity | auto]; fail).
  all: right; to_Z; do 3 eexists; db_simpl.
  all: split; [reflexivity|].
  all: split; [first [eassumption | apply find_summary_fresh; assumption]|].
  all: match goal with H : activation_loop _ _ _ _ = _ |- _ => rewrite H end.
  all: cbn [fst snd].
  all: repeat match goal with |- _ /\ _ => split end.
  all: first
    [ reflexivity | eassumption | lia | discriminate | (eexists; reflexivity) ].
Qed.

Lemma issue_coupon_effect fid payload cu clk d r d' :
  run_request (issue_coupon fid payload cu clk) d = (r, d') ->
  let user_id := str_or (cp_userId payload) cu in
  let d0 := touch_summary clk user_id fid d in
  ((exists e, r = Raise e) /\ (d' = d \/ d' = d0))
  \/
  (exists festival summary amount_int,
      cp_amount payload = Some amount_int /\
      db_get_festival d fid = Some festival /\
      find_summary d0 user_id fid (today clk) = Some summary /\
      amount_int <= total_active summary /\
      get_budget_usage d (fest_id festival) + amount_int <= budget festival /\
      let coupon := mkCoupon user_id fid (str_or (cp_shopName payload) "") amount_int
                             (coupon_code amount_int clk) COUPON_STATUS_ISSUED in
      r = Ok coupon /\
      coupons d' = coupons d ++ [coupon] /\
      summaries d' = update_first (summary_matches user_id fid (today clk))
                                  (move_active_to_consumed amount_int) (summaries d0) /\
      festivals d' = festivals d /\ users d' = users d /\ photos d' = photos d /\
      bins d' = bins d /\ scans d' = scans d /\ pools d' = pools d /\
      entries d' = entries d /\ winners d' = winners d).
Proof.
  unfold issue_coupon, touch_summary. run.
  all: intros H; inversion H; subst; clear H.
  all: try (left; split; [eexists; reflexivity | auto]; fail).
  all: right; to_Z; do 3 eexists; db_simpl.
  all: repeat match goal with |- _ /\ _ => split end.
  all: first
    [ reflexivity | eassumption | lia
    | (apply find_summary_fresh; assumption) ].
Qed.

Lemma draw_jackpot_effect fid token clk d r d' :
  run_request (draw_jackpot ext fid token clk) d = (r, d') ->
  ((exists e, r = Raise e) /\ d' = d)
  \/
  (exists pool winner_id others winner summaries0,
      token = Some (ADMIN_TOKEN ext) /\
      filter (pool_of fid) (pools d) = [pool] /\
      week_entries d fid (week_key clk) <> [] /\
      choices ext (map entry_user_id (week_entries d fid (week_key clk)))
                  (map entry_count (week_entries d fid (week_key clk)))
        = Some (winner_id :: others) /\
      db_get_user d winner_id = Some winner /\
      ((exists sm, filter (summary_matches winner_id fid (today clk)) (summaries d) = [sm] /\
                   summaries0 = summaries d) \/
       (filter (summary_matches winner_id fid (today clk)) (summaries d) = [] /\
        summaries0 = summaries d ++ [new_summary winner_id fid (today clk)])) /\
      r = Ok (mkDrawResponse (display_name winner) (current_amount pool)) /\
      summaries d' = update_first (summary_matches winner_id fid (today clk))
                                  (add_active (current_amount pool)) summaries0 /\
      winners d' = winners d
                   ++ [mkWinner winner_id fid (week_key clk) (current_amount pool)] /\
      pools d' = update_first (pool_of fid) (reset_pool winner_id (today clk)) (pools d) /\
      festivals d' = festivals d /\ users d' = users d /\ photos d' = photos d /\
      coupons d' = coupons d /\ bins d' = bins d /\ scans d' = scans d /\
      entries d' = entries d).
Proof.
  unfold draw_jackpot. run.
  all: intros H; inversion H; subst; clear H.
  all: try (left; split; [eexists; reflexivity | auto]; fail).
  all: match goal with
       | H : hd_error ?l = Some _ |- _ =>
           destruct l; cbn in H; [discriminate | injection H as ->]
       end.
  all: match goal with
       | H : negb (opt_is _ _) = false |- _ =>
           apply negb_false_iff, opt_is_true in H; subst
       end.
  all: right; do 5 eexists; db_simpl.
  all: repeat match goal with |- _ /\ _ => split end.
  all: first
    [ reflexivity | eassumption | discriminate
    | (left; eexists; split; [eassumption | reflexivity])
    | (right; split; [assumption | reflexivity]) ].
Qed.

End Effects.

(** ** The festival budget *)

Lemma sum_Z_app l1 l2 : sum_Z (l1 ++ l2) = sum_Z l1 + sum_Z l2.
Proof.
  unfold sum_Z. induction l1 as [|x t IH]; cbn; [reflexivity | rewrite IH; lia].
Qed.

Lemma usage_same d d' fid :
  photos d' = photos d -> coupons d' = coupons d ->
  get_budget_usage d' fid = get_budget_usage d fid.
Proof.
  unfold get_budget_usage, photo_points_of, coupon_points_of.
  now intros -> ->.
Qed.

Lemma festival_same d d' fid :
  festivals d' = festivals d -> db_get_festival d' fid = db_get_festival d fid.
Proof. unfold db_get_festival. now intros ->. Qed.

Lemma touch_summary_frame clk u f d :
  festivals (touch_summary clk u f d) = festivals d
  /\ photos (touch_summary clk u f d) = photos d
  /\ coupons (touch_summary clk u f d) = coupons d
  /\ pools (touch_summary clk u f d) = pools d
  /\ entries (touch_summary clk u f d) = entries d
  /\ users (touch_summary clk u f d) = users d.
Proof.
  unfold touch_summary.
  destruct (find_summary d u f (today clk)); cbn; repeat split; reflexivity.
Qed.

Lemma budget_respected_same d d' :
  festivals d' = festivals d -> photos d' = photos d -> coupons d' = coupons d ->
  budget_respected d -> budget_respected d'.
Proof.
  intros Hf Hp Hc H fid f Hget.
  rewrite (festival_same d d' fid Hf) in Hget.
  rewrite (usage_same d d' fid Hp Hc). now apply H.
Qed.

Lemma budget_respected_touch clk u f d :
  budget_respected d -> budget_respected (touch_summary clk u f d).
Proof.
  destruct (touch_summary_frame clk u f d) as (Hf & Hp & Hc & _).
  now apply budget_respected_same.
Qed.

Lemma usage_add_photo d d' p fid :
  photos d' = photos d ++ [p] -> coupons d' = coupons d ->
  get_budget_usage d' fid
  = get_budget_usage d fid + (if photo_festival_id p == fid then points p else 0).
Proof.
  unfold get_budget_usage, photo_points_of, coupon_points_of.
  intros -> ->. rewrite filter_app, map_app, sum_Z_app. cbn.
  destruct (photo_festival_id p == fid); cbn; lia.
Qed.

Lemma usage_add_coupon d d' c fid :
  photos d' = photos d -> coupons d' = coupons d ++ [c] ->
  get_budget_usage d' fid
  = get_budget_usage d fid + (if coupon_festival_id c == fid then amount c else 0).
Proof.
  unfold get_budget_usage, photo_points_of, coupon_points_of.
  intros -> ->. rewrite filter_app, map_app, sum_Z_app. cbn.
  destruct (coupon_festival_id c == fid); cbn; lia.
Qed.

Lemma points_after_activation ids fid l :
  sum_Z (map points (filter (fun p => photo_festival_id p == fid)
     (map (fun p => if mem_string (photo_id p) ids
                    then set_status PHOTO_STATUS_ACTIVE p else p) l)))
  = sum_Z (map points (filter (fun p => photo_festival_id p == fid) l)).
Proof.
  unfold sum_Z in *.
  induction l as [|p t IH]; cbn; [reflexivity|].
  destruct (mem_string (photo_id p) ids); cbn;
    destruct (photo_festival_id p == fid); cbn; rewrite ?IH; reflexivity.
Qed.

Section Budget.

Variable ext : Externals.

Lemma upload_photo_budget fid form cu clk d :
  budget_respected d ->
  budget_respected (snd (run_request (upload_photo ext fid form cu clk) d)).
Proof.
  intros Hinv.
  destruct (run_request (upload_photo ext fid form cu clk) d) as [r d'] eqn:Hrun.
  apply upload_photo_effect in Hrun. cbn [snd].
  destruct Hrun as [[_ [-> | ->]] | Hok]; auto using budget_respected_touch.
  destruct Hok as (f & sm & pool & pools0 & c & Hf & _ & _ & Hroom & Hrest).
  cbv zeta in Hrest.
  destruct Hrest as (_ & Hph & _ & Hfs & _ & Hcp & _).
  intros fid' f' Hget. rewrite (festival_same d d' fid' Hfs) in Hget.
  rewrite (usage_add_photo d d' _ fid' Hph Hcp). cbn [photo_festival_id points].
  destruct (fid == fid') eqn:E.
  - apply String.eqb_eq in E. subst fid'.
    rewrite Hf in Hget. injection Hget as <-.
    rewrite (db_get_festival_id _ _ _ Hf) in Hroom. lia.
  - specialize (Hinv fid' f' Hget). lia.
Qed.

Lemma scan_bin_budget fid payload cu clk d :
  budget_respected d ->
  budget_respected (snd (run_request (scan_bin ext fid payload cu clk) d)).
Proof.
  intros Hinv.
  destruct (run_request (scan_bin ext fid payload cu clk) d) as [r d'] eqn:Hrun.
  apply scan_bin_effect in Hrun. cbn [snd].
  destruct Hrun as [[_ [-> | ->]] | Hok]; auto using budget_respected_touch.
  destruct Hok as (f & sm & b & Hf & _ & Hrest). cbv zeta in Hrest.
  destruct Hrest as (_ & _ & _ & _ & Hph & _ & _ & Hfs & _ & Hcp & _).
  intros fid' f' Hget. rewrite (festival_same d d' fid' Hfs) in Hget.
  unfold get_budget_usage, photo_points_of, coupon_points_of.
  rewrite Hph, Hcp, points_after_activation. now apply Hinv.
Qed.

Lemma issue_coupon_budget fid payload cu clk d :
  budget_respected d ->
  budget_respected (snd (run_request (issue_coupon fid payload cu clk) d)).
Proof.
  intros Hinv.
  destruct (run_request (issue_coupon fid payload cu clk) d) as [r d'] eqn:Hrun.
  apply issue_coupon_effect in Hrun. cbn [snd].
  destruct Hrun as [[_ [-> | ->]] | Hok]; auto using budget_respected_touch.
  destruct Hok as (f & sm & a & _ & Hf & _ & _ & Hroom & Hrest).
  cbv zeta in Hrest.
  destruct Hrest as (_ & Hcp & _ & Hfs & _ & Hph & _).
  intros fid' f' Hget. rewrite (festival_same d d' fid' Hfs) in Hget.
  rewrite (usage_add_coupon d d' _ fid' Hph Hcp). cbn [coupon_festival_id amount].
  destruct (fid == fid') eqn:E.
  - apply String.eqb_eq in E. subst fid'.
    rewrite Hf in Hget. injection Hget as <-.
    rewrite (db_get_festival_id _ _ _ Hf) in Hroom. lia.
  - specialize (Hinv fid' f' Hget). lia.
Qed.

Lemma draw_jackpot_budget fid token clk d :
  budget_respected d ->
  budget_respected (snd (run_request (draw_jackpot ext fid token clk) d)).
Proof.
  intros Hinv.
  destruct (run_request (draw_jackpot ext fid token clk) d) as [r d'] eqn:Hrun.
  apply draw_jackpot_effect in Hrun. cbn [snd].
  destruct Hrun as [[_ ->] | Hok]; auto.
  destruct Hok as (pool & w & others & wu & s0 & _ & _ & _ & _ & _ & _ & _ & _ & _ & _
                   & Hfs & _ & Hph & Hcp & _).
  now apply (budget_respected_same d d').
Qed.

Lemma apply_op_budget op d :
  budget_respected d -> budget_respected (apply_op ext op d).
Proof.
  destruct op; cbn [apply_op];
    auto using upload_photo_budget, scan_bin_budget, issue_coupon_budget,
               draw_jackpot_budget.
Qed.

(** C2: a ledger that respects every festival's budget still does so after
    any sequence of submitPhoto, activateByBinScan, issueCoupon and
    drawJackpot requests, whatever their outcome: the used budget (photo
    points plus coupon amounts) of every festival stays at or below its
    budget. *)
Theorem budget_invariant ops d :
  budget_respected d -> budget_respected (run_ops ext ops d).
Proof.
  revert d. induction ops as [|op rest IH]; intros d H; cbn [run_ops]; [exact H|].
  apply IH, apply_op_budget, H.
Qed.

End Budget.

(** ** The per-user daily cap *)

Lemma update_first_In {A} (p : A -> bool) (f : A -> A) l y :
  In y (update_first p f l) ->
  In y l \/ exists x, find p l = Some x /\ y = f x.
Proof.
  induction l as [|x t IH]; cbn; [tauto|].
  destruct (p x) eqn:E; cbn.
  - intros [<- | H]; [right; eauto | left; auto].
  - intros [<- | H]; [left; auto|].
    destruct (IH H) as [H' | H']; [left; auto | right; exact H'].
Qed.

Lemma summary_matches_festival u f day s :
  summary_matches u f day s = true -> sum_festival_id s = f.
Proof.
  unfold summary_matches. rewrite !andb_true_iff.
  intros [[_ H] _]. now apply String.eqb_eq.
Qed.

Lemma find_summary_festival d u f day s :
  find_summary d u f day = Some s -> sum_festival_id s = f.
Proof.
  unfold find_summary. intros H. apply find_some in H.
  eapply summary_matches_festival, H.
Qed.

Lemma ledger_ok_touch clk u f d :
  cap_configured d -> ledger_ok d -> ledger_ok (touch_summary clk u f d).
Proof.
  intros Hcfg [Hcap Hwhole]. unfold touch_summary.
  destruct (find_summary d u f (today clk)); [split; assumption|].
  split; intros s fe Hin Hget; cbn in Hin, Hget; apply in_app_or in Hin;
    change (db_get_festival d (sum_festival_id s) = Some fe) in Hget.
  - destruct Hin as [Hin | [<- | []]]; [now apply Hcap|].
    destruct (Hcfg _ _ Hget) as (H0 & _). cbn. lia.
  - destruct Hin as [Hin | [<- | []]]; [now apply Hwhole|].
    cbn. apply Z.divide_0_r.
Qed.

(** A write that changes one summary row keeps the ledger in order when
    the new total of that row is in order. *)
Lemma ledger_ok_update d0 d' u fid day g summary :
  festivals d' = festivals d0 ->
  summaries d' = update_first (summary_matches u fid day) g (summaries d0) ->
  find_summary d0 u fid day = Some summary ->
  sum_festival_id (g summary) = sum_festival_id summary ->
  (forall festival, db_get_festival d0 fid = Some festival ->
     today_total (g summary) <= per_user_daily_cap festival
     /\ (per_photo_point festival | today_total (g summary))) ->
  ledger_ok d0 -> ledger_ok d'.
Proof.
  intros Hfs Hsm Hfind Hid Hnew [Hcap Hwhole].
  assert (Hcase : forall s fe, In s (summaries d') ->
            db_get_festival d' (sum_festival_id s) = Some fe ->
            (In s (summaries d0) /\ db_get_festival d0 (sum_festival_id s) = Some fe)
            \/ (s = g summary /\ db_get_festival d0 fid = Some fe)).
  { intros s fe Hin Hget. rewrite (festival_same d0 d' _ Hfs) in Hget.
    rewrite Hsm in Hin. apply update_first_In in Hin.
    destruct Hin as [Hin | (x & Hx & ->)]; [left; auto|].
    right. unfold find_summary in Hfind. rewrite Hfind in Hx. injection Hx as <-.
    split; [reflexivity|].
    rewrite Hid, (find_summary_festival d0 u fid day summary Hfind) in Hget.
    exact Hget. }
  split; intros s fe Hin Hget;
    destruct (Hcase s fe Hin Hget) as [[Hin0 Hget0] | [-> Hget0]].
  - now apply Hcap.
  - now apply Hnew.
  - now apply Hwhole.
  - now apply Hnew.
Qed.

Lemma cap_configured_same d d' :
  festivals d' = festivals d -> cap_configured d -> cap_configured d'.
Proof.
  intros Hfs H fid f Hget. rewrite (festival_same d d' fid Hfs) in Hget. eauto.
Qed.

Section DailyCap.

Variable ext : Externals.

Lemma upload_photo_cap fid form cu clk d :
  cap_configured d -> ledger_ok d ->
  let d' := snd (run_request (upload_photo ext fid form cu clk) d) in
  festivals d' = festivals d /\ ledger_ok d'.
Proof.
  intros Hcfg Hinv.
  destruct (run_request (upload_photo ext fid form cu clk) d) as [r d'] eqn:Hrun.
  apply upload_photo_effect in Hrun. cbn [snd]. cbv zeta in *.
  set (u := str_or (up_userId form) cu) in *.
  pose proof (ledger_ok_touch clk u fid d Hcfg Hinv) as Hinv0.
  destruct (touch_summary_frame clk u fid d) as (Hf0 & _).
  destruct Hrun as [[_ [-> | ->]] | Hok]; auto.
  destruct Hok as (f & sm & pool & pools0 & c & Hf & Hfind & Hlt & _ & Hrest).
  destruct Hrest as (_ & _ & Hsm & Hfs & _).
  split; [exact Hfs|].
  eapply (ledger_ok_update (touch_summary clk u fid d) d');
    [congruence | exact Hsm | exact Hfind | reflexivity | | exact Hinv0].
  intros fe Hget. rewrite (festival_same d _ fid Hf0), Hf in Hget. injection Hget as <-.
  destruct (Hcfg _ _ Hf) as (_ & Hpos & Hdiv).
  destruct Hinv0 as [_ Hwhole0].
  assert (Hw : (per_photo_point f | today_total sm)).
  { apply Hwhole0.
    - unfold find_summary in Hfind. now apply find_some in Hfind.
    - rewrite (find_summary_festival _ _ _ _ _ Hfind), (festival_same d _ fid Hf0).
      exact Hf. }
  assert (Ht : today_total (add_pending (per_photo_point f) sm)
               = today_total sm + per_photo_point f)
    by (unfold today_total, add_pending; cbn; lia).
  rewrite Ht. split.
  - assert (Hgap : (per_photo_point f | per_user_daily_cap f - today_total sm))
      by now apply Z.divide_sub_r.
    apply Z.divide_pos_le in Hgap; lia.
  - apply Z.divide_add_r; [exact Hw | apply Z.divide_refl].
Qed.

Lemma scan_bin_cap fid payload cu clk d :
  cap_configured d -> ledger_ok d ->
  let d' := snd (run_request (scan_bin ext fid payload cu clk) d) in
  festivals d' = festivals d /\ ledger_ok d'.
Proof.
  intros Hcfg Hinv.
  destruct (run_request (scan_bin ext fid payload cu clk) d) as [r d'] eqn:Hrun.
  apply scan_bin_effect in Hrun. cbn [snd]. cbv zeta in *.
  set (u := str_or (scan_userId payload) cu) in *.
  pose proof (ledger_ok_touch clk u fid d Hcfg Hinv) as Hinv0.
  destruct (touch_summary_frame clk u fid d) as (Hf0 & _).
  destruct Hrun as [[_ [-> | ->]] | Hok]; auto.
  destruct Hok as (f & sm & b & Hf & Hfind & _ & _ & _ & _ & _ & Hsm & _ & Hfs & _).
  split; [exact Hfs|].
  eapply (ledger_ok_update (touch_summary clk u fid d) d');
    [congruence | exact Hsm | exact Hfind | reflexivity | | exact Hinv0].
  intros fe Hget.
  match goal with
  | |- context [today_total (move_pending_to_active ?a sm)] =>
      replace (today_total (move_pending_to_active a sm)) with (today_total sm)
        by (unfold today_total, move_pending_to_active; cbn; lia)
  end.
  pose proof Hfind as Hin. unfold find_summary in Hin. apply find_some in Hin.
  destruct Hin as [Hin _]. destruct Hinv0 as [Hcap0 Hwhole0].
  pose proof (find_summary_festival _ _ _ _ _ Hfind) as E.
  split; [apply Hcap0 | apply Hwhole0]; try exact Hin; rewrite E; exact Hget.
Qed.

Lemma issue_coupon_cap fid payload cu clk d :
  cap_configured d -> ledger_ok d ->
  let d' := snd (run_request (issue_coupon fid payload cu clk) d) in
  festivals d' = festivals d /\ ledger_ok d'.
Proof.
  intros Hcfg Hinv.
  destruct (run_request (issue_coupon fid payload cu clk) d) as [r d'] eqn:Hrun.
  apply issue_coupon_effect in Hrun. cbn [snd]. cbv zeta in *.
  set (u := str_or (cp_userId payload) cu) in *.
  pose proof (ledger_ok_touch clk u fid d Hcfg Hinv) as Hinv0.
  destruct (touch_summary_frame clk u fid d) as (Hf0 & _).
  destruct Hrun as [[_ [-> | ->]] | Hok]; auto.
  destruct Hok as (f & sm & a & _ & Hf & Hfind & _ & _ & _ & _ & Hsm & Hfs & _).
  split; [exact Hfs|].
  eapply (ledger_ok_update (touch_summary clk u fid d) d');
    [congruence | exact Hsm | exact Hfind | reflexivity | | exact Hinv0].
  intros fe Hget.
  replace (today_total (move_active_to_consumed a sm)) with (today_total sm)
    by (unfold today_total, move_active_to_consumed; cbn; lia).
  pose proof Hfind as Hin. unfold find_summary in Hin. apply find_some in Hin.
  destruct Hin as [Hin _]. destruct Hinv0 as [Hcap0 Hwhole0].
  pose proof (find_summary_festival _ _ _ _ _ Hfind) as E.
  split; [apply Hcap0 | apply Hwhole0]; try exact Hin; rewrite E; exact Hget.
Qed.

Lemma run_ops_cap ops d :
  no_draw ops = true -> cap_configured d -> ledger_ok d ->
  ledger_ok (run_ops ext ops d).
Proof.
  revert d. induction ops as [|op rest IH]; intros d Hnd Hcfg Hinv; cbn [run_ops];
    [exact Hinv|].
  unfold no_draw in Hnd. cbn [forallb] in Hnd. apply andb_true_iff in Hnd.
  destruct Hnd as [Hop Hrest].
  assert (Hstep : festivals (apply_op ext op d) = festivals d
                  /\ ledger_ok (apply_op ext op d)).
  { destruct op; cbn [apply_op is_draw negb] in *;
      [ now apply upload_photo_cap | now apply scan_bin_cap
      | now apply issue_coupon_cap | discriminate ]. }
  destruct Hstep as [Hfs Hinv'].
  apply IH; [exact Hrest | now apply (cap_configured_same d) | exact Hinv'].
Qed.

(** C1 (as amended): in a ledger whose festivals have a non-negative daily
    cap and a positive per-photo reward that divides the cap, and whose
    summaries are within the cap and hold whole numbers of photo rewards,
    every sequence of submitPhoto, activateByBinScan and issueCoupon
    requests (drawJackpot left out) keeps every daily summary at
    totalPending + totalActive + totalConsumed <= perUserDailyCap. *)
Theorem cap_invariant_without_draw ops d :
  no_draw ops = true ->
  cap_configured d -> cap_respected d -> whole_rewards d ->
  cap_respected (run_ops ext ops d).
Proof.
  intros Hnd Hcfg Hcap Hwhole.
  now apply (run_ops_cap ops d Hnd Hcfg (conj Hcap Hwhole)).
Qed.

End DailyCap.

(** ** Failed gates of a photo submission *)

Lemma daily_balances_touch clk u f d u' f' day' :
  daily_balances (touch_summary clk u f d) u' f' day' = daily_balances d u' f' day'.
Proof.
  unfold touch_summary.
  destruct (find_summary d u f (today clk)) eqn:E; [reflexivity|].
  unfold daily_balances, find_summary. cbn [summaries with_summaries].
  destruct (find (summary_matches u' f' day') (summaries d)) eqn:E'.
  - erewrite find_app_some; [reflexivity | exact E'].
  - rewrite (find_app_none _ _ _ E').
    destruct (summary_matches u' f' day' _); reflexivity.
Qed.

Section GateFailures.

Variable ext : Externals.

Lemma dedup_loop_error new_hash new_hash_obj recent e :
  dedup_loop ext new_hash new_hash_obj recent = Raise e ->
  e = DuplicateImage \/ e = InternalError.
Proof.
  induction recent as [|photo rest IH]; cbn; [discriminate|].
  destruct (photo_distance ext new_hash new_hash_obj photo) as [dist|].
  - destruct (dist <=? 5); [intros [= <-]; now left | exact IH].
  - intros [= <-]; now right.
Qed.

(** C6 (as amended): when a gate of submitPhoto fails, no photo row is
    created, the jackpot pool and entries are unchanged and every daily
    summary reports the same balances as before.  A geofence, rate or
    dedup failure leaves the database exactly as it was; a cap or budget
    failure leaves it as [ensure_summary] committed it, that is with the
    zero-balance row of the user's day added when there was none. *)
Theorem upload_gate_failure fid form cu clk d e d' :
  run_request (upload_photo ext fid form cu clk) d = (Raise e, d') ->
  gate_error e = true ->
  photos d' = photos d /\ pools d' = pools d /\ entries d' = entries d
  /\ (forall u f day, daily_balances d' u f day = daily_balances d u f day)
  /\ (if early_gate e then d' = d
      else d' = touch_summary clk (str_or (up_userId form) cu) fid d).
Proof.
  intros Hrun Hgate.
  assert (Hshape : (early_gate e = true -> d' = d)
                   /\ (early_gate e = false ->
                       d' = touch_summary clk (str_or (up_userId form) cu) fid d)).
  { revert Hrun. unfold upload_photo, touch_summary. run.
    all: intros H; inversion H; subst; clear H.
    all: try discriminate Hgate.
    all: try match goal with
         | H : dedup_loop _ _ _ _ = Raise _ |- _ =>
             apply dedup_loop_error in H; destruct H; subst
         end.
    all: try discriminate Hgate.
    all: split; intros Hearly; first [discriminate Hearly | reflexivity]. }
  destruct Hshape as [Hearly Hlate].
  destruct (early_gate e).
  - rewrite (Hearly eq_refl). repeat split; reflexivity.
  - rewrite (Hlate eq_refl).
    destruct (touch_summary_frame clk (str_or (up_userId form) cu) fid d)
      as (_ & Hp & _ & Hpo & He & _).
    repeat split; auto using daily_balances_touch.
Qed.

End GateFailures.

(** ** The jackpot contribution of a photo *)

Lemma filter_update_first {A} (p : A -> bool) (f : A -> A) l :
  (forall x, p (f x) = p x) ->
  filter p (update_first p f l)
  = match filter p l with
    | [] => []
    | x :: t => f x :: t
    end.
Proof.
  intros Hp. induction l as [|x t IH]; cbn; [reflexivity|].
  destruct (p x) eqn:E; cbn.
  - now rewrite Hp, E.
  - now rewrite E.
Qed.

Lemma pool_of_new ext fid : pool_of fid (new_pool ext fid) = true.
Proof. unfold pool_of, new_pool; cbn. apply String.eqb_refl. Qed.

Lemma to_int_nonneg x c :
  PyFloat.to_int x = Some c -> PyFloat.nonneg x = true ->
  PyFloat.floor x = Some c /\ 0 <= c.
Proof.
  destruct x as [s|s| |s m e]; cbn; try discriminate.
  - intros [= <-] _. split; [reflexivity | lia].
  - intros [= <-] Hs. destruct s; [discriminate|]. split; [reflexivity|].
    apply Z.shiftl_nonneg. lia.
Qed.

Section Contribution.

Variable ext : Externals.

(** C8 (as amended): after an accepted photo submission the pool row of
    the festival (created from the column defaults when there was none)
    has a [current_amount] that is the one before plus
    [int(per_photo_point * contribution_rate)], the float product
    truncated toward zero, and is otherwise unchanged; when the product
    is not negative the amount added is its floor and is not negative. *)
Theorem jackpot_contribution_added fid form cu clk d resp d' :
  run_request (upload_photo ext fid form cu clk) d = (Ok resp, d') ->
  exists festival pool product contribution pool',
    db_get_festival d fid = Some festival
    /\ points (fst resp) = per_photo_point festival
    /\ (filter (pool_of fid) (pools d) = [pool]
        \/ (filter (pool_of fid) (pools d) = []
            /\ pool = mkPool fid (pool_default_current_amount ext)
                             (pool_default_seed_amount ext)
                             (pool_default_contribution_rate ext) None None))
    /\ PyFloat.int_mul (per_photo_point festival) (contribution_rate pool) = Some product
    /\ PyFloat.to_int product = Some contribution
    /\ filter (pool_of fid) (pools d') = [pool']
    /\ current_amount pool' = current_amount pool + contribution
    /\ pool_festival_id pool' = pool_festival_id pool
    /\ seed_amount pool' = seed_amount pool
    /\ contribution_rate pool' = contribution_rate pool
    /\ last_winner_id pool' = last_winner_id pool
    /\ last_draw_date pool' = last_draw_date pool
    /\ (PyFloat.nonneg product = true ->
        PyFloat.floor product = Some contribution /\ 0 <= contribution).
Proof.
  intros Hrun. apply upload_photo_effect in Hrun. cbv zeta in Hrun.
  destruct Hrun as [[[e He] _] | Hok]; [discriminate|].
  destruct Hok as (f & sm & pool & pools0 & c & Hf & _ & _ & _ & [sm' Hr] & _ & _ & _ & _
                   & _ & _ & _ & _ & Hpool & Hc & Hpools & _).
  unfold jackpot_contribution in Hc.
  destruct (PyFloat.int_mul (per_photo_point f) (contribution_rate pool))
    as [product|] eqn:Hmul; [|discriminate].
  exists f, pool, product, c, (add_current_amount c pool).
  injection Hr as ->.
  split; [exact Hf|]. split; [reflexivity|].
  split.
  { destruct Hpool as [[H _] | (H & -> & _)]; [left | right]; auto. }
  split; [exact Hmul|]. split; [exact Hc|].
  split.
  { rewrite Hpools, filter_update_first by reflexivity.
    destruct Hpool as [[H ->] | (H & -> & ->)].
    - now rewrite H.
    - rewrite filter_app, H. cbn [filter app]. now rewrite pool_of_new. }
  cbn [add_current_amount current_amount pool_festival_id seed_amount contribution_rate
       last_winner_id last_draw_date].
  repeat split; try reflexivity.
  - now apply to_int_nonneg.
  - now apply to_int_nonneg with (x := product).
Qed.

End Contribution.

(** ** The geofence gate *)

Section GeofenceGate.

Variable ext : Externals.

(** C10: a festival with a center whose radius is missing or zero is
    fenced at 1500 meters; a festival without a center lets every
    position (and a missing position) through.  Both submitPhoto and
    activateByBinScan reject with the geofence error exactly on the
    verdict of [is_inside_festival], before they write anything. *)
Theorem geofence_default_radius :
  (forall festival clat clng la lo,
      center_lat festival = Some clat -> center_lng festival = Some clng ->
      radius_meters festival = None \/ radius_meters festival = Some 0 ->
      is_inside_festival ext festival (Some la) (Some lo)
      = PyFloat.le_int (haversine_distance ext la lo clat clng) 1500)
  /\ (forall festival lat lng,
      center_lat festival = None \/ center_lng festival = None ->
      is_inside_festival ext festival lat lng = true)
  /\ (forall fid form cu clk d festival user,
      str_or (up_userId form) cu = cu ->
      db_get_user d cu = Some user ->
      db_get_festival d fid = Some festival ->
      is_inside_festival ext festival (up_lat form) (up_lng form) = false ->
      run_request (upload_photo ext fid form cu clk) d = (Raise OutsideGeofence, d))
  /\ (forall fid form cu clk d,
      fst (run_request (upload_photo ext fid form cu clk) d) = Raise OutsideGeofence ->
      exists festival,
        db_get_festival d fid = Some festival
        /\ is_inside_festival ext festival (up_lat form) (up_lng form) = false)
  /\ (forall fid payload cu clk d festival user bin_obj,
      str_or (scan_userId payload) cu = cu -> cu <> "" ->
      is_empty_opt (scan_binCode payload) = false ->
      db_get_festival d fid = Some festival ->
      find (fun b => (bin_festival_id b == fid)
                     && opt_is (bin_code b) (scan_binCode payload)) (bins d)
        = Some bin_obj ->
      db_get_user d cu = Some user ->
      is_inside_festival ext festival (scan_lat payload) (scan_lng payload) = false ->
      run_request (scan_bin ext fid payload cu clk) d = (Raise OutsideGeofence, d))
  /\ (forall fid payload cu clk d,
      fst (run_request (scan_bin ext fid payload cu clk) d) = Raise OutsideGeofence ->
      exists festival,
        db_get_festival d fid = Some festival
        /\ is_inside_festival ext festival (scan_lat payload) (scan_lng payload) = false).
Proof.
  repeat apply conj.
  - intros festival clat clng la lo Hlat Hlng Hr.
    unfold is_inside_festival. rewrite Hlat, Hlng.
    destruct Hr as [-> | ->]; reflexivity.
  - intros festival lat lng H. unfold is_inside_festival.
    destruct H as [-> | ->]; [|destruct (center_lat festival)]; reflexivity.
  - intros fid form cu clk d festival user Hown Huser Hfest Hout.
    unfold upload_photo. rewrite Hown, String.eqb_refl. cbn [negb]. exec.
    rewrite Huser, Hfest. exec. rewrite Hout. reflexivity.
  - intros fid form cu clk d. unfold upload_photo. run.
    all: cbn [fst]; intros H; try discriminate H.
    + eexists; split; [reflexivity | now apply negb_true_iff].
    + match goal with
      | H0 : dedup_loop _ _ _ _ = Raise _ |- _ =>
          apply dedup_loop_error in H0; destruct H0; congruence
      end.
  - intros fid payload cu clk d festival user bin_obj Hown Hcu Hcode Hfest Hbin Huser Hout.
    unfold scan_bin. rewrite Hown, String.eqb_refl. cbn [negb]. exec.
    apply String.eqb_neq in Hcu. rewrite Hcu, Hcode. cbn [orb]. exec.
    rewrite Hfest, Hbin, Huser. exec. rewrite Hout. reflexivity.
  - intros fid payload cu clk d. unfold scan_bin. run.
    all: cbn [fst]; intros H; try discriminate H.
    eexists; split; [reflexivity | now apply negb_true_iff].
Qed.

End GeofenceGate.

(** ** Coupon debits *)

Lemma find_update_first {A} (p : A -> bool) (f : A -> A) l x :
  (forall y, p (f y) = p y) ->
  find p l = Some x -> find p (update_first p f l) = Some (f x).
Proof.
  intros Hp. induction l as [|y t IH]; cbn; [discriminate|].
  destruct (p y) eqn:E; cbn.
  - intros [= <-]. now rewrite Hp, E.
  - now rewrite E.
Qed.

Lemma find_summary_touch clk u f d :
  find_summary (touch_summary clk u f d) u f (today clk)
  = Some (current_summary clk u f d).
Proof.
  unfold touch_summary, current_summary.
  destruct (find_summary d u f (today clk)) eqn:E; [exact E|].
  now apply find_summary_fresh.
Qed.

(** ** Coupon codes *)

Lemma upper_fixed s :
  Forall (fun c => upper_char c = c) (list_ascii_of_string s) -> upper s = s.
Proof.
  induction s as [|c s IH]; cbn; [reflexivity|].
  intros H. apply Forall_cons_iff in H as [-> H]. now rewrite IH.
Qed.

Lemma chars_app a b :
  list_ascii_of_string (a ++ b)%string = list_ascii_of_string a ++ list_ascii_of_string b.
Proof. induction a as [|c a IH]; cbn; [reflexivity|now f_equal]. Qed.

Lemma numeral_digits d :
  forallb is_digit (list_ascii_of_string (DecimalString.NilZero.string_of_uint d)) = true
  /\ DecimalString.NilZero.string_of_uint d <> "".
Proof.
  assert (H : forall e,
            forallb is_digit (list_ascii_of_string (DecimalString.NilEmpty.string_of_uint e))
            = true) by (induction e; cbn; auto).
  unfold DecimalString.NilZero.string_of_uint.
  destruct d; split; try apply (H (_ _)); try reflexivity; discriminate.
Qed.

(** The decimal string of an integer: a run of digits, after a minus sign
    for a negative number. *)
Lemma str_of_int_shape n :
  exists digits,
    forallb is_digit (list_ascii_of_string digits) = true /\ digits <> ""
    /\ str_of_int n = if n <? 0 then String "-" digits else digits.
Proof.
  unfold str_of_int. destruct n as [|p|p]; cbn [Z.to_int DecimalString.NilZero.string_of_int].
  - exists "0". repeat split. discriminate.
  - exists (DecimalString.NilZero.string_of_uint (Pos.to_uint p)).
    destruct (numeral_digits (Pos.to_uint p)). repeat split; auto.
  - exists (DecimalString.NilZero.string_of_uint (Pos.to_uint p)).
    destruct (numeral_digits (Pos.to_uint p)). repeat split; auto.
Qed.

Lemma str_of_int_inj n m : str_of_int n = str_of_int m -> n = m.
Proof.
  assert (Hread : forall z,
            DecimalString.NilZero.int_of_string (str_of_int z) = Some (Z.to_int z)).
  { intros z. unfold str_of_int. apply DecimalString.NilZero.isi.
    - destruct z as [|p|p]; cbn; try discriminate.
      intros [= H]. exact (DecimalPos.Unsigned.to_uint_nonnil p H).
    - destruct z as [|p|p]; cbn; try discriminate.
      intros [= H]. exact (DecimalPos.Unsigned.to_uint_nonnil p H). }
  intros H. pose proof (Hread n) as Hn. rewrite H, Hread in Hn. injection Hn as Hn.
  rewrite <- (DecimalZ.of_to n), <- (DecimalZ.of_to m). now rewrite Hn.
Qed.

Lemma digits_then_dash u v t1 t2 :
  forallb is_digit u = true -> forallb is_digit v = true ->
  u ++ "-"%char :: t1 = v ++ "-"%char :: t2 -> u = v /\ t1 = t2.
Proof.
  revert v. induction u as [|x u IH]; intros [|y v]; cbn; intros Hu Hv H.
  - injection H as ->. now split.
  - injection H as <- _. discriminate.
  - injection H as -> _. discriminate.
  - apply andb_prop in Hu as [_ Hu]. apply andb_prop in Hv as [_ Hv].
    injection H as -> H. destruct (IH v Hu Hv H) as [-> ->]. now split.
Qed.

Lemma chars_inj a b : list_ascii_of_string a = list_ascii_of_string b -> a = b.
Proof.
  intros H. rewrite <- (string_of_list_ascii_of_string a), H.
  apply string_of_list_ascii_of_string.
Qed.

Lemma numeral_then_dash n m t1 t2 :
  (str_of_int n ++ "-" ++ t1 = str_of_int m ++ "-" ++ t2)%string -> n = m /\ t1 = t2.
Proof.
  intros H.
  assert (Hs : str_of_int n = str_of_int m /\ t1 = t2).
  { destruct (str_of_int_shape n) as (u & Hu & Hune & En).
    destruct (str_of_int_shape m) as (v & Hv & Hvne & Em).
    rewrite En, Em in *.
    apply (f_equal list_ascii_of_string) in H. rewrite !chars_app in H.
    cbn [list_ascii_of_string app] in H.
    assert (Hhead : forall w, forallb is_digit (list_ascii_of_string w) = true -> w <> "" ->
              exists c r, list_ascii_of_string w = c :: r /\ is_digit c = true).
    { intros w Hw Hne. destruct w as [|c r]; [congruence|]. cbn in *.
      apply andb_prop in Hw as [Hc _]. eauto. }
    destruct (n <? 0), (m <? 0); cbn [list_ascii_of_string app] in H.
    - injection H as H. apply digits_then_dash in H as [H Ht]; auto.
      apply chars_inj in H, Ht. now subst.
    - destruct (Hhead v Hv Hvne) as (c & r & E & Hc). rewrite E in H.
      cbn in H. injection H as <- _. discriminate.
    - destruct (Hhead u Hu Hune) as (c & r & E & Hc). rewrite E in H.
      cbn in H. injection H as -> _. discriminate.
    - apply digits_then_dash in H as [H Ht]; auto.
      apply chars_inj in H, Ht. now subst. }
  destruct Hs as [Hs ->]. split; [now apply str_of_int_inj|reflexivity].
Qed.

Lemma substring_chars (P : ascii -> bool) s :
  forallb P (list_ascii_of_string s) = true ->
  forall n m, forallb P (list_ascii_of_string (String.substring n m s)) = true.
Proof.
  induction s as [|c s IH]; intros H n m.
  - destruct n, m; reflexivity.
  - cbn in H. apply andb_prop in H as [Hc H].
    destruct n as [|n]; [destruct m as [|m]|]; cbn; auto.
    rewrite Hc. cbn. now apply IH.
Qed.

(** The code is the text itself: nothing in it is a lower-case letter. *)
Lemma coupon_code_text amount_int clk :
  coupon_code amount_int clk
  = ("HDFEST-" ++ str_of_int amount_int ++ "-" ++ last6 (str_of_int (time_ns clk)))%string.
Proof.
  unfold coupon_code. apply upper_fixed.
  set (plain := fun c => is_digit c || Ascii.eqb c "-").
  assert (Hplain : forall c, plain c = true -> upper_char c = c).
  { intros c. unfold plain.
    destruct c as [[] [] [] [] [] [] [] []]; vm_compute; intros H;
      try reflexivity; discriminate. }
  assert (Hnum : forall z, forallb plain (list_ascii_of_string (str_of_int z)) = true).
  { intros z. destruct (str_of_int_shape z) as (u & Hu & _ & ->).
    assert (Hu' : forallb plain (list_ascii_of_string u) = true).
    { rewrite forallb_forall in *. intros c Hc. unfold plain. now rewrite (Hu c Hc). }
    destruct (z <? 0); [cbn; exact Hu'|exact Hu']. }
  assert (Hlast : forallb plain (list_ascii_of_string (last6 (str_of_int (time_ns clk))))
                  = true).
  { unfold last6. destruct (_ <=? 6)%nat; [apply Hnum|].
    apply substring_chars, Hnum. }
  rewrite !chars_app. cbn [list_ascii_of_string app].
  repeat (constructor; [reflexivity|]).
  apply Forall_app. split.
  - apply Forall_forall. intros c Hc. apply Hplain.
    pose proof (Hnum amount_int) as H. rewrite forallb_forall in H. now apply H.
  - constructor; [reflexivity|].
    apply Forall_forall. intros c Hc. apply Hplain.
    rewrite forallb_forall in Hlast. now apply Hlast.
Qed.

(** Two codes are the same exactly when the amounts and the last six
    digits of the two clock readings are. *)
Lemma coupon_code_same amount1 clk1 amount2 clk2 :
  coupon_code amount1 clk1 = coupon_code amount2 clk2
  <-> amount1 = amount2
      /\ last6 (str_of_int (time_ns clk1)) = last6 (str_of_int (time_ns clk2)).
Proof.
  rewrite !coupon_code_text. split.
  - intros H. cbn [String.append] in H. injection H as H.
    apply (numeral_then_dash amount1 amount2). exact H.
  - intros [-> ->]. reflexivity.
Qed.

(** C3 (as amended): issue_coupon succeeds only if the user's active
    balance covers the amount and the budget has room for it, and fails
    with the insufficient-balance error when the balance is short and
    with the budget error when the room is; it has no check that the
    amount is positive.  On success exactly the amount has moved from
    total_active to total_consumed and exactly one ISSUED coupon was
    appended.  Its code is HDFEST-<amount>-<last six digits of the
    nanosecond clock>; two codes are the same exactly when the amounts
    and the six digits are, so the code is unique among the coupons that
    differ in one of the two and not among all coupons.  (The statement
    does not use that the amount is positive.) *)
Theorem issue_coupon_contract fid payload cu clk d :
  str_or (cp_userId payload) cu = cu ->
  let summary := current_summary clk cu fid d in
  (forall coupon d',
      run_request (issue_coupon fid payload cu clk) d = (Ok coupon, d') ->
      exists festival amount_int summary',
        cp_amount payload = Some amount_int
        /\ db_get_festival d fid = Some festival
        /\ amount_int <= total_active summary
        /\ get_budget_usage d fid + amount_int <= budget festival
        /\ coupon = mkCoupon cu fid (str_or (cp_shopName payload) "") amount_int
                             (coupon_code amount_int clk) COUPON_STATUS_ISSUED
        /\ coupons d' = coupons d ++ [coupon]
        /\ find_summary d' cu fid (today clk) = Some summary'
        /\ total_active summary' = total_active summary - amount_int
        /\ total_consumed summary' = total_consumed summary + amount_int
        /\ total_pending summary' = total_pending summary)
  /\ (forall festival amount_int,
      cu <> "" -> is_empty_opt (cp_shopName payload) = false ->
      cp_amount payload = Some amount_int ->
      db_get_festival d fid = Some festival ->
      (total_active summary < amount_int ->
       fst (run_request (issue_coupon fid payload cu clk) d) = Raise InsufficientBalance)
      /\ (amount_int <= total_active summary ->
          budget festival < get_budget_usage d fid + amount_int ->
          fst (run_request (issue_coupon fid payload cu clk) d) = Raise BudgetExhausted)
      /\ (amount_int <= total_active summary ->
          get_budget_usage d fid + amount_int <= budget festival ->
          exists coupon,
            fst (run_request (issue_coupon fid payload cu clk) d) = Ok coupon
            /\ amount coupon = amount_int))
  /\ (forall amount_int clk0,
        coupon_code amount_int clk0
        = ("HDFEST-" ++ str_of_int amount_int ++ "-"
                     ++ last6 (str_of_int (time_ns clk0)))%string)
  /\ (forall amount1 clk1 amount2 clk2,
        coupon_code amount1 clk1 = coupon_code amount2 clk2
        <-> amount1 = amount2
            /\ last6 (str_of_int (time_ns clk1)) = last6 (str_of_int (time_ns clk2))).
Proof.
  intros Hown summary.
  split; [|split; [|split; [exact coupon_code_text|exact coupon_code_same]]].
  - intros coupon d' Hrun. apply issue_coupon_effect in Hrun. cbv zeta in Hrun.
    rewrite Hown in Hrun.
    destruct Hrun as [[[e He] _] | Hok]; [discriminate|].
    destruct Hok as (f & sm & a & Ha & Hf & Hfind & Hle & Hroom & Hr & Hcp & Hsm & _).
    rewrite find_summary_touch in Hfind. injection Hfind as <-.
    injection Hr as ->.
    rewrite (db_get_festival_id _ _ _ Hf) in Hroom.
    exists f, a, (move_active_to_consumed a summary).
    repeat split; auto.
    unfold find_summary. rewrite Hsm.
    apply find_update_first; [reflexivity|].
    apply find_summary_touch.
  - intros festival a Hcu Hshop Ha Hf.
    apply String.eqb_neq in Hcu.
    assert (Hfid : fest_id festival = fid) by now apply db_get_festival_id in Hf.
    assert (Hstart : forall b1 b2,
      (total_active summary <? a) = b1 ->
      (get_budget_usage d fid + a >? budget festival) = b2 ->
      fst (run_request (issue_coupon fid payload cu clk) d)
      = if b1 then Raise InsufficientBalance
        else if b2 then Raise BudgetExhausted
        else Ok (mkCoupon cu fid (str_or (cp_shopName payload) "") a
                          (coupon_code a clk) COUPON_STATUS_ISSUED)).
    { intros b1 b2 H1 H2. subst summary. unfold current_summary in H1.
      unfold issue_coupon. rewrite Hown, String.eqb_refl. cbn [negb]. exec.
      rewrite Hcu, Hshop. cbn [orb]. exec. rewrite Ha, Hf. exec.
      destruct (find_summary d cu fid (today clk)) as [sm|] eqn:E; exec.
      - rewrite E. exec. rewrite H1. destruct b1; exec; [reflexivity|].
        rewrite Hfid, H2. destruct b2; exec; reflexivity.
      - pose proof (find_summary_fresh d cu fid (today clk) E) as E'.
        unfold find_summary in E'. cbn [summaries with_summaries] in E'.
        unfold find_summary. db_simpl. rewrite E'. exec.
        rewrite H1. destruct b1; exec; [reflexivity|].
        unfold get_budget_usage, photo_points_of, coupon_points_of in *. db_simpl.
        rewrite Hfid, H2. destruct b2; exec; reflexivity. }
    repeat split.
    + intros Hlt. apply Z.ltb_lt in Hlt. now rewrite (Hstart _ _ Hlt eq_refl).
    + intros Hle Hroom. apply Z.ltb_ge in Hle. apply Z.ltb_lt in Hroom.
      rewrite <- Z.gtb_ltb in Hroom. now rewrite (Hstart _ _ Hle Hroom).
    + intros Hle Hroom. apply Z.ltb_ge in Hle, Hroom.
      rewrite <- Z.gtb_ltb in Hroom.
      rewrite (Hstart _ _ Hle Hroom). eexists. split; reflexivity.
Qed.

(** ** The jackpot draw *)

Lemma opt_is_refl s : opt_is s (Some s) = true.
Proof. cbn. apply String.eqb_refl. Qed.

Section Draw.

Variable ext : Externals.

(** C4: in a festival with a jackpot pool and at least one entry for the
    current week, a draw by the admin whose random selection returns a
    registered user commits: the pool's current amount is its seed amount,
    the winner's summary of the current day (created when absent) has its
    total_active raised by exactly the amount the pool held before the
    draw, and one JackpotWinner row recording that amount is appended. *)
Theorem draw_jackpot_commits fid clk d pool winner_id others winner :
  filter (pool_of fid) (pools d) = [pool] ->
  week_entries d fid (week_key clk) <> [] ->
  choices ext (map entry_user_id (week_entries d fid (week_key clk)))
              (map entry_count (week_entries d fid (week_key clk)))
    = Some (winner_id :: others) ->
  db_get_user d winner_id = Some winner ->
  (List.length (filter (summary_matches winner_id fid (today clk)) (summaries d)) <= 1)%nat ->
  let before := current_summary clk winner_id fid d in
  exists d' pool' summary',
    run_request (draw_jackpot ext fid (Some (ADMIN_TOKEN ext)) clk) d
    = (Ok (mkDrawResponse (display_name winner) (current_amount pool)), d')
    /\ filter (pool_of fid) (pools d') = [pool']
    /\ current_amount pool' = seed_amount pool'
    /\ seed_amount pool' = seed_amount pool
    /\ last_winner_id pool' = Some winner_id
    /\ last_draw_date pool' = Some (today clk)
    /\ filter (summary_matches winner_id fid (today clk)) (summaries d') = [summary']
    /\ total_active summary' = total_active before + current_amount pool
    /\ total_pending summary' = total_pending before
    /\ total_consumed summary' = total_consumed before
    /\ winners d' = winners d
                    ++ [mkWinner winner_id fid (week_key clk) (current_amount pool)].
Proof.
  intros Hpool Hentries Hpick Hwinner Hone before.
  exists (snd (run_request (draw_jackpot ext fid (Some (ADMIN_TOKEN ext)) clk) d)).
  exists (reset_pool winner_id (today clk) pool).
  exists (add_active (current_amount pool) before).
  subst before. unfold current_summary, find_summary.
  unfold draw_jackpot, require_admin. rewrite opt_is_refl. cbn [negb]. exec.
  rewrite Hpool. exec.
  destruct (week_entries d fid (week_key clk)) as [|en ens] eqn:Hwk;
    [contradiction|]. exec.
  rewrite Hpick. exec. cbn [hd_error]. exec. rewrite Hwinner. exec.
  destruct (filter (summary_matches winner_id fid (today clk)) (summaries d))
    as [|sm [|sm2 rest]] eqn:Hsm; [| |cbn in Hone; lia]; exec; cbn [snd].
  - assert (Hnone : find (summary_matches winner_id fid (today clk)) (summaries d) = None).
    { destruct (find _ (summaries d)) as [x|] eqn:E; [|reflexivity].
      apply find_some in E. destruct E as [Hin Hm].
      assert (Hf : In x (filter (summary_matches winner_id fid (today clk)) (summaries d)))
        by (apply filter_In; auto).
      rewrite Hsm in Hf. destruct Hf. }
    rewrite Hnone.
    repeat split; try reflexivity; db_simpl.
    + rewrite filter_update_first, Hpool by reflexivity. reflexivity.
    + rewrite filter_update_first by reflexivity.
      rewrite filter_app, Hsm. cbn [filter app]. now rewrite summary_matches_new.
  - assert (Hsome : find (summary_matches winner_id fid (today clk)) (summaries d) = Some sm).
    { clear - Hsm. induction (summaries d) as [|x t IH]; cbn in *; [discriminate|].
      destruct (summary_matches winner_id fid (today clk) x); [now injection Hsm as -> _|].
      auto. }
    rewrite Hsome.
    repeat split; try reflexivity; db_simpl.
    + rewrite filter_update_first, Hpool by reflexivity. reflexivity.
    + rewrite filter_update_first, Hsm by reflexivity. reflexivity.
Qed.

End Draw.

(** ** Activation by bin scan *)

Lemma insert_by_perm {A} (le : A -> A -> bool) x l :
  Permutation (insert_by le x l) (x :: l).
Proof.
  induction l as [|y t IH]; cbn; [apply Permutation_refl|].
  destruct (le x y); [apply Permutation_refl|].
  eapply perm_trans; [apply perm_skip, IH | apply perm_swap].
Qed.

Lemma order_by_perm {A} (le : A -> A -> bool) l : Permutation (order_by le l) l.
Proof.
  induction l as [|x t IH]; cbn; [apply perm_nil|].
  eapply perm_trans; [apply insert_by_perm | apply perm_skip, IH].
Qed.

Section OrderBy.

Context {A : Type} (le : A -> A -> bool).
Hypothesis le_total : forall x y, le x y = false -> le y x = true.
Hypothesis le_trans : forall x y z, le x y = true -> le y z = true -> le x z = true.

Lemma insert_by_sorted x l :
  StronglySorted (fun a b => le a b = true) l ->
  StronglySorted (fun a b => le a b = true) (insert_by le x l).
Proof.
  induction l as [|y t IH]; cbn; intros Hs.
  - constructor; constructor.
  - inversion Hs as [|? ? Ht Hy]; subst.
    destruct (le x y) eqn:E.
    + constructor; [exact Hs|]. constructor; [exact E|].
      eapply Forall_impl; [|exact Hy]. intros a Ha. now apply (le_trans x y a).
    + constructor; [now apply IH|].
      eapply Permutation_Forall; [apply Permutation_sym, insert_by_perm|].
      constructor; [now apply le_total | exact Hy].
Qed.

Lemma order_by_sorted l : StronglySorted (fun a b => le a b = true) (order_by le l).
Proof.
  induction l as [|x t IH]; cbn; [constructor | now apply insert_by_sorted].
Qed.

End OrderBy.

Lemma StronglySorted_weaken {A} (R R' : A -> A -> Prop) l :
  (forall x y, R x y -> R' x y) -> StronglySorted R l -> StronglySorted R' l.
Proof.
  intros HR. induction 1 as [|x t Ht IH Hx]; constructor; [exact IH|].
  eapply Forall_impl; [|exact Hx]. intros a. apply HR.
Qed.

Lemma pending_photos_oldest_first d u f cutoff :
  StronglySorted (fun x y => created_at x <= created_at y) (pending_photos_of d u f cutoff).
Proof.
  unfold pending_photos_of.
  eapply StronglySorted_weaken.
  - intros x y H. apply Z.leb_le. exact H.
  - apply (order_by_sorted created_at_asc); unfold created_at_asc.
    + intros x y H. apply Z.leb_gt in H. apply Z.leb_le. lia.
    + intros x y z H1 H2. apply Z.leb_le in H1, H2. apply Z.leb_le. lia.
Qed.

(** The loop activates a prefix: every partial sum of the prefix fits
    under the cap, and the photo after the prefix, if any, does not. *)
Lemma activation_loop_prefix remaining_cap l :
  forall activated ids,
  exists batch rest,
    l = batch ++ rest
    /\ activation_loop remaining_cap activated ids l
       = (activated + sum_Z (map points batch), ids ++ map photo_id batch)
    /\ (forall k, (1 <= k <= List.length batch)%nat ->
          activated + sum_Z (map points (firstn k batch)) <= remaining_cap)
    /\ match rest with
       | [] => True
       | p :: _ => remaining_cap < activated + sum_Z (map points batch) + points p
       end.
Proof.
  induction l as [|p t IH]; intros activated ids; cbn [activation_loop].
  - exists [], []. cbn. rewrite app_nil_r, Z.add_0_r. repeat split; auto.
    intros k Hk. lia.
  - rewrite Z.gtb_ltb. destruct (remaining_cap <? activated + points p) eqn:E.
    + exists [], (p :: t). cbn. rewrite app_nil_r, Z.add_0_r. apply Z.ltb_lt in E.
      repeat split; auto. intros k Hk. lia.
    + apply Z.ltb_ge in E.
      destruct (IH (activated + points p) (ids ++ [photo_id p]))
        as (batch & rest & -> & Hloop & Hfit & Hstop).
      exists (p :: batch), rest. cbn [map sum_Z fold_right app List.length].
      fold (sum_Z (map points batch)).
      rewrite Hloop, <- app_assoc. cbn [app].
      repeat split.
      * f_equal. lia.
      * intros k Hk. destruct k as [|k]; [lia|]. cbn [firstn map sum_Z fold_right].
        fold (sum_Z (map points (firstn k batch))).
        destruct k as [|k]; [cbn; lia|].
        specialize (Hfit (S k)). lia.
      * destruct rest; [exact I | lia].
Qed.

Lemma mem_string_In x l : mem_string x l = true <-> In x l.
Proof.
  unfold mem_string. rewrite existsb_exists. split.
  - intros (y & Hin & E). apply String.eqb_eq in E. now subst.
  - intros H. exists x. split; [exact H | apply String.eqb_refl].
Qed.

Lemma NoDup_map_inj {A B} (f : A -> B) l x y :
  NoDup (map f l) -> In x l -> In y l -> f x = f y -> x = y.
Proof.
  induction l as [|z t IH]; cbn; [tauto|].
  intros Hnd Hx Hy E. inversion Hnd as [|? ? Hz Ht]; subst.
  destruct Hx as [-> | Hx], Hy as [-> | Hy]; auto.
  - exfalso. apply Hz. rewrite E. now apply in_map.
  - exfalso. apply Hz. rewrite <- E. now apply in_map.
Qed.

Section Activation.

Variable ext : Externals.

(** C5: a successful bin scan activates exactly a prefix of the user's
    PENDING photos of the last 30 minutes taken oldest first: every
    partial sum of the prefix fits under the remaining cap, the photo
    right after the prefix (if any) would overflow it and stops the loop,
    so later photos are never reached; total_pending goes down and
    total_active goes up by the points of the prefix, total_consumed
    stays; the photos of the prefix, PENDING before, have status ACTIVE
    after and are otherwise unchanged, and every other photo is left as
    it was. *)
Theorem scan_bin_activates_prefix fid payload cu clk d resp d' :
  NoDup (map photo_id (photos d)) ->
  run_request (scan_bin ext fid payload cu clk) d = (Ok resp, d') ->
  let user_id := str_or (scan_userId payload) cu in
  let cutoff := utcnow clk - minutes PENDING_ACTIVATION_MINUTES in
  let pending_photos := pending_photos_of d user_id fid cutoff in
  let summary := current_summary clk user_id fid d in
  exists festival batch rest,
    db_get_festival d fid = Some festival /\
    let remaining_cap :=
      Z.max 0 (per_user_daily_cap festival
               - (total_active summary + total_consumed summary)) in
    Permutation pending_photos
                (filter (awaiting_activation user_id fid cutoff) (photos d))
    /\ StronglySorted (fun x y => created_at x <= created_at y) pending_photos
    /\ pending_photos = batch ++ rest
    /\ batch <> []
    /\ (forall k, (k <= List.length batch)%nat ->
          sum_Z (map points (firstn k batch)) <= remaining_cap)
    /\ match rest with
       | [] => True
       | p :: _ => remaining_cap < sum_Z (map points batch) + points p
       end
    /\ resp_activated resp = sum_Z (map points batch)
    /\ resp_convertedCount resp = List.length batch
    /\ (exists g,
          photos d' = map g (photos d)
          /\ forall p, In p (photos d) ->
               (In p batch ->
                  status p = PHOTO_STATUS_PENDING
                  /\ status (g p) = PHOTO_STATUS_ACTIVE
                  /\ photo_id (g p) = photo_id p
                  /\ photo_user_id (g p) = photo_user_id p
                  /\ photo_festival_id (g p) = photo_festival_id p
                  /\ hash (g p) = hash p
                  /\ points (g p) = points p
                  /\ created_at (g p) = created_at p)
               /\ (~ In p batch -> g p = p))
    /\ (exists summary',
          find_summary d' user_id fid (today clk) = Some summary'
          /\ total_pending summary' = total_pending summary - sum_Z (map points batch)
          /\ total_active summary' = total_active summary + sum_Z (map points batch)
          /\ total_consumed summary' = total_consumed summary
          /\ sum_user_id summary' = sum_user_id summary
          /\ sum_festival_id summary' = sum_festival_id summary
          /\ sum_date summary' = sum_date summary).
Proof.
  intros Hnd Hrun user_id cutoff pending_photos summary.
  apply scan_bin_effect in Hrun. cbv zeta in Hrun.
  fold user_id cutoff in Hrun. fold pending_photos in Hrun.
  destruct Hrun as [[[e He] _] | Hok]; [discriminate|].
  destruct Hok as (f & sm & b & Hf & Hfind & Hcap & Hpend & Hids & [sm' Hr] & Hph & Hsm & _).
  rewrite find_summary_touch in Hfind. injection Hfind as <-. subst summary.
  set (summary := current_summary clk user_id fid d) in *.
  set (rc := Z.max 0 (per_user_daily_cap f - (total_active summary + total_consumed summary)))
    in *.
  destruct (activation_loop_prefix rc pending_photos 0 [])
    as (batch & rest & Hsplit & Hloop & Hfit & Hstop).
  rewrite Hloop in *. cbn [fst snd app] in *. rewrite Z.add_0_l in *.
  injection Hr as ->. cbn [resp_activated resp_convertedCount].
  assert (Hperm : Permutation pending_photos
                    (filter (awaiting_activation user_id fid cutoff) (photos d)))
    by apply order_by_perm.
  exists f, batch, rest.
  split; [exact Hf|]. cbv zeta. fold rc.
  split; [exact Hperm|].
  split; [apply pending_photos_oldest_first|].
  split; [exact Hsplit|].
  split; [intros ->; now apply Hids|].
  split.
  { intros k Hk. destruct k as [|k]; [cbn; lia|].
    specialize (Hfit (S k)). rewrite Z.add_0_l in Hfit. apply Hfit. lia. }
  split; [destruct rest; [exact I | lia]|].
  split; [reflexivity|].
  split; [now rewrite length_map|].
  split.
  - eexists. split; [exact Hph|].
    intros p Hin. split.
    + intros Hb.
      assert (Hm : mem_string (photo_id p) (map photo_id batch) = true)
        by (apply mem_string_In; now apply in_map).
      rewrite Hm. split; [|cbn; repeat split].
      assert (Hpp : In p pending_photos) by (rewrite Hsplit; apply in_or_app; now left).
      eapply Permutation_in in Hpp; [|exact Hperm].
      apply filter_In in Hpp as [_ Hq]. unfold awaiting_activation in Hq.
      apply andb_prop in Hq as [Hq _]. apply andb_prop in Hq as [_ Hq].
      unfold is_pending in Hq. destruct (status p); [reflexivity|discriminate].
    + intros Hnb.
      destruct (mem_string (photo_id p) (map photo_id batch)) eqn:Hm; [|reflexivity].
      exfalso. apply Hnb.
      apply mem_string_In, in_map_iff in Hm. destruct Hm as (q & Hq & Hqb).
      assert (Hqd : In q (photos d)).
      { assert (Hqp : In q pending_photos) by (rewrite Hsplit; apply in_or_app; now left).
        eapply Permutation_in in Hqp; [|exact Hperm].
        now apply filter_In in Hqp. }
      now rewrite <- (NoDup_map_inj photo_id (photos d) q p Hnd Hqd Hin Hq).
  - eexists. split.
    + unfold find_summary. rewrite Hsm.
      apply find_update_first; [reflexivity|].
      apply find_summary_touch.
    + cbn. repeat split.
Qed.

End Activation.

(** ** Perceptual-hash deduplication *)

Lemma StronglySorted_app_le {A} (R : A -> A -> Prop) l1 l2 :
  StronglySorted R (l1 ++ l2) -> forall x y, In x l1 -> In y l2 -> R x y.
Proof.
  induction l1 as [|a t IH]; cbn; [intros _ x y []|].
  intros Hs x y Hx Hy. inversion Hs as [|? ? Ht Ha]; subst.
  destruct Hx as [<- | Hx]; [|now apply IH].
  rewrite Forall_forall in Ha. apply Ha, in_or_app. now right.
Qed.

Lemma bin_digit_is_hex c : is_bin_digit c = true -> is_hex_digit c = true.
Proof.
  unfold is_bin_digit, is_hex_digit. intros H. apply orb_true_iff in H.
  destruct H as [H | H]; apply Nat.eqb_eq in H; rewrite H; reflexivity.
Qed.

(** A string of binary digits is also a string of hexadecimal digits, so
    [parse_hash] reads it with its first branch. *)
Lemma binary_string_parses_as_hex value :
  value <> "" ->
  forallb is_bin_digit (list_ascii_of_string value) = true ->
  fullmatch_hex value = true.
Proof.
  intros Hne Hbin. unfold fullmatch_hex.
  apply String.eqb_neq in Hne. rewrite Hne. cbn [negb andb].
  rewrite forallb_forall in *. intros c Hc. now apply bin_digit_is_hex, Hbin.
Qed.

Section Dedup.

Variable ext : Externals.

Lemma recent_photos_most_recent d user_id :
  exists older,
    Permutation (recent_photos_of d user_id ++ older)
                (filter (fun p => photo_user_id p == user_id) (photos d))
    /\ (List.length (recent_photos_of d user_id) <= 20)%nat
    /\ (older <> [] -> List.length (recent_photos_of d user_id) = 20%nat)
    /\ (forall p q, In p (recent_photos_of d user_id) -> In q older ->
          created_at q <= created_at p).
Proof.
  unfold recent_photos_of.
  set (l := order_by created_at_desc (filter (fun p => photo_user_id p == user_id) (photos d))).
  exists (skipn 20 l). rewrite firstn_skipn.
  split; [apply order_by_perm|].
  split; [apply firstn_le_length|].
  split.
  - intros Hne. apply firstn_length_le.
    destruct (Nat.le_gt_cases 20 (List.length l)) as [H | H]; [exact H|].
    exfalso. apply Hne. apply skipn_all2. lia.
  - intros p q Hp Hq.
    assert (Hs : StronglySorted (fun a b => created_at_desc a b = true) l).
    { apply order_by_sorted; unfold created_at_desc.
      - intros x y H. apply Z.leb_gt in H. apply Z.leb_le. lia.
      - intros x y z H1 H2. apply Z.leb_le in H1, H2. apply Z.leb_le. lia. }
    rewrite <- (firstn_skipn 20 l) in Hs.
    pose proof (StronglySorted_app_le _ _ _ Hs p q Hp Hq) as H.
    now apply Z.leb_le in H.
Qed.

(** The loop rejects with the duplicate error exactly when the first
    comparison that does not come out above 5 comes out at 5 or below. *)
Lemma dedup_loop_duplicate new_hash new_hash_obj recent :
  dedup_loop ext new_hash new_hash_obj recent = Raise DuplicateImage
  <-> exists before photo after dist,
        recent = before ++ photo :: after
        /\ (forall q, In q before ->
              exists dq, photo_distance ext new_hash new_hash_obj q = Some dq /\ 5 < dq)
        /\ photo_distance ext new_hash new_hash_obj photo = Some dist
        /\ dist <= 5.
Proof.
  induction recent as [|p t IH]; cbn [dedup_loop].
  - split; [discriminate|]. intros (before & photo & after & dist & H & _).
    now destruct before.
  - destruct (photo_distance ext new_hash new_hash_obj p) as [dp|] eqn:Hp.
    + destruct (dp <=? 5) eqn:E.
      * apply Z.leb_le in E. split; [intros _|reflexivity].
        exists [], p, t, dp. cbn. repeat split; auto. intros q [].
      * apply Z.leb_gt in E. rewrite IH. split.
        -- intros (before & photo & after & dist & -> & Hb & Hd & Hle).
           exists (p :: before), photo, after, dist. repeat split; auto.
           intros q [<- | Hq]; [eauto | auto].
        -- intros (before & photo & after & dist & Heq & Hb & Hd & Hle).
           destruct before as [|b before]; cbn in Heq; injection Heq as <- ->.
           ++ rewrite Hp in Hd. injection Hd as <-. lia.
           ++ exists before, photo, after, dist. repeat split; auto.
              intros q Hq. apply Hb. now right.
    + split; [discriminate|].
      intros (before & photo & after & dist & Heq & Hb & Hd & Hle).
      destruct before as [|b before]; cbn in Heq; injection Heq as <- ->.
      * congruence.
      * destruct (Hb p (or_introl eq_refl)) as (dq & Hq & _). congruence.
Qed.

Lemma count_mismatches_zip a b :
  count_mismatches a b
  = Z.of_nat (List.length (filter (fun ch => negb (Ascii.eqb (fst ch) (snd ch)))
                                  (combine a b))).
Proof.
  revert b. induction a as [|x a IH]; intros [|y b]; cbn [count_mismatches combine filter];
    try reflexivity.
  rewrite IH. cbn [fst snd]. destruct (Ascii.eqb x y); cbn [negb List.length]; lia.
Qed.

Lemma combine_same_chars (l : list ascii) :
  filter (fun ch => negb (Ascii.eqb (fst ch) (snd ch))) (combine l l) = [].
Proof.
  induction l as [|x l IH]; [reflexivity|].
  cbn [combine filter fst snd]. now rewrite Ascii.eqb_refl.
Qed.

Lemma hamming_distance_unequal a b :
  String.length a <> String.length b ->
  hamming_distance a b = Z.of_nat (Nat.max (String.length a) (String.length b)).
Proof.
  intros H. unfold hamming_distance.
  apply Nat.eqb_neq in H. now rewrite H.
Qed.

(** C7: the dedup gate compares the new hash with the 20 most recent
    photos of the user, newest first.  A comparison is the structured
    distance when both the stored and the new hash parse into a (truthy)
    structured hash and the character-wise distance otherwise; the
    submission is rejected as a duplicate exactly when the first
    comparison that is not above 5 is at 5 or below, so a list of
    distances of 6 and more passes; in the character-wise comparison two
    strings of unequal length are at the distance of the longer length,
    which for the 16-character hash of a new image is above 5, and two
    strings of equal length are at the number of positions in which their
    characters differ, so that an identical stored string is at distance
    0. *)
Theorem dedup_gate fid form cu clk d festival user :
  str_or (up_userId form) cu = cu ->
  db_get_user d cu = Some user ->
  db_get_festival d fid = Some festival ->
  is_inside_festival ext festival (up_lat form) (up_lng form) = true ->
  Z.of_nat (List.length
    (filter (fun p => (photo_user_id p == cu)
                      && (created_at p >=? utcnow clk - minutes 1)) (photos d))) < 5 ->
  let new_hash := up_image_hash form in
  let new_hash_obj := parse_hash ext new_hash in
  let recent := recent_photos_of d cu in
  let stored photo := if hash photo == "" then None else parse_hash ext (hash photo) in
  (exists older,
      Permutation (recent ++ older) (filter (fun p => photo_user_id p == cu) (photos d))
      /\ (List.length recent <= 20)%nat
      /\ (older <> [] -> List.length recent = 20%nat)
      /\ (forall p q, In p recent -> In q older -> created_at q <= created_at p))
  /\ (forall photo n e,
        new_hash_obj = Some n -> stored photo = Some e ->
        truthy_hash ext (Some n) = true -> truthy_hash ext (Some e) = true ->
        photo_distance ext new_hash new_hash_obj photo = image_hash_sub ext n e)
  /\ (forall photo,
        truthy_hash ext (stored photo) && truthy_hash ext new_hash_obj = false ->
        photo_distance ext new_hash new_hash_obj photo
        = Some (hamming_distance (hash photo) new_hash))
  /\ (fst (run_request (upload_photo ext fid form cu clk) d) = Raise DuplicateImage
      <-> exists before photo after dist,
            recent = before ++ photo :: after
            /\ (forall q, In q before ->
                  exists dq, photo_distance ext new_hash new_hash_obj q = Some dq /\ 5 < dq)
            /\ photo_distance ext new_hash new_hash_obj photo = Some dist
            /\ dist <= 5)
  /\ ((forall q, In q recent ->
         exists dq, photo_distance ext new_hash new_hash_obj q = Some dq /\ 6 <= dq) ->
      fst (run_request (upload_photo ext fid form cu clk) d) <> Raise DuplicateImage)
  /\ (forall photo,
        truthy_hash ext (stored photo) && truthy_hash ext new_hash_obj = false ->
        String.length (hash photo) <> String.length new_hash ->
        String.length new_hash = 16%nat ->
        exists dist,
          photo_distance ext new_hash new_hash_obj photo = Some dist
          /\ dist = Z.of_nat (Nat.max (String.length (hash photo)) (String.length new_hash))
          /\ 5 < dist)
  /\ (forall a b,
        hamming_distance a b
        = if (String.length a =? String.length b)%nat
          then Z.of_nat (List.length
                 (filter (fun ch => negb (Ascii.eqb (fst ch) (snd ch)))
                         (combine (list_ascii_of_string a) (list_ascii_of_string b))))
          else Z.of_nat (Nat.max (String.length a) (String.length b)))
  /\ (forall photo,
        truthy_hash ext (stored photo) && truthy_hash ext new_hash_obj = false ->
        hash photo = new_hash ->
        photo_distance ext new_hash new_hash_obj photo = Some 0).
Proof.
  intros Hown Huser Hfest Hin Hrate new_hash new_hash_obj recent stored.
  assert (Hgate : fst (run_request (upload_photo ext fid form cu clk) d) = Raise DuplicateImage
                  <-> dedup_loop ext new_hash new_hash_obj recent = Raise DuplicateImage).
  { subst recent new_hash_obj new_hash.
    unfold upload_photo. rewrite Hown, String.eqb_refl. cbn [negb]. exec.
    rewrite Huser, Hfest. exec. rewrite Hin. cbn [negb]. exec.
    apply Z.leb_gt in Hrate. rewrite Z.geb_leb, Hrate. exec.
    destruct (dedup_loop ext (up_image_hash form) (parse_hash ext (up_image_hash form))
                         (recent_photos_of d cu)) as [[]|e] eqn:Hloop.
    - split; [|discriminate]. run. all: cbn [fst]; discriminate.
    - exec. cbn [fst]. split; intros [= ->]; reflexivity. }
  assert (Hfall : forall photo,
            truthy_hash ext (stored photo) && truthy_hash ext new_hash_obj = false ->
            photo_distance ext new_hash new_hash_obj photo
            = Some (hamming_distance (hash photo) new_hash)).
  { intros photo H. unfold photo_distance. fold (stored photo). now rewrite H. }
  split; [apply recent_photos_most_recent|].
  split.
  { intros photo n e Hn He Tn Te. unfold photo_distance. fold (stored photo).
    rewrite Hn, He, Te, Tn. reflexivity. }
  split; [exact Hfall|].
  split; [rewrite Hgate; apply dedup_loop_duplicate|].
  split.
  { intros Hall Hdup. apply Hgate, dedup_loop_duplicate in Hdup.
    destruct Hdup as (before & photo & after & dist & Heq & _ & Hd & Hle).
    destruct (Hall photo) as (dq & Hq & Hge).
    - rewrite Heq. apply in_or_app. right. now left.
    - rewrite Hq in Hd. injection Hd as <-. lia. }
  split.
  { intros photo Hfb Hlen H16.
    eexists. split; [apply Hfall, Hfb|].
    rewrite (hamming_distance_unequal _ _ Hlen). split; [reflexivity|].
    rewrite H16. lia. }
  assert (Hchars : forall a b,
            hamming_distance a b
            = if (String.length a =? String.length b)%nat
              then Z.of_nat (List.length
                     (filter (fun ch => negb (Ascii.eqb (fst ch) (snd ch)))
                             (combine (list_ascii_of_string a) (list_ascii_of_string b))))
              else Z.of_nat (Nat.max (String.length a) (String.length b))).
  { intros a b. unfold hamming_distance.
    destruct (String.length a =? String.length b)%nat; cbn [negb]; [|reflexivity].
    apply count_mismatches_zip. }
  split; [exact Hchars|].
  intros photo Hfb Hsame. rewrite (Hfall photo Hfb), Hsame, Hchars, Nat.eqb_refl.
  now rewrite combine_same_chars.
Qed.

End Dedup.

(** ** The first reference to a jackpot pool *)

(** C9 (the code at the failing input): nothing primes the pool of a
    festival.  While the festival has no pool row, [get_jackpot] reports
    an amount of 0 and creates none, however often it is asked; the first
    accepted photo creates the row from the column defaults and adds its
    contribution, and [get_jackpot] then reports that amount.  No seed,
    target or start percent is read on either path. *)
Theorem first_pool_reference_unprimed ext fid d :
  filter (pool_of fid) (pools d) = [] ->
  run_request (get_jackpot fid) d = (Ok (mkJackpotStatus 0 None None), d)
  /\ (forall form cu clk resp d',
        run_request (upload_photo ext fid form cu clk) d = (Ok resp, d') ->
        exists festival contribution pool',
          db_get_festival d fid = Some festival
          /\ jackpot_contribution (per_photo_point festival)
                                  (pool_default_contribution_rate ext) = Some contribution
          /\ filter (pool_of fid) (pools d') = [pool']
          /\ current_amount pool' = pool_default_current_amount ext + contribution
          /\ seed_amount pool' = pool_default_seed_amount ext
          /\ contribution_rate pool' = pool_default_contribution_rate ext
          /\ run_request (get_jackpot fid) d'
             = (Ok (mkJackpotStatus (pool_default_current_amount ext + contribution)
                                    None (Some None)), d')).
Proof.
  intros Hnone. split.
  - unfold get_jackpot. exec. rewrite Hnone. exec. reflexivity.
  - intros form cu clk resp d' Hrun.
    apply upload_photo_effect in Hrun. cbv zeta in Hrun.
    destruct Hrun as [[[e He] _] | Hok]; [discriminate|].
    destruct Hok as (f & sm & pool & pools0 & c & Hf & _ & _ & _ & _ & _ & _ & _ & _
                     & _ & _ & _ & _ & Hpool & Hc & Hpools & _).
    destruct Hpool as [[H _] | (_ & -> & ->)]; [rewrite Hnone in H; discriminate|].
    assert (Hone : filter (pool_of fid) (pools d')
                   = [add_current_amount c (new_pool ext fid)]).
    { rewrite Hpools, filter_update_first by reflexivity.
      rewrite filter_app, Hnone. cbn [filter app]. now rewrite pool_of_new. }
    exists f, c, (add_current_amount c (new_pool ext fid)).
    split; [exact Hf|]. split; [exact Hc|]. split; [exact Hone|].
    split; [reflexivity|]. split; [reflexivity|]. split; [reflexivity|].
    unfold get_jackpot. exec. rewrite Hone. exec. reflexivity.
Qed.

(** ** Runs of the sample deployment *)

Lemma sample_festival_lookup cap pp rate fid f :
  db_get_festival (sample_db cap pp rate) fid = Some f ->
  fid = "fest-1" /\ f = sample_festival cap pp.
Proof.
  unfold db_get_festival; cbn [festivals sample_db find].
  destruct (fest_id (sample_festival cap pp) == fid) eqn:E; [|discriminate].
  apply String.eqb_eq in E. intros [= <-]. now split.
Qed.

Lemma sample_budget_respected cap pp rate : budget_respected (sample_db cap pp rate).
Proof.
  intros fid f H. apply sample_festival_lookup in H as [-> ->].
  vm_compute. discriminate.
Qed.

Lemma sample_cap_respected cap pp rate : cap_respected (sample_db cap pp rate).
Proof. intros s f []. Qed.

Lemma sample_whole_rewards cap pp rate : whole_rewards (sample_db cap pp rate).
Proof. intros s f []. Qed.

Lemma sample_cap_configured rate : cap_configured (sample_db 500000 1000 rate).
Proof.
  intros fid f H. apply sample_festival_lookup in H as [-> ->].
  cbn. repeat split; try lia. exists 500. reflexivity.
Qed.

Example sample_ops_run :
  summaries (run_ops sample_ext sample_ops (sample_db 500000 1000 half))
  = [mkSummary "user-a" "fest-1" "2026-11-03" 0 500 1500].
Proof. vm_compute. reflexivity. Qed.

Lemma budget_invariant_witness :
  budget_respected (sample_db 500000 1000 half)
  /\ budget_respected (run_ops sample_ext sample_ops (sample_db 500000 1000 half)).
Proof.
  split; [apply sample_budget_respected|].
  apply (budget_invariant sample_ext sample_ops (sample_db 500000 1000 half)).
  apply sample_budget_respected.
Defined.

Lemma cap_invariant_without_draw_witness :
  cap_respected (run_ops sample_ext sample_ops (sample_db 500000 1000 half)).
Proof.
  apply (cap_invariant_without_draw sample_ext sample_ops (sample_db 500000 1000 half)).
  - reflexivity.
  - apply sample_cap_configured.
  - apply sample_cap_respected.
  - apply sample_whole_rewards.
Defined.

Lemma cap_violated d s festival :
  In s (summaries d) ->
  db_get_festival d (sum_festival_id s) = Some festival ->
  per_user_daily_cap festival < today_total s ->
  ~ cap_respected d.
Proof.
  intros Hin Hget Hlt H. specialize (H s festival Hin Hget). lia.
Qed.

(** C1 (as stated, refuted): in a fresh ledger with a daily cap of 1,000
    and 1,000 points per photo, alice's photo fills her cap and feeds the
    pool, and the draw that follows credits the pool to her: her summary
    ends at 1,000 pending plus 1,000 active points.  With a cap of 10,000
    and a pool of 50,000, one draw takes bob's summary from nothing to
    50,000 active points.  Without any draw, a cap of 1,500 that 1,000
    points per photo do not divide is overshot by the second photo. *)
Lemma cap_exceeded_by_draw :
  cap_respected (fresh_db 1000 1000)
  /\ ~ cap_respected
         (run_ops sample_ext
            [SubmitPhoto "fest-1" (sample_form "photo-1" "ffff0000ffff0000") "user-a"
                         sample_clock;
             DrawJackpot "fest-1" (Some "test-admin-token") sample_clock]
            (fresh_db 1000 1000))
  /\ cap_respected (sample_db 10000 1000 half)
  /\ ~ cap_respected
         (run_ops sample_ext [DrawJackpot "fest-1" (Some "test-admin-token") sample_clock]
                  (sample_db 10000 1000 half))
  /\ cap_respected (fresh_db 1500 1000)
  /\ ~ cap_respected (run_ops sample_ext (firstn 2 sample_ops) (fresh_db 1500 1000)).
Proof.
  split; [intros s f []|].
  split.
  { apply (cap_violated _ (mkSummary "user-a" "fest-1" "2026-11-03" 1000 1000 0)
                        (sample_festival 1000 1000));
      [left | | ]; vm_compute; reflexivity. }
  split; [apply sample_cap_respected|].
  split.
  { apply (cap_violated _ (mkSummary "user-b" "fest-1" "2026-11-03" 0 50000 0)
                        (sample_festival 10000 1000));
      [left | | ]; vm_compute; reflexivity. }
  split; [intros s f []|].
  apply (cap_violated _ (mkSummary "user-a" "fest-1" "2026-11-03" 2000 0 0)
                      (sample_festival 1500 1000));
    [left | | ]; vm_compute; reflexivity.
Qed.

(** The cap gate of [upload_photo] looks at the total before the credit:
    with a cap of 1,500 and 1,000 points per photo the second photo is
    accepted at a total of 1,000 and takes it to 2,000. *)
Example cap_gate_checks_before_credit :
  summaries (run_ops sample_ext (firstn 2 sample_ops) (fresh_db 1500 1000))
  = [mkSummary "user-a" "fest-1" "2026-11-03" 2000 0 0].
Proof. vm_compute. reflexivity. Qed.

Lemma upload_gate_failure_witness :
  photos (snd bob_upload) = photos spent_db
  /\ pools (snd bob_upload) = pools spent_db
  /\ entries (snd bob_upload) = entries spent_db
  /\ (forall u f day,
        daily_balances (snd bob_upload) u f day = daily_balances spent_db u f day)
  /\ snd bob_upload = touch_summary sample_clock "user-b" "fest-1" spent_db.
Proof.
  apply (upload_gate_failure sample_ext "fest-1" (sample_form "photo-2" "0123456789abcdef")
           "user-b" sample_clock spent_db BudgetExhausted (snd bob_upload)).
  - vm_compute. reflexivity.
  - reflexivity.
Defined.

(** C6 (as stated, refuted): bob's upload fails at the budget gate, and
    yet the committed database has one more row than before, the
    zero-balance summary that [ensure_summary] committed for bob. *)
Lemma failed_upload_commits_summary_row :
  fst bob_upload = Raise BudgetExhausted
  /\ find_summary spent_db "user-b" "fest-1" "2026-11-03" = None
  /\ find_summary (snd bob_upload) "user-b" "fest-1" "2026-11-03"
     = Some (new_summary "user-b" "fest-1" "2026-11-03")
  /\ summaries (snd bob_upload) <> summaries spent_db.
Proof.
  repeat split; try (vm_compute; reflexivity).
  vm_compute. discriminate.
Qed.

Lemma jackpot_contribution_added_witness :
  exists pool',
    filter (pool_of "fest-1") (pools (snd (alice_upload 1000 half))) = [pool']
    /\ current_amount pool' = 50000 + 500
    /\ seed_amount pool' = 10000.
Proof.
  destruct (jackpot_contribution_added sample_ext "fest-1"
              (sample_form "photo-1" "ffff0000ffff0000") "user-a" sample_clock
              (sample_db 500000 1000 half)
              (mkPhoto "photo-1" "user-a" "fest-1" "ffff0000ffff0000"
                       PHOTO_STATUS_PENDING 1000 (utcnow sample_clock),
               Some (mkSummary "user-a" "fest-1" "2026-11-03" 1000 0 0))
              (snd (alice_upload 1000 half)))
    as (festival & pool & product & contribution & pool' & Hf & _ & Hpool & Hmul & Hint
        & Hpools & Hamount & _ & Hseed & _).
  { vm_compute. reflexivity. }
  assert (Hfest : festival = sample_festival 500000 1000)
    by (vm_compute in Hf; now injection Hf as <-).
  assert (Hwas : pool = mkPool "fest-1" 50000 10000 half None None).
  { destruct Hpool as [H | [H _]]; vm_compute in H; [now injection H as <-|discriminate]. }
  subst festival pool.
  vm_compute in Hmul. injection Hmul as <-.
  vm_compute in Hint. injection Hint as <-.
  exists pool'. split; [exact Hpools|]. split; [exact Hamount|exact Hseed].
Defined.

Example sample_contribution :
  map current_amount (pools (snd (alice_upload 1000 half))) = [50500].
Proof. vm_compute. reflexivity. Qed.

(** C8 (as stated, refuted): a festival created with a per-photo reward
    of -3 and a rate of 0.5, or a reward of 3 and a rate of -0.5, has its
    submissions accepted; the product is -1.5, [int] truncates it to -1,
    and the pool goes from 50,000 to 49,999: the amount added is negative
    and is not the floor, -2. *)
Lemma negative_contribution_truncated :
  (exists resp, fst (alice_upload (-3) half) = Ok resp)
  /\ map current_amount (pools (snd (alice_upload (-3) half))) = [49999]
  /\ option_map PyFloat.floor (PyFloat.int_mul (-3) half) = Some (Some (-2))
  /\ (exists resp, fst (alice_upload 3 (SFopp half)) = Ok resp)
  /\ map current_amount (pools (snd (alice_upload 3 (SFopp half)))) = [49999]
  /\ option_map PyFloat.floor (PyFloat.int_mul 3 (SFopp half)) = Some (Some (-2))
  /\ map current_amount (pools (sample_db 500000 3 (SFopp half))) = [50000].
Proof.
  repeat split; try (vm_compute; reflexivity); eexists; vm_compute; reflexivity.
Qed.

Lemma geofence_default_radius_witness :
  is_inside_festival sample_ext (fenced_festival None)
                     (Some (PyFloat.of_int 37)) (Some (PyFloat.of_int 127))
  = PyFloat.le_int (haversine_distance sample_ext (PyFloat.of_int 37) (PyFloat.of_int 127)
                                       (PyFloat.of_int 37) (PyFloat.of_int 127)) 1500
  /\ is_inside_festival sample_ext (sample_festival 500000 1000) None None = true.
Proof.
  destruct (geofence_default_radius sample_ext) as (Hdefault & Hopen & _).
  split.
  - apply (Hdefault (fenced_festival None)); [reflexivity | reflexivity | left; reflexivity].
  - apply Hopen. left. reflexivity.
Defined.

(** One degree of latitude away is outside the default radius, the
    center itself is inside, and a missing position is rejected. *)
Example fenced_festival_gate :
  is_inside_festival sample_ext (fenced_festival (Some 0))
                     (Some (PyFloat.of_int 38)) (Some (PyFloat.of_int 127)) = false
  /\ is_inside_festival sample_ext (fenced_festival (Some 0))
                        (Some (PyFloat.of_int 37)) (Some (PyFloat.of_int 127)) = true
  /\ is_inside_festival sample_ext (fenced_festival None) None None = false.
Proof. vm_compute. repeat split. Qed.

Lemma issue_coupon_contract_witness :
  exists coupon,
    fst (run_request (issue_coupon "fest-1" (coupon_request 1500) "user-a" sample_clock)
                     active_db) = Ok coupon
    /\ amount coupon = 1500.
Proof.
  destruct (issue_coupon_contract "fest-1" (coupon_request 1500) "user-a" sample_clock
              active_db eq_refl) as (_ & Hfwd & _).
  destruct (Hfwd (sample_festival 500000 1000) 1500) as (_ & _ & Hok);
    try reflexivity; [discriminate|].
  apply Hok; vm_compute; discriminate.
Defined.

(** C3 (as stated, refuted): alice, with no active points at all, is
    issued a coupon for -5 points, which leaves her with 5 active and -5
    consumed points, and a coupon for 0 points; and the code is not
    unique: two coupons of 500 points issued to her one millisecond apart
    are both persisted with the code HDFEST-500-456789. *)
Lemma coupon_issued_for_nonpositive_amount :
  fst (run_request (issue_coupon "fest-1" (coupon_request (-5)) "user-a" sample_clock)
                   (sample_db 500000 1000 half))
  = Ok (mkCoupon "user-a" "fest-1" "cafe" (-5) "HDFEST--5-456789" COUPON_STATUS_ISSUED)
  /\ summaries
       (snd (run_request (issue_coupon "fest-1" (coupon_request (-5)) "user-a" sample_clock)
                         (sample_db 500000 1000 half)))
     = [mkSummary "user-a" "fest-1" "2026-11-03" 0 5 (-5)]
  /\ fst (run_request (issue_coupon "fest-1" (coupon_request 0) "user-a" sample_clock)
                      (sample_db 500000 1000 half))
     = Ok (mkCoupon "user-a" "fest-1" "cafe" 0 "HDFEST-0-456789" COUPON_STATUS_ISSUED)
  /\ time_ns a_millisecond_later = time_ns sample_clock + 1000000
  /\ coupons
       (run_ops sample_ext
          [IssueCoupon "fest-1" (coupon_request 500) "user-a" sample_clock;
           IssueCoupon "fest-1" (coupon_request 500) "user-a" a_millisecond_later]
          active_db)
     = [mkCoupon "user-a" "fest-1" "cafe" 500 "HDFEST-500-456789" COUPON_STATUS_ISSUED;
        mkCoupon "user-a" "fest-1" "cafe" 500 "HDFEST-500-456789" COUPON_STATUS_ISSUED].
Proof. vm_compute. repeat split. Qed.

Lemma draw_jackpot_commits_witness :
  exists d' pool' summary',
    run_request (draw_jackpot sample_ext "fest-1" (Some "test-admin-token") sample_clock)
                (sample_db 500000 1000 half)
    = (Ok (mkDrawResponse "bob" 50000), d')
    /\ filter (pool_of "fest-1") (pools d') = [pool']
    /\ current_amount pool' = seed_amount pool'
    /\ seed_amount pool' = 10000
    /\ last_winner_id pool' = Some "user-b"
    /\ last_draw_date pool' = Some "2026-11-03"
    /\ filter (summary_matches "user-b" "fest-1" "2026-11-03") (summaries d') = [summary']
    /\ total_active summary' = 0 + 50000
    /\ total_pending summary' = 0
    /\ total_consumed summary' = 0
    /\ winners d' = [] ++ [mkWinner "user-b" "fest-1" "2026-W45" 50000].
Proof.
  apply (draw_jackpot_commits sample_ext "fest-1" sample_clock (sample_db 500000 1000 half)
           (mkPool "fest-1" 50000 10000 half None None) "user-b" [] (mkUser "user-b" "bob")).
  - reflexivity.
  - discriminate.
  - reflexivity.
  - reflexivity.
  - cbn. lia.
Defined.

(** The draw of the jackpot test: bob wins 50,000 and the pool is back at
    its seed amount of 10,000. *)
Example sample_draw :
  let d' := snd (run_request (draw_jackpot sample_ext "fest-1" (Some "test-admin-token")
                                           sample_clock) (sample_db 500000 1000 half)) in
  pools d' = [mkPool "fest-1" 10000 10000 half (Some "user-b") (Some "2026-11-03")]
  /\ summaries d' = [mkSummary "user-b" "fest-1" "2026-11-03" 0 50000 0].
Proof. vm_compute. split; reflexivity. Qed.

Lemma first_pool_reference_unprimed_witness :
  run_request (get_jackpot "fest-1") (fresh_db 500000 1000)
  = (Ok (mkJackpotStatus 0 None None), fresh_db 500000 1000)
  /\ exists pool',
       filter (pool_of "fest-1")
              (pools (snd (run_request
                             (upload_photo seeded_ext "fest-1"
                                (sample_form "photo-1" "ffff0000ffff0000") "user-a"
                                sample_clock)
                             (fresh_db 500000 1000)))) = [pool']
       /\ current_amount pool' = 10000 + 1000
       /\ seed_amount pool' = 10000.
Proof.
  destruct (first_pool_reference_unprimed seeded_ext "fest-1" (fresh_db 500000 1000)
              eq_refl) as [Hget Hupload].
  split; [exact Hget|].
  destruct (Hupload (sample_form "photo-1" "ffff0000ffff0000") "user-a" sample_clock
              (mkPhoto "photo-1" "user-a" "fest-1" "ffff0000ffff0000"
                       PHOTO_STATUS_PENDING 1000 (utcnow sample_clock),
               Some (mkSummary "user-a" "fest-1" "2026-11-03" 1000 0 0))
              (snd (run_request
                      (upload_photo seeded_ext "fest-1"
                         (sample_form "photo-1" "ffff0000ffff0000") "user-a" sample_clock)
                      (fresh_db 500000 1000))))
    as (festival & contribution & pool' & Hf & Hc & Hpools & Hamount & Hseed & _).
  { vm_compute. reflexivity. }
  vm_compute in Hf. injection Hf as <-.
  vm_compute in Hc. injection Hc as <-.
  exists pool'. split; [exact Hpools|]. split; [exact Hamount|exact Hseed].
Defined.

Lemma scan_bin_activates_prefix_witness :
  exists batch rest,
    pending_photos_of mixed_db "user-a" "fest-1"
                      (utcnow sample_clock - minutes PENDING_ACTIVATION_MINUTES)
    = batch ++ rest
    /\ batch <> []
    /\ sum_Z (map points batch) = 300.
Proof.
  destruct (scan_bin_activates_prefix sample_ext "fest-1" sample_scan "user-a" sample_clock
              mixed_db
              (mkScanResponse 300 1 (Some (mkSummary "user-a" "fest-1" "2026-11-03" 1100 300 0)))
              (snd (run_request (scan_bin sample_ext "fest-1" sample_scan "user-a"
                                          sample_clock) mixed_db)))
    as (festival & batch & rest & _ & _ & _ & Hsplit & Hne & _ & _ & Hsum & _).
  - cbn. repeat constructor; cbn; intuition discriminate.
  - vm_compute. reflexivity.
  - exists batch, rest. cbn [resp_activated] in Hsum. auto.
Defined.

(** Partial activation: under a remaining cap of 500 the scan activates
    the oldest photo (300 points), stops at the next one (900 points) and
    never reaches the newest one (100 points), which would have fitted;
    the photo outside the 30-minute window is not a candidate. *)
Example partial_activation :
  let out := run_request (scan_bin sample_ext "fest-1" sample_scan "user-a" sample_clock)
                         mixed_db in
  map photo_id (pending_photos_of mixed_db "user-a" "fest-1"
                  (utcnow sample_clock - minutes PENDING_ACTIVATION_MINUTES))
  = ["p1"; "p2"; "p3"]
  /\ map (fun p => (photo_id p, status p)) (photos (snd out))
     = [("p3", PHOTO_STATUS_PENDING); ("p1", PHOTO_STATUS_ACTIVE);
        ("p0", PHOTO_STATUS_PENDING); ("p2", PHOTO_STATUS_PENDING)]
  /\ summaries (snd out) = [mkSummary "user-a" "fest-1" "2026-11-03" 1100 300 0].
Proof. vm_compute. repeat split. Qed.

Lemma dedup_gate_witness :
  fst (run_request (upload_photo sample_ext "fest-1"
                      (sample_form "photo-2" "ffff0000ffff0001") "user-a" sample_clock)
                   one_photo_db)
  = Raise DuplicateImage.
Proof.
  destruct (dedup_gate sample_ext "fest-1" (sample_form "photo-2" "ffff0000ffff0001")
              "user-a" sample_clock one_photo_db (sample_festival 500000 1000)
              (mkUser "user-a" "alice"))
    as (_ & _ & _ & Hdup & _);
    [reflexivity | reflexivity | reflexivity | reflexivity | vm_compute; reflexivity |].
  apply Hdup.
  exists [], (mkPhoto "photo-1" "user-a" "fest-1" "ffff0000ffff0000" PHOTO_STATUS_PENDING
                      1000 (utcnow sample_clock)), [], 1.
  split; [reflexivity|].
  split; [intros q []|].
  split; [reflexivity | lia].
Defined.

(** Five differing bits are a duplicate, six are not; a stored hash that
    does not parse is compared character by character. *)
Example dedup_threshold :
  fst (run_request (upload_photo sample_ext "fest-1"
                      (sample_form "photo-2" "ffff0000ffff001f") "user-a" sample_clock)
                   one_photo_db) = Raise DuplicateImage
  /\ (exists resp,
        fst (run_request (upload_photo sample_ext "fest-1"
                            (sample_form "photo-2" "ffff0000ffff003f") "user-a" sample_clock)
                         one_photo_db) = Ok resp)
  /\ photo_distance sample_ext "ffff0000ffff0000" (parse_hash sample_ext "ffff0000ffff0000")
                    (mkPhoto "legacy" "user-a" "fest-1" "not-a-hash" PHOTO_STATUS_PENDING
                             1000 0) = Some 16
  /\ hamming_distance "ffff0000ffff0001" "ffff0000ffff0000" = 1.
Proof.
  split; [vm_compute; reflexivity|].
  split; [eexists; vm_compute; reflexivity|].
  split; vm_compute; reflexivity.
Qed.

(** * Further properties of the handlers *)

(** ** The character-wise distance *)

Lemma length_list_ascii s : List.length (list_ascii_of_string s) = String.length s.
Proof. induction s as [|c t IH]; cbn; [reflexivity | now rewrite IH]. Qed.

Lemma list_ascii_inj a b : list_ascii_of_string a = list_ascii_of_string b -> a = b.
Proof.
  intros H. rewrite <- (string_of_list_ascii_of_string a),
                    <- (string_of_list_ascii_of_string b). now rewrite H.
Qed.

Lemma count_mismatches_sym a b : count_mismatches a b = count_mismatches b a.
Proof.
  revert b. induction a as [|x a IH]; intros [|y b]; cbn; try reflexivity.
  rewrite IH, (Ascii.eqb_sym x y). reflexivity.
Qed.

Lemma count_mismatches_bounds a b :
  0 <= count_mismatches a b <= Z.of_nat (List.length a).
Proof.
  revert b. induction a as [|x a IH]; intros [|y b]; cbn [count_mismatches List.length];
    try lia.
  specialize (IH b). destruct (Ascii.eqb x y); lia.
Qed.

Lemma count_mismatches_zero a b :
  List.length a = List.length b -> (count_mismatches a b = 0 <-> a = b).
Proof.
  revert b. induction a as [|x a IH]; intros [|y b]; cbn [count_mismatches List.length];
    intros Hlen; try discriminate; [tauto|].
  injection Hlen as Hlen. specialize (IH b Hlen).
  pose proof (count_mismatches_bounds a b) as Hb.
  destruct (Ascii.eqb x y) eqn:E.
  - apply Ascii.eqb_eq in E. subst y. rewrite Z.add_0_l, IH.
    split; [now intros -> | now intros [= ->]].
  - apply Ascii.eqb_neq in E. split; [lia | intros [= -> _]; contradiction].
Qed.

(** X1: [hamming_distance] is symmetric, lies between 0 and the longer
    length, and is 0 exactly for equal strings. *)
Theorem hamming_distance_metric a b :
  hamming_distance a b = hamming_distance b a
  /\ 0 <= hamming_distance a b <= Z.of_nat (Nat.max (String.length a) (String.length b))
  /\ (hamming_distance a b = 0 <-> a = b).
Proof.
  unfold hamming_distance.
  rewrite (Nat.eqb_sym (String.length b)), (Nat.max_comm (String.length b)).
  destruct (String.length a =? String.length b)%nat eqn:E; cbn [negb].
  - apply Nat.eqb_eq in E.
    pose proof (count_mismatches_bounds (list_ascii_of_string a) (list_ascii_of_string b)) as Hb.
    rewrite length_list_ascii in Hb.
    split; [apply count_mismatches_sym|]. split; [lia|].
    rewrite count_mismatches_zero by now rewrite !length_list_ascii.
    split; [apply list_ascii_inj | now intros ->].
  - apply Nat.eqb_neq in E. split; [reflexivity|]. split; [lia|].
    split; [lia | intros ->; contradiction].
Qed.

(** ** Stored hash formats *)

(** X2: [parse_hash] only ever reads a value as hexadecimal: a string of
    64 binary digits already matches the hexadecimal pattern, so the
    branch that converts binary strings is never taken and every other
    value is unparseable. *)
Theorem parse_hash_reads_hex_only ext value :
  parse_hash ext value = if fullmatch_hex value then hex_to_hash ext value else None.
Proof.
  unfold parse_hash.
  destruct (value == "") eqn:Hempty.
  - unfold fullmatch_hex. now rewrite Hempty.
  - destruct (fullmatch_hex value) eqn:Hhex; [reflexivity|].
    destruct ((String.length value =? 64)%nat
              && forallb is_bin_digit (list_ascii_of_string value)) eqn:Hbin;
      [|reflexivity].
    apply andb_true_iff in Hbin. destruct Hbin as [_ Hbin].
    apply String.eqb_neq in Hempty.
    rewrite (binary_string_parses_as_hex value Hempty Hbin) in Hhex. discriminate.
Qed.

(** ** Get-or-create of the daily summary *)

Lemma filter_none_find_none {A} (p : A -> bool) l :
  find p l = None -> filter p l = [].
Proof.
  induction l as [|x t IH]; cbn; [reflexivity|].
  destruct (p x); [discriminate | exact IH].
Qed.

Lemma find_some_filter_length {A} (p : A -> bool) l x :
  find p l = Some x -> (1 <= List.length (filter p l))%nat.
Proof.
  induction l as [|y t IH]; cbn; [discriminate|].
  destruct (p y); cbn; [lia | exact IH].
Qed.

(** X3: [ensure_summary] is a get-or-create: it returns the row of the
    key, which afterwards is the one the lookup finds; an existing row
    leaves the session untouched, a missing one is appended at zero
    balances and committed; a second call changes nothing and returns
    the same row, and the number of rows of the key only goes from 0 to
    1. *)
Theorem ensure_summary_get_or_create clk u f tx :
  exists s tx1,
    ensure_summary clk u f tx = (Ok s, tx1)
    /\ find_summary (session tx1) u f (today clk) = Some s
    /\ ensure_summary clk u f tx1 = (Ok s, tx1)
    /\ (forall s0, find_summary (session tx) u f (today clk) = Some s0 ->
          s = s0 /\ tx1 = tx)
    /\ (find_summary (session tx) u f (today clk) = None ->
          s = new_summary u f (today clk)
          /\ summaries (session tx1) = summaries (session tx) ++ [s]
          /\ committed tx1 = session tx1)
    /\ List.length (filter (summary_matches u f (today clk)) (summaries (session tx1)))
       = Nat.max 1 (List.length (filter (summary_matches u f (today clk))
                                        (summaries (session tx)))).
Proof.
  destruct tx as [c d]. unfold ensure_summary. exec.
  destruct (find_summary d u f (today clk)) as [s0|] eqn:E; exec.
  - exists s0, (mkTx c d). exec. rewrite E. exec.
    split; [reflexivity|]. split; [reflexivity|]. split; [reflexivity|].
    split; [intros s1 [= <-]; split; reflexivity|].
    split; [discriminate|].
    unfold find_summary in E. apply find_some_filter_length in E. lia.
  - pose proof (find_summary_fresh d u f (today clk) E) as E'.
    eexists. eexists. split; [reflexivity|]. exec.
    split; [exact E'|]. rewrite E'. exec.
    split; [reflexivity|]. split; [discriminate|].
    split; [intros _; repeat split; reflexivity|].
    unfold find_summary in E. rewrite filter_app, (filter_none_find_none _ _ E).
    cbn [filter app]. now rewrite summary_matches_new.
Qed.

(** ** Failed requests *)

Lemma touch_summary_tables clk u f d :
  festivals (touch_summary clk u f d) = festivals d
  /\ users (touch_summary clk u f d) = users d
  /\ photos (touch_summary clk u f d) = photos d
  /\ coupons (touch_summary clk u f d) = coupons d
  /\ bins (touch_summary clk u f d) = bins d
  /\ scans (touch_summary clk u f d) = scans d
  /\ pools (touch_summary clk u f d) = pools d
  /\ entries (touch_summary clk u f d) = entries d
  /\ winners (touch_summary clk u f d) = winners d.
Proof.
  unfold touch_summary.
  destruct (find_summary d u f (today clk)); cbn; repeat split; reflexivity.
Qed.

Lemma ledger_untouched_refl d : ledger_untouched d d.
Proof. unfold ledger_untouched. repeat split; reflexivity. Qed.

Lemma ledger_untouched_touch clk u f d : ledger_untouched d (touch_summary clk u f d).
Proof.
  destruct (touch_summary_tables clk u f d) as (H1 & H2 & H3 & H4 & H5 & H6 & H7 & H8 & H9).
  unfold ledger_untouched. repeat split; auto using daily_balances_touch.
Qed.

(** X4: a failed bin scan or coupon request changes no photo, coupon,
    scan, pool, entry or winner row and no balance that any summary key
    reports (at most the zero-balance row of the user's day is added); a
    failed draw leaves the database exactly as it was. *)
Theorem failed_requests_leave_ledger ext :
  (forall fid payload cu clk d e d',
      run_request (scan_bin ext fid payload cu clk) d = (Raise e, d') ->
      ledger_untouched d d')
  /\ (forall fid payload cu clk d e d',
      run_request (issue_coupon fid payload cu clk) d = (Raise e, d') ->
      ledger_untouched d d')
  /\ (forall fid token clk d e d',
      run_request (draw_jackpot ext fid token clk) d = (Raise e, d') ->
      d' = d).
Proof.
  repeat apply conj.
  - intros fid payload cu clk d e d' Hrun. apply scan_bin_effect in Hrun.
    cbv zeta in Hrun. destruct Hrun as [[_ [-> | ->]] | Hok];
      auto using ledger_untouched_refl, ledger_untouched_touch.
    destruct Hok as (? & ? & ? & _ & _ & _ & _ & _ & [? H] & _). discriminate.
  - intros fid payload cu clk d e d' Hrun. apply issue_coupon_effect in Hrun.
    cbv zeta in Hrun. destruct Hrun as [[_ [-> | ->]] | Hok];
      auto using ledger_untouched_refl, ledger_untouched_touch.
    destruct Hok as (? & ? & ? & _ & _ & _ & _ & _ & H & _). discriminate.
  - intros fid token clk d e d' Hrun. apply draw_jackpot_effect in Hrun.
    destruct Hrun as [[_ ->] | Hok]; [reflexivity|].
    destruct Hok as (? & ? & ? & ? & ? & _ & _ & _ & _ & _ & _ & H & _). discriminate.
Qed.

(** ** Conservation of points *)

Lemma find_update_first_image {A B} (p p' : A -> bool) (g : A -> A) (T : A -> B) l :
  (forall x, p' (g x) = p' x) -> (forall x, T (g x) = T x) ->
  option_map T (find p' (update_first p g l)) = option_map T (find p' l).
Proof.
  intros Hp HT. induction l as [|x t IH]; cbn; [reflexivity|].
  destruct (p x); cbn.
  - rewrite Hp. destruct (p' x); cbn; [now rewrite HT | reflexivity].
  - destruct (p' x); cbn; [reflexivity | exact IH].
Qed.

Lemma daily_total_find d u f day :
  daily_total d u f day
  = match option_map today_total (find_summary d u f day) with
    | Some t => t
    | None => 0
    end.
Proof.
  unfold daily_total, daily_balances, today_total.
  destruct (find_summary d u f day); reflexivity.
Qed.

Lemma daily_total_untouched d d' u f day :
  ledger_untouched d d' -> daily_total d' u f day = daily_total d u f day.
Proof.
  intros (_ & _ & _ & _ & _ & _ & _ & _ & _ & H). unfold daily_total. now rewrite H.
Qed.

Lemma daily_total_update d0 d' k g u f day :
  summaries d' = update_first k g (summaries d0) ->
  (forall x, summary_matches u f day (g x) = summary_matches u f day x) ->
  (forall x, today_total (g x) = today_total x) ->
  daily_total d' u f day = daily_total d0 u f day.
Proof.
  intros Hsm Hk HT. rewrite !daily_total_find. unfold find_summary.
  now rewrite Hsm, (find_update_first_image k _ g today_total _ Hk HT).
Qed.

(** X5: activation and coupon issue only move points between the three
    balances: whatever the outcome of a bin scan or a coupon request,
    every summary key reports the same pending + active + consumed total
    after it as before. *)
Theorem points_conserved_by_scan_and_coupon ext :
  (forall fid payload cu clk d u f day,
      daily_total (snd (run_request (scan_bin ext fid payload cu clk) d)) u f day
      = daily_total d u f day)
  /\ (forall fid payload cu clk d u f day,
      daily_total (snd (run_request (issue_coupon fid payload cu clk) d)) u f day
      = daily_total d u f day).
Proof.
  split.
  - intros fid payload cu clk d u f day.
    destruct (run_request (scan_bin ext fid payload cu clk) d) as [r d'] eqn:Hrun.
    apply scan_bin_effect in Hrun. cbv zeta in Hrun. cbn [snd].
    destruct Hrun as [[_ [-> | ->]] | Hok];
      auto using daily_total_untouched, ledger_untouched_touch.
    destruct Hok as (? & ? & ? & _ & _ & _ & _ & _ & _ & _ & Hsm & _).
    rewrite (daily_total_update _ _ _ _ u f day Hsm); [| reflexivity |].
    + apply daily_total_untouched, ledger_untouched_touch.
    + intros s. unfold today_total, move_pending_to_active. cbn. lia.
  - intros fid payload cu clk d u f day.
    destruct (run_request (issue_coupon fid payload cu clk) d) as [r d'] eqn:Hrun.
    apply issue_coupon_effect in Hrun. cbv zeta in Hrun. cbn [snd].
    destruct Hrun as [[_ [-> | ->]] | Hok];
      auto using daily_total_untouched, ledger_untouched_touch.
    destruct Hok as (? & ? & a & _ & _ & _ & _ & _ & _ & _ & Hsm & _).
    rewrite (daily_total_update _ _ _ _ u f day Hsm); [| reflexivity |].
    + apply daily_total_untouched, ledger_untouched_touch.
    + intros s. unfold today_total, move_active_to_consumed. cbn. lia.
Qed.

(** ** Spendable points and the daily cap *)

Lemma summaries_satisfy_touch (P : Festival -> UserDailySummary -> Prop) clk u fid d :
  (forall festival, db_get_festival d fid = Some festival ->
     P festival (new_summary u fid (today clk))) ->
  summaries_satisfy P d -> summaries_satisfy P (touch_summary clk u fid d).
Proof.
  intros Hnew Hinv. unfold touch_summary.
  destruct (find_summary d u fid (today clk)); [exact Hinv|].
  intros s fe Hin Hget. cbn in Hin, Hget. apply in_app_or in Hin.
  change (db_get_festival d (sum_festival_id s) = Some fe) in Hget.
  destruct Hin as [Hin | [<- | []]]; [now apply Hinv | now apply Hnew].
Qed.

Lemma summaries_satisfy_update (P : Festival -> UserDailySummary -> Prop)
    d0 d' u fid day g summary :
  festivals d' = festivals d0 ->
  summaries d' = update_first (summary_matches u fid day) g (summaries d0) ->
  find_summary d0 u fid day = Some summary ->
  sum_festival_id (g summary) = sum_festival_id summary ->
  (forall festival, db_get_festival d0 fid = Some festival ->
     P festival summary -> P festival (g summary)) ->
  summaries_satisfy P d0 -> summaries_satisfy P d'.
Proof.
  intros Hfs Hsm Hfind Hid Hnew Hinv s fe Hin Hget.
  rewrite (festival_same d0 d' _ Hfs) in Hget.
  rewrite Hsm in Hin. apply update_first_In in Hin.
  destruct Hin as [Hin | (x & Hx & ->)]; [now apply Hinv|].
  unfold find_summary in Hfind. rewrite Hfind in Hx. injection Hx as <-.
  pose proof Hfind as Hin. apply find_some in Hin. destruct Hin as [Hin _].
  rewrite Hid in Hget. pose proof (Hinv _ _ Hin Hget) as HP.
  rewrite (find_summary_festival d0 u fid day summary Hfind) in Hget.
  now apply Hnew.
Qed.

Lemma activation_loop_within remaining_cap l :
  0 < remaining_cap -> fst (activation_loop remaining_cap 0 [] l) <= remaining_cap.
Proof.
  intros Hpos.
  destruct (activation_loop_prefix remaining_cap l 0 [])
    as (batch & rest & _ & -> & Hfit & _). cbn [fst].
  destruct batch as [|p batch]; [cbn; lia|].
  specialize (Hfit (List.length (p :: batch))).
  rewrite firstn_all in Hfit. apply Hfit. cbn. lia.
Qed.

Section Spendable.

Variable ext : Externals.

Lemma apply_op_spend op d :
  is_draw op = false -> caps_nonneg d -> spend_respected d ->
  festivals (apply_op ext op d) = festivals d /\ spend_respected (apply_op ext op d).
Proof.
  intros Hop Hcaps Hinv.
  assert (Htouch : forall clk u fid,
            spend_respected (touch_summary clk u fid d)).
  { intros clk u fid. apply (summaries_satisfy_touch spend_within); [|exact Hinv].
    intros fe Hget. unfold spend_within. cbn. apply (Hcaps _ _ Hget). }
  destruct op as [fid form cu clk | fid payload cu clk | fid payload cu clk | fid token clk];
    cbn [apply_op is_draw] in *; [| | | discriminate].
  - destruct (run_request (upload_photo ext fid form cu clk) d) as [r d'] eqn:Hrun.
    apply upload_photo_effect in Hrun. cbn [snd]. cbv zeta in Hrun.
    destruct (touch_summary_tables clk (str_or (up_userId form) cu) fid d) as (Hf0 & _).
    destruct Hrun as [[_ [-> | ->]] | Hok]; auto.
    destruct Hok as (f & sm & pool & pools0 & c & _ & Hfind & _ & _ & _ & _ & Hsm & Hfs & _).
    split; [exact Hfs|].
    eapply (summaries_satisfy_update spend_within); [| exact Hsm | exact Hfind | reflexivity | | apply Htouch].
    + congruence.
    + intros fe _ H. exact H.
  - destruct (run_request (scan_bin ext fid payload cu clk) d) as [r d'] eqn:Hrun.
    apply scan_bin_effect in Hrun. cbn [snd]. cbv zeta in Hrun.
    destruct (touch_summary_tables clk (str_or (scan_userId payload) cu) fid d) as (Hf0 & _).
    destruct Hrun as [[_ [-> | ->]] | Hok]; auto.
    destruct Hok as (f & sm & b & Hf & Hfind & Hpos & _ & _ & _ & _ & Hsm & _ & Hfs & _).
    split; [exact Hfs|].
    eapply (summaries_satisfy_update spend_within); [| exact Hsm | exact Hfind | reflexivity | | apply Htouch].
    + congruence.
    + intros fe Hget _. rewrite (festival_same d _ fid Hf0), Hf in Hget.
      injection Hget as <-. unfold spend_within, move_pending_to_active.
      cbn [total_active total_consumed].
      pose proof (activation_loop_within _
                    (pending_photos_of d (str_or (scan_userId payload) cu) fid
                       (utcnow clk - minutes PENDING_ACTIVATION_MINUTES)) Hpos) as Hle.
      lia.
  - destruct (run_request (issue_coupon fid payload cu clk) d) as [r d'] eqn:Hrun.
    apply issue_coupon_effect in Hrun. cbn [snd]. cbv zeta in Hrun.
    destruct (touch_summary_tables clk (str_or (cp_userId payload) cu) fid d) as (Hf0 & _).
    destruct Hrun as [[_ [-> | ->]] | Hok]; auto.
    destruct Hok as (f & sm & a & _ & _ & Hfind & _ & _ & _ & _ & Hsm & Hfs & _).
    split; [exact Hfs|].
    eapply (summaries_satisfy_update spend_within); [| exact Hsm | exact Hfind | reflexivity | | apply Htouch].
    + congruence.
    + intros fe _ H. unfold spend_within, move_active_to_consumed in *. cbn. lia.
Qed.

(** X6: without draws, the points a user can spend or has spent never
    exceed the daily cap: in a ledger whose caps are not negative and
    whose summaries have total_active + total_consumed within the cap,
    every sequence of submitPhoto, activateByBinScan and issueCoupon
    requests keeps total_active + total_consumed <= perUserDailyCap for
    every summary, whatever the per-photo reward. *)
Theorem spendable_points_within_cap ops d :
  no_draw ops = true -> caps_nonneg d -> spend_respected d ->
  spend_respected (run_ops ext ops d).
Proof.
  revert d. induction ops as [|op rest IH]; intros d Hnd Hcaps Hinv; cbn [run_ops];
    [exact Hinv|].
  unfold no_draw in Hnd. cbn [forallb] in Hnd. apply andb_true_iff in Hnd.
  destruct Hnd as [Hop Hrest]. apply negb_true_iff in Hop.
  destruct (apply_op_spend op d Hop Hcaps Hinv) as [Hfs Hinv'].
  apply IH; [exact Hrest | | exact Hinv'].
  intros fid f Hget. rewrite (festival_same d _ fid Hfs) in Hget. eauto.
Qed.

End Spendable.

(** ** Reading a summary *)

Lemma opt_or_nonempty a b :
  is_empty_opt (opt_or a b) = false ->
  opt_or a b = Some (str_or (opt_or a b) "") /\ str_or (opt_or a b) "" <> "".
Proof.
  unfold is_empty_opt, str_or. destruct (opt_or a b) as [s|]; [|discriminate].
  intros H. rewrite H. split; [reflexivity | now apply String.eqb_neq].
Qed.

Lemma daily_balances_current clk u f d :
  daily_balances d u f (today clk)
  = (total_pending (current_summary clk u f d), total_active (current_summary clk u f d),
     total_consumed (current_summary clk u f d)).
Proof.
  unfold daily_balances, current_summary.
  destruct (find_summary d u f (today clk)); reflexivity.
Qed.

Lemma touch_summary_idem clk u f d :
  touch_summary clk u f (touch_summary clk u f d) = touch_summary clk u f d.
Proof.
  unfold touch_summary at 1. now rewrite find_summary_touch.
Qed.

Lemma current_summary_touch clk u f d :
  current_summary clk u f (touch_summary clk u f d) = current_summary clk u f d.
Proof.
  unfold current_summary at 1. now rewrite find_summary_touch.
Qed.

(** The outcome of [get_summary] in closed form. *)
Lemma get_summary_run cfg uid festivalId cu clk d :
  run_request (get_summary cfg uid festivalId cu clk) d
  = if negb (cu == uid) then (Raise Forbidden, d)
    else if is_empty_opt (opt_or festivalId (DEFAULT_FESTIVAL_ID cfg))
    then (Raise MissingParameters, d)
    else
      let fid := str_or (opt_or festivalId (DEFAULT_FESTIVAL_ID cfg)) "" in
      match db_get_festival d fid with
      | None => (Raise FestivalNotFound, d)
      | Some festival =>
          match db_get_user d uid with
          | None => (Raise UserNotFound, d)
          | Some _ =>
              let s := current_summary clk uid fid d in
              (Ok (mkSummaryResponse festival (total_pending s) (total_active s)
                                     (total_consumed s) (per_user_daily_cap festival)),
               touch_summary clk uid fid d)
          end
      end.
Proof.
  unfold get_summary, touch_summary, current_summary. run; reflexivity.
Qed.

(** X7: [get_summary] answers only for the caller's own account; its
    answer is the festival with the balances of the caller's day (zeros
    when there is no row yet) and the festival's cap; it changes no
    balance, leaves the database as [ensure_summary] commits it, changes
    nothing when it fails, and asked again right away it gives the same
    answer and changes nothing more. *)
Theorem get_summary_reads_own_balances cfg uid festivalId cu clk d :
  (forall resp d',
      run_request (get_summary cfg uid festivalId cu clk) d = (Ok resp, d') ->
      exists fid,
        cu = uid
        /\ opt_or festivalId (DEFAULT_FESTIVAL_ID cfg) = Some fid
        /\ db_get_festival d fid = Some (sr_festival resp)
        /\ (sr_totalPending resp, sr_totalActive resp, sr_totalConsumed resp)
           = daily_balances d uid fid (today clk)
        /\ sr_cap resp = per_user_daily_cap (sr_festival resp)
        /\ d' = touch_summary clk uid fid d
        /\ ledger_untouched d d'
        /\ run_request (get_summary cfg uid festivalId cu clk) d' = (Ok resp, d'))
  /\ (forall e d',
      run_request (get_summary cfg uid festivalId cu clk) d = (Raise e, d') -> d' = d)
  /\ (cu <> uid ->
      run_request (get_summary cfg uid festivalId cu clk) d = (Raise Forbidden, d)).
Proof.
  repeat apply conj.
  - intros resp d'. rewrite get_summary_run.
    destruct (negb (cu == uid)) eqn:Hown; [discriminate|].
    destruct (is_empty_opt _) eqn:Hfid; [discriminate|]. cbv zeta.
    destruct (opt_or_nonempty _ _ Hfid) as [Hsome _].
    set (fid := str_or (opt_or festivalId (DEFAULT_FESTIVAL_ID cfg)) "") in *.
    destruct (db_get_festival d fid) as [festival|] eqn:Hf; [|discriminate].
    destruct (db_get_user d uid) as [user|] eqn:Hu; [|discriminate].
    intros [= <- <-]. exists fid. cbn [sr_festival sr_totalPending sr_totalActive
                                        sr_totalConsumed sr_cap].
    apply negb_false_iff, String.eqb_eq in Hown.
    split; [exact Hown|]. split; [exact Hsome|]. split; [exact Hf|].
    split; [now rewrite daily_balances_current|]. split; [reflexivity|].
    split; [reflexivity|]. split; [apply ledger_untouched_touch|].
    rewrite get_summary_run. subst cu. rewrite String.eqb_refl. cbn [negb].
    rewrite Hfid. cbv zeta. fold fid.
    destruct (touch_summary_tables clk uid fid d) as (Hfs & Hus & _).
    rewrite (festival_same d _ fid Hfs), Hf.
    unfold db_get_user in *. rewrite Hus, Hu.
    now rewrite current_summary_touch, touch_summary_idem.
  - intros e d'. rewrite get_summary_run.
    destruct (negb (cu == uid)); [now intros [= _ <-]|].
    destruct (is_empty_opt _); [now intros [= _ <-]|]. cbv zeta.
    destruct (db_get_festival d _); [|now intros [= _ <-]].
    destruct (db_get_user d uid); [discriminate | now intros [= _ <-]].
  - intros Hne. rewrite get_summary_run.
    apply String.eqb_neq in Hne. now rewrite Hne.
Qed.

(** ** Listing photos *)

(** X8: [list_photos] answers only for the caller's own account and
    never writes; its answer holds exactly the caller's photos of the
    festival, newest first. *)
Theorem list_photos_own_newest_first cfg uid festivalId cu d result d' :
  run_request (list_photos cfg uid festivalId cu) d = (Ok result, d') ->
  exists fid,
    d' = d /\ cu = uid
    /\ opt_or festivalId (DEFAULT_FESTIVAL_ID cfg) = Some fid
    /\ Permutation result
         (filter (fun p => (photo_user_id p == cu) && (photo_festival_id p == fid))
                 (photos d))
    /\ StronglySorted (fun x y => created_at y <= created_at x) result
    /\ (forall p, In p result ->
          In p (photos d) /\ photo_user_id p = cu /\ photo_festival_id p = fid).
Proof.
  unfold list_photos. run; intros H; inversion H; subst; clear H.
  match goal with H : negb _ = false |- _ =>
    apply negb_false_iff, String.eqb_eq in H; subst cu end.
  match goal with H : is_empty_opt _ = false |- _ =>
    destruct (opt_or_nonempty _ _ H) as [Hsome _] end.
  eexists. split; [reflexivity|]. split; [reflexivity|]. split; [exact Hsome|].
  assert (Hperm : forall l, Permutation (order_by created_at_desc l) l)
    by (intros l; apply order_by_perm).
  split; [apply Hperm|]. split.
  - eapply StronglySorted_weaken; [| apply (order_by_sorted created_at_desc)].
    + unfold created_at_desc. intros x y Hle. now apply Z.leb_le.
    + unfold created_at_desc. intros x y Hxy. apply Z.leb_gt in Hxy. apply Z.leb_le. lia.
    + unfold created_at_desc. intros x y z H1 H2. apply Z.leb_le in H1, H2.
      apply Z.leb_le. lia.
  - intros p Hin. eapply Permutation_in in Hin; [|apply Hperm].
    apply filter_In in Hin. destruct Hin as [Hin Hm]. apply andb_true_iff in Hm.
    destruct Hm as [Hu Hf]. apply String.eqb_eq in Hu, Hf. auto.
Qed.

(** ** The jackpot status and repeated draws *)

Lemma draw_jackpot_succeeds ext fid clk d pool winner_id others winner :
  filter (pool_of fid) (pools d) = [pool] ->
  week_entries d fid (week_key clk) <> [] ->
  choices ext (map entry_user_id (week_entries d fid (week_key clk)))
              (map entry_count (week_entries d fid (week_key clk)))
    = Some (winner_id :: others) ->
  db_get_user d winner_id = Some winner ->
  (List.length (filter (summary_matches winner_id fid (today clk)) (summaries d)) <= 1)%nat ->
  fst (run_request (draw_jackpot ext fid (Some (ADMIN_TOKEN ext)) clk) d)
  = Ok (mkDrawResponse (display_name winner) (current_amount pool)).
Proof.
  intros Hpool Hentries Hpick Hwinner Hone.
  unfold draw_jackpot, require_admin. rewrite opt_is_refl. cbn [negb]. exec.
  rewrite Hpool. exec.
  destruct (week_entries d fid (week_key clk)) as [|en ens] eqn:Hwk;
    [contradiction|]. exec.
  rewrite Hpick. exec. cbn [hd_error]. exec. rewrite Hwinner. exec.
  destruct (filter (summary_matches winner_id fid (today clk)) (summaries d))
    as [|sm [|sm2 rest]] eqn:Hsm; [| |cbn in Hone; lia]; exec; reflexivity.
Qed.

Lemma get_jackpot_read_only fid d : snd (run_request (get_jackpot fid) d) = d.
Proof. unfold get_jackpot. run; reflexivity. Qed.

Section JackpotStatus.

Variable ext : Externals.

(** X9: [get_jackpot] never writes and reports 0 without a winner for a
    festival that has no pool; right after a successful draw it reports
    the pool's seed amount, the date of the draw and, for a winner with a
    non-empty id, the display name that the draw announced. *)
Theorem get_jackpot_after_draw fid :
  (forall d, snd (run_request (get_jackpot fid) d) = d)
  /\ (forall d, filter (pool_of fid) (pools d) = [] ->
        fst (run_request (get_jackpot fid) d) = Ok (mkJackpotStatus 0 None None))
  /\ (forall token clk d resp d1,
        run_request (draw_jackpot ext fid token clk) d = (Ok resp, d1) ->
        exists pool winner_id status,
          filter (pool_of fid) (pools d) = [pool]
          /\ winners d1 = winners d
                          ++ [mkWinner winner_id fid (week_key clk) (current_amount pool)]
          /\ fst (run_request (get_jackpot fid) d1) = Ok status
          /\ js_current_amount status = seed_amount pool
          /\ js_last_draw_date status = Some (Some (today clk))
          /\ (winner_id <> "" -> js_last_winner_name status = Some (resp_winner_name resp))).
Proof.
  repeat apply conj.
  - apply get_jackpot_read_only.
  - intros d Hnone. unfold get_jackpot. exec. rewrite Hnone. reflexivity.
  - intros token clk d resp d1 Hrun. apply draw_jackpot_effect in Hrun.
    destruct Hrun as [[[e He] _] | Hok]; [discriminate|].
    destruct Hok as (pool & w & others & winner & s0 & _ & Hpool & _ & _ & Hwinner & _
                     & Hr & _ & Hwin & Hpools & _ & Hus & _).
    injection Hr as ->.
    assert (Hone : filter (pool_of fid) (pools d1) = [reset_pool w (today clk) pool])
      by (rewrite Hpools, filter_update_first, Hpool by reflexivity; reflexivity).
    exists pool, w.
    unfold get_jackpot. exec. rewrite Hone. exec. cbn [last_winner_id reset_pool].
    eexists. split; [exact Hpool|]. split; [exact Hwin|]. split; [reflexivity|].
    cbn [js_current_amount js_last_draw_date js_last_winner_name
         current_amount last_draw_date reset_pool resp_winner_name].
    split; [reflexivity|]. split; [reflexivity|].
    intros Hne. apply String.eqb_neq in Hne. rewrite Hne.
    unfold db_get_user in *. now rewrite Hus, Hwinner.
Qed.

(** X10: a draw does not consume the week's entries: after a successful
    draw, a second draw with the same token, clock and selection succeeds
    as well, names the same winner and awards exactly the seed amount the
    first draw reset the pool to. *)
Theorem second_draw_awards_seed fid token clk d resp d1 :
  run_request (draw_jackpot ext fid token clk) d = (Ok resp, d1) ->
  exists pool,
    filter (pool_of fid) (pools d) = [pool]
    /\ resp_amount resp = current_amount pool
    /\ entries d1 = entries d
    /\ fst (run_request (draw_jackpot ext fid token clk) d1)
       = Ok (mkDrawResponse (resp_winner_name resp) (seed_amount pool)).
Proof.
  intros Hrun. apply draw_jackpot_effect in Hrun.
  destruct Hrun as [[[e He] _] | Hok]; [discriminate|].
  destruct Hok as (pool & w & others & winner & s0 & -> & Hpool & Hne & Hpick & Hwinner
                   & Hs0 & Hr & Hsm & _ & Hpools & _ & Hus & _ & _ & _ & _ & Hen).
  injection Hr as ->. exists pool. cbn [resp_amount resp_winner_name].
  split; [exact Hpool|]. split; [reflexivity|]. split; [exact Hen|].
  assert (Hwk : week_entries d1 fid (week_key clk) = week_entries d fid (week_key clk))
    by (unfold week_entries; now rewrite Hen).
  change (seed_amount pool) with (current_amount (reset_pool w (today clk) pool)).
  apply (draw_jackpot_succeeds ext fid clk d1 (reset_pool w (today clk) pool) w others winner).
  - rewrite Hpools, filter_update_first, Hpool by reflexivity. reflexivity.
  - now rewrite Hwk.
  - now rewrite Hwk.
  - unfold db_get_user in *. now rewrite Hus.
  - rewrite Hsm, filter_update_first by reflexivity.
    destruct Hs0 as [(sm & Hf & ->) | (Hf & ->)].
    + rewrite Hf. cbn. lia.
    + rewrite filter_app, Hf. cbn [filter app]. rewrite summary_matches_new. cbn. lia.
Qed.

End JackpotStatus.

(** ** The admin summary *)

Lemma points_by_status rows :
  sum_Z (map points rows)
  = sum_Z (map points (filter (fun p => status_eqb (status p) PHOTO_STATUS_PENDING) rows))
    + sum_Z (map points (filter (fun p => status_eqb (status p) PHOTO_STATUS_ACTIVE) rows)).
Proof.
  unfold sum_Z. induction rows as [|p t IH]; cbn; [reflexivity|].
  destruct (status p); cbn; lia.
Qed.

Lemma status_totals_group fid d :
  status_totals (photos_group fid d) (0, 0)
  = (sum_Z (map points (filter (fun p => status_eqb (status p) PHOTO_STATUS_PENDING)
                          (filter (fun p => photo_festival_id p == fid) (photos d)))),
     sum_Z (map points (filter (fun p => status_eqb (status p) PHOTO_STATUS_ACTIVE)
                          (filter (fun p => photo_festival_id p == fid) (photos d))))).
Proof.
  unfold photos_group. cbn [flat_map app].
  destruct (filter (fun p => status_eqb (status p) PHOTO_STATUS_PENDING) _) as [|p ps];
    destruct (filter (fun p => status_eqb (status p) PHOTO_STATUS_ACTIVE) _) as [|q qs];
    reflexivity.
Qed.

Lemma sum_Z_map_add {A} (f g : A -> Z) l :
  sum_Z (map (fun x => f x + g x) l) = sum_Z (map f l) + sum_Z (map g l).
Proof.
  unfold sum_Z. induction l as [|x t IH]; cbn; [reflexivity | rewrite IH; lia].
Qed.

Lemma sum_Z_map_zero {A} (l : list A) : sum_Z (map (fun _ => 0) l) = 0.
Proof. unfold sum_Z. induction l as [|x t IH]; cbn; [reflexivity | exact IH]. Qed.

Lemma count_in_nodup (c : string) l :
  NoDup l -> In c l -> sum_Z (map (fun b => if c == b then 1 else 0) l) = 1.
Proof.
  unfold sum_Z. induction 1 as [|x t Hx Ht IH]; cbn [map fold_right]; [intros []|].
  intros [-> | Hin].
  - rewrite String.eqb_refl.
    assert (Hzero : fold_right Z.add 0 (map (fun b => if c == b then 1 else 0) t) = 0).
    { clear IH Ht. induction t as [|y t IHt]; cbn; [reflexivity|].
      destruct (c == y) eqn:E.
      - apply String.eqb_eq in E. subst y. exfalso. apply Hx. now left.
      - apply IHt. intros H. apply Hx. now right. }
    rewrite Hzero. reflexivity.
  - destruct (c == x) eqn:E.
    + apply String.eqb_eq in E. subst x. contradiction.
    + now rewrite (IH Hin).
Qed.

Lemma group_counts_keys {A} (key : A -> string) keys (rows : list A) :
  NoDup keys -> (forall r, In r rows -> In (key r) keys) ->
  sum_Z (map (fun b => Z.of_nat (List.length (filter (fun r => key r == b) rows))) keys)
  = Z.of_nat (List.length rows).
Proof.
  intros Hnd. induction rows as [|r t IH]; intros Hin.
  - cbn [filter List.length]. apply sum_Z_map_zero.
  - rewrite (map_ext _ (fun b => (if key r == b then 1 else 0)
                                 + Z.of_nat (List.length (filter (fun r0 => key r0 == b) t)))).
    + rewrite sum_Z_map_add, IH by (intros r0 Hr0; apply Hin; now right).
      rewrite count_in_nodup by (auto; apply Hin; now left).
      cbn [List.length]. lia.
    + intros b. cbn [filter]. destruct (key r == b); cbn [List.length]; lia.
Qed.

Lemma group_counts_total {A} (key : A -> string) (rows : list A) :
  sum_Z (map (fun b => Z.of_nat (List.length (filter (fun r => key r == b) rows)))
             (nodup string_dec (map key rows)))
  = Z.of_nat (List.length rows).
Proof.
  apply group_counts_keys; [apply NoDup_nodup|].
  intros r Hr. apply nodup_In. now apply in_map.
Qed.

(** X11: [admin_summary] is for the admin only and never writes.  The
    pending and active totals it reports add up to the photo points of
    the festival, the used budget is these plus the coupon amounts, the
    remaining budget is never negative and completes the used budget to
    the budget whenever the used budget is within it, the per-bin scan
    counts add up to the festival's scans, and there are no more
    participants than photos. *)
Theorem admin_summary_totals ext fid token d result d' :
  run_request (admin_summary ext fid token) d = (Ok result, d') ->
  d' = d
  /\ token = Some (ADMIN_TOKEN ext)
  /\ db_get_festival d fid = Some (as_festival result)
  /\ as_totalPending result + as_totalActive result = photo_points_of fid d
  /\ as_budgetUsed result
     = as_totalPending result + as_totalActive result + coupon_points_of fid d
  /\ 0 <= as_budgetRemaining result
  /\ (as_budgetUsed result <= budget (as_festival result) ->
      as_budgetUsed result + as_budgetRemaining result = budget (as_festival result))
  /\ (budget (as_festival result) <= as_budgetUsed result -> as_budgetRemaining result = 0)
  /\ sum_Z (map (fun row => snd (fst row)) (as_binUsage result))
     = Z.of_nat (List.length (filter (fun sc => scan_festival_id sc == fid) (scans d)))
  /\ 0 <= as_totalParticipants result
       <= Z.of_nat (List.length (filter (fun p => photo_festival_id p == fid) (photos d))).
Proof.
  unfold admin_summary, require_admin. exec.
  destruct (negb (opt_is (ADMIN_TOKEN ext) token)) eqn:Hadm; exec; [discriminate|].
  destruct (db_get_festival d fid) as [festival|] eqn:Hf; exec; [|discriminate].
  rewrite status_totals_group. exec.
  intros [= <- <-].
  cbn [as_festival as_totalPending as_totalActive as_budgetUsed as_budgetRemaining
       as_binUsage as_totalParticipants].
  apply negb_false_iff, opt_is_true in Hadm.
  split; [reflexivity|]. split; [exact Hadm|]. split; [reflexivity|].
  split; [unfold photo_points_of; now rewrite <- points_by_status|].
  split; [unfold get_budget_usage, photo_points_of; now rewrite <- points_by_status|].
  split; [lia|]. split; [lia|]. split; [lia|]. split.
  - rewrite map_map. cbn [fst snd]. unfold bin_usage. rewrite map_map. cbn [snd].
    apply group_counts_total.
  - unfold distinct_users. split; [lia|]. apply inj_le.
    eapply Nat.le_trans; [apply NoDup_incl_length; [apply NoDup_nodup|] | ].
    + intros x Hx. apply nodup_In in Hx. exact Hx.
    + now rewrite length_map.
Qed.

(** ** Acceptance of a photo submission *)

Lemma dedup_loop_ok ext new_hash new_hash_obj recent :
  dedup_loop ext new_hash new_hash_obj recent = Ok tt
  <-> forall photo, In photo recent ->
        exists dist, photo_distance ext new_hash new_hash_obj photo = Some dist /\ 5 < dist.
Proof.
  induction recent as [|p t IH]; cbn [dedup_loop].
  - split; [intros _ photo [] | reflexivity].
  - destruct (photo_distance ext new_hash new_hash_obj p) as [dp|] eqn:Hp.
    + destruct (dp <=? 5) eqn:E.
      * apply Z.leb_le in E. split; [discriminate|].
        intros H. destruct (H p (or_introl eq_refl)) as (dist & Hd & Hlt).
        rewrite Hp in Hd. injection Hd as <-. lia.
      * apply Z.leb_gt in E. rewrite IH. split.
        -- intros H photo [<- | Hin]; [eauto | auto].
        -- intros H photo Hin. apply H. now right.
    + split; [discriminate|].
      intros H. destruct (H p (or_introl eq_refl)) as (dist & Hd & _). congruence.
Qed.

Lemma length_le_1_cases {A} (l : list A) :
  (List.length l <= 1)%nat -> l = [] \/ exists x, l = [x].
Proof.
  destruct l as [|x [|y t]]; cbn; [now left | right; eauto | lia].
Qed.

(** X12: [upload_photo] accepts a submission exactly when the caller acts
    for their own existing account in an existing festival, is inside
    the geofence, has fewer than five photos of the last minute, every
    comparison with the 20 most recent photos comes out above 5, the
    day's total is below the cap, the budget has room for one more
    photo, the festival has at most one pool row whose contribution is
    computable, and the caller has at most one entry row for the week. *)
Theorem upload_photo_accepts_iff ext fid form cu clk d :
  (exists resp d', run_request (upload_photo ext fid form cu clk) d = (Ok resp, d'))
  <-> upload_admissible ext fid form cu clk d.
Proof.
  unfold upload_admissible. split.
  - intros (resp & d' & Hrun). revert Hrun.
    destruct (str_or (up_userId form) cu == cu) eqn:Hown.
    2:{ unfold upload_photo. rewrite Hown. cbn [negb]. exec. discriminate. }
    apply String.eqb_eq in Hown.
    unfold upload_photo, current_summary. rewrite Hown, String.eqb_refl. cbn [negb]. run.
    all: intros H; try discriminate H; clear H.
    all: repeat match goal with
         | H : negb _ = false |- _ => apply negb_false_iff in H
         end.
    all: match goal with H : dedup_loop _ _ _ _ = Ok ?a |- _ =>
           destruct a; pose proof (proj1 (dedup_loop_ok _ _ _ _) H) as Hdistinct end.
    all: to_Z.
    all: match goal with H : db_get_festival _ _ = Some ?f |- _ =>
           pose proof (db_get_festival_id _ _ _ H) as Hfid end.
    all: split; [reflexivity|]; split; [eexists; reflexivity|].
    all: eexists; split; [reflexivity|].
    all: split; [assumption|]; split; [assumption|]; split; [assumption|].
    all: split; [assumption|]; split; [rewrite <- Hfid at 1; assumption|].
    all: split; [do 2 eexists; split; [first [left; reflexivity | right; split; reflexivity]
                                      | eassumption]|].
    all: cbn; lia.
  - intros (Hown & [user Huser] & festival & Hf & Hin & Hrate & Hdup & Hcap & Hroom
            & (pool & c & Hpool & Hc) & Hen).
    apply (proj2 (dedup_loop_ok _ _ _ _)) in Hdup.
    pose proof (db_get_festival_id _ _ _ Hf) as Hfid.
    assert (Hcap' : (today_total (current_summary clk cu fid d)
                     >=? per_user_daily_cap festival) = false)
      by (rewrite Z.geb_leb; apply Z.leb_gt; exact Hcap).
    assert (Hroom' : (get_budget_usage d fid + per_photo_point festival >? budget festival)
                     = false)
      by (rewrite Z.gtb_ltb; apply Z.ltb_ge; exact Hroom).
    assert (Hrate' : (Z.of_nat (List.length
              (filter (fun p => (photo_user_id p == cu)
                                && (created_at p >=? utcnow clk - minutes 1)) (photos d)))
              >=? 5) = false)
      by (rewrite Z.geb_leb; apply Z.leb_gt; exact Hrate).
    unfold upload_photo. rewrite Hown, String.eqb_refl. cbn [negb]. exec.
    rewrite Huser, Hf. exec. rewrite Hin. cbn [negb]. exec.
    rewrite Hrate'. exec. rewrite Hdup. exec.
    unfold current_summary in Hcap'. unfold get_budget_usage, photo_points_of,
      coupon_points_of in *.
    destruct (length_le_1_cases _ Hen) as [Hen0 | [en Hen1]];
      destruct (find_summary d cu fid (today clk)) as [sm|] eqn:Hsm; exec;
      rewrite Hcap'; exec; rewrite Hfid, Hroom'; exec;
      destruct Hpool as [Hp | [Hp ->]]; rewrite Hp; exec; rewrite Hc; exec;
      rewrite ?Hen0, ?Hen1; exec; do 2 eexists; reflexivity.
Qed.

(** ** Jackpot tickets *)

Lemma filter_update_first_other {A} (p q : A -> bool) (g : A -> A) l :
  (forall x, q (g x) = q x) -> (forall x, p x = true -> q x = false) ->
  filter q (update_first p g l) = filter q l.
Proof.
  intros Hq Hpq. induction l as [|x t IH]; cbn; [reflexivity|].
  destruct (p x) eqn:E; cbn.
  - now rewrite Hq, (Hpq x E).
  - now rewrite IH.
Qed.

Lemma entry_of_exclusive u f w u' f' w' e :
  u' <> u \/ f' <> f \/ w' <> w ->
  entry_of u f w e = true -> entry_of u' f' w' e = false.
Proof.
  unfold entry_of. intros Hne H.
  apply andb_true_iff in H. destruct H as [H Hw]. apply andb_true_iff in H.
  destruct H as [Hu Hf]. apply String.eqb_eq in Hu, Hf, Hw. subst u f w.
  destruct Hne as [Hne | [Hne | Hne]]; apply not_eq_sym, String.eqb_neq in Hne;
    rewrite Hne; rewrite ?andb_false_r; reflexivity.
Qed.

(** X13: every accepted photo submission is worth exactly one jackpot
    ticket: the caller's entry of the week has its count raised by one,
    or is created at the default count when there was none, and no other
    user's, festival's or week's entries change. *)
Theorem accepted_upload_adds_one_ticket ext fid form cu clk d resp d' :
  run_request (upload_photo ext fid form cu clk) d = (Ok resp, d') ->
  let user_id := str_or (up_userId form) cu in
  let mine := entry_of user_id fid (week_key clk) in
  ((exists en en',
       filter mine (entries d) = [en] /\ filter mine (entries d') = [en']
       /\ entry_count en' = entry_count en + 1)
   \/ (filter mine (entries d) = []
       /\ filter mine (entries d') = [mkEntry user_id fid (week_key clk)
                                              (entry_default_count ext)]))
  /\ (forall u f w,
        u <> user_id \/ f <> fid \/ w <> week_key clk ->
        filter (entry_of u f w) (entries d') = filter (entry_of u f w) (entries d)).
Proof.
  intros Hrun. apply upload_photo_effect in Hrun. cbv zeta in *.
  destruct Hrun as [[[e He] _] | Hok]; [discriminate|].
  destruct Hok as (f0 & sm & pool & pools0 & c & _ & _ & _ & _ & _ & _ & _ & _ & _ & _ & _
                   & _ & _ & _ & _ & _ & Hen).
  destruct Hen as [(en & Hone & Hent) | (Hnone & Hent)]; rewrite Hent.
  - split.
    + left. exists en, (bump_entry en).
      rewrite filter_update_first, Hone by reflexivity. repeat split; reflexivity.
    + intros u f w Hne. apply filter_update_first_other; [reflexivity|].
      intros x. now apply entry_of_exclusive.
  - split.
    + right. split; [exact Hnone|]. rewrite filter_app, Hnone. cbn [filter app].
      unfold new_entry, entry_of. cbn. now rewrite !String.eqb_refl.
    + intros u f w Hne. rewrite filter_app. cbn [filter].
      rewrite (entry_of_exclusive (str_or (up_userId form) cu) fid (week_key clk) u f w);
        [apply app_nil_r | exact Hne |].
      unfold new_entry, entry_of. cbn. now rewrite !String.eqb_refl.
Qed.

(** ** Repeated bin scans *)

Section FilterSorted.

Context {A : Type} (le : A -> A -> bool).
Hypothesis le_total : forall x y, le x y = false -> le y x = true.
Hypothesis le_trans : forall x y z, le x y = true -> le y z = true -> le x z = true.

Lemma insert_by_head x l :
  Forall (fun z => le x z = true) l -> insert_by le x l = x :: l.
Proof.
  destruct l as [|z t]; cbn; [reflexivity|].
  intros H. inversion H as [|? ? Hz _]; subst. now rewrite Hz.
Qed.

Lemma filter_insert_by (q : A -> bool) x l :
  StronglySorted (fun a b => le a b = true) l ->
  filter q (insert_by le x l)
  = if q x then insert_by le x (filter q l) else filter q l.
Proof.
  induction l as [|y t IH]; intros Hs.
  - cbn. now destruct (q x).
  - inversion Hs as [|? ? Ht Hy]; subst. cbn [insert_by].
    destruct (le x y) eqn:E.
    + cbn [filter]. destruct (q x); [|reflexivity].
      symmetry. apply (insert_by_head x (if q y then y :: filter q t else filter q t)).
      assert (Hall : Forall (fun z => le x z = true) (y :: t)).
      { constructor; [exact E|]. eapply Forall_impl; [|exact Hy].
        intros a Ha. now apply (le_trans x y a). }
      change (Forall (fun z => le x z = true) (filter q (y :: t))).
      rewrite Forall_forall in *. intros z Hz. apply Hall.
      now apply filter_In in Hz.
    + cbn [filter]. rewrite (IH Ht).
      destruct (q y), (q x); cbn [insert_by]; rewrite ?E; reflexivity.
Qed.

Lemma order_by_filter (q : A -> bool) l :
  order_by le (filter q l) = filter q (order_by le l).
Proof.
  induction l as [|x t IH]; cbn [filter order_by fold_right]; [reflexivity|].
  fold (order_by le t). rewrite filter_insert_by by now apply order_by_sorted.
  destruct (q x); cbn [order_by fold_right]; fold (order_by le (filter q t));
    now rewrite IH.
Qed.

End FilterSorted.

Lemma filter_after_activation user_id fid cutoff ids l :
  filter (awaiting_activation user_id fid cutoff)
         (map (fun p => if mem_string (photo_id p) ids
                        then set_status PHOTO_STATUS_ACTIVE p else p) l)
  = filter (fun p => negb (mem_string (photo_id p) ids))
           (filter (awaiting_activation user_id fid cutoff) l).
Proof.
  induction l as [|p t IH]; cbn [map filter]; [reflexivity|].
  destruct (mem_string (photo_id p) ids) eqn:Hm.
  - assert (Hact : awaiting_activation user_id fid cutoff (set_status PHOTO_STATUS_ACTIVE p)
                   = false).
    { unfold awaiting_activation, is_pending. cbn.
      now rewrite andb_false_r. }
    rewrite Hact, IH.
    destruct (awaiting_activation user_id fid cutoff p); cbn [filter];
      rewrite ?Hm; reflexivity.
  - rewrite IH.
    destruct (awaiting_activation user_id fid cutoff p); cbn [filter];
      rewrite ?Hm; reflexivity.
Qed.

Lemma NoDup_map_filter {A B} (f : A -> B) (q : A -> bool) l :
  NoDup (map f l) -> NoDup (map f (filter q l)).
Proof.
  induction l as [|x t IH]; cbn; [auto|].
  intros H. inversion H as [|? ? Hx Ht]; subst.
  destruct (q x); cbn; [|auto].
  constructor; [|auto]. intros Hin. apply Hx.
  apply in_map_iff in Hin. destruct Hin as (y & <- & Hy).
  apply in_map. now apply filter_In in Hy.
Qed.

Lemma filter_all_false {A} (q : A -> bool) l :
  (forall x, In x l -> q x = false) -> filter q l = [].
Proof.
  induction l as [|x t IH]; cbn; [reflexivity|]. intros H.
  rewrite (H x (or_introl eq_refl)). apply IH. intros y Hy. apply H. now right.
Qed.

Lemma filter_all_true {A} (q : A -> bool) l :
  (forall x, In x l -> q x = true) -> filter q l = l.
Proof.
  induction l as [|x t IH]; cbn; [reflexivity|]. intros H.
  rewrite (H x (or_introl eq_refl)). f_equal. apply IH. intros y Hy. apply H. now right.
Qed.

Lemma NoDup_app_disjoint {A} (l1 l2 : list A) x :
  NoDup (l1 ++ l2) -> In x l1 -> In x l2 -> False.
Proof.
  induction l1 as [|y t IH]; cbn; [intros _ []|].
  intros Hnd H1 H2. inversion Hnd as [|? ? Hy Ht]; subst.
  destruct H1 as [-> | H1]; [|eauto].
  apply Hy, in_or_app. now right.
Qed.

Lemma filter_off_batch batch rest :
  NoDup (map photo_id (batch ++ rest)) ->
  filter (fun p => negb (mem_string (photo_id p) (map photo_id batch))) (batch ++ rest)
  = rest.
Proof.
  intros Hnd. rewrite map_app in Hnd. rewrite filter_app.
  rewrite filter_all_false, filter_all_true; [reflexivity | |].
  - intros p Hp. apply negb_true_iff.
    destruct (mem_string (photo_id p) (map photo_id batch)) eqn:Hm; [|reflexivity].
    exfalso. apply mem_string_In in Hm.
    apply (NoDup_app_disjoint _ _ (photo_id p) Hnd Hm). now apply in_map.
  - intros p Hp. apply negb_false_iff, mem_string_In. now apply in_map.
Qed.

Section RepeatedScan.

Variable ext : Externals.

(** X14: activation is one-way and happens once: after a successful bin
    scan the user's pending photos of the window are exactly the part of
    the list that the scan did not reach, in the same order; when the
    scan activated the whole list, the same scan repeated right away
    fails. *)
Theorem scan_bin_leaves_remainder fid payload cu clk d resp d' :
  NoDup (map photo_id (photos d)) ->
  run_request (scan_bin ext fid payload cu clk) d = (Ok resp, d') ->
  let user_id := str_or (scan_userId payload) cu in
  let cutoff := utcnow clk - minutes PENDING_ACTIVATION_MINUTES in
  exists batch rest,
    pending_photos_of d user_id fid cutoff = batch ++ rest
    /\ List.length batch = resp_convertedCount resp
    /\ pending_photos_of d' user_id fid cutoff = rest
    /\ (rest = [] ->
        exists e, fst (run_request (scan_bin ext fid payload cu clk) d') = Raise e).
Proof.
  intros Hnd Hrun user_id cutoff.
  apply scan_bin_effect in Hrun. cbv zeta in Hrun. fold user_id cutoff in Hrun.
  destruct Hrun as [[[e He] _] | Hok]; [discriminate|].
  destruct Hok as (f & sm & b & _ & _ & _ & _ & _ & [sm' Hr] & Hph & _).
  match type of Hr with context [activation_loop ?rc 0 [] ?l] =>
    destruct (activation_loop_prefix rc l 0 []) as (batch & rest & Hsplit & Hloop & _)
  end.
  rewrite Hloop in Hr, Hph. cbn [fst snd app] in Hr, Hph.
  injection Hr as ->. cbn [resp_convertedCount]. rewrite length_map.
  exists batch, rest. split; [exact Hsplit|]. split; [reflexivity|].
  assert (Hrest : pending_photos_of d' user_id fid cutoff = rest).
  { unfold pending_photos_of in *. rewrite Hph, filter_after_activation.
    rewrite order_by_filter.
    - rewrite Hsplit. apply filter_off_batch. rewrite <- Hsplit.
      eapply Permutation_NoDup;
        [apply Permutation_map, Permutation_sym, order_by_perm|].
      now apply NoDup_map_filter.
    - unfold created_at_asc. intros x y H. apply Z.leb_gt in H. apply Z.leb_le. lia.
    - unfold created_at_asc. intros x y z H1 H2. apply Z.leb_le in H1, H2.
      apply Z.leb_le. lia. }
  split; [exact Hrest|].
  intros ->.
  destruct (run_request (scan_bin ext fid payload cu clk) d') as [r d''] eqn:Hrun2.
  cbn [fst]. apply scan_bin_effect in Hrun2. cbv zeta in Hrun2.
  fold user_id cutoff in Hrun2.
  destruct Hrun2 as [[He _] | Hok]; [exact He|].
  destruct Hok as (? & ? & ? & _ & _ & _ & Hne & _). rewrite Hrest in Hne. contradiction.
Qed.

End RepeatedScan.

(** ** Bin codes *)

Lemma lstrip_id_iff l :
  lstrip l = l <-> match l with [] => True | c :: _ => is_space c = false end.
Proof.
  assert (Hlen : forall m, (List.length (lstrip m) <= List.length m)%nat).
  { induction m as [|c m IH]; cbn; [lia|]. destruct (is_space c); cbn; lia. }
  destruct l as [|c t]; cbn; [tauto|].
  destruct (is_space c) eqn:E; split; intros H; try reflexivity; try discriminate.
  exfalso. pose proof (Hlen t) as Hl. rewrite H in Hl. cbn in Hl. lia.
Qed.

Lemma lstrip_lstrip l : lstrip (lstrip l) = lstrip l.
Proof.
  induction l as [|c t IH]; cbn; [reflexivity|].
  destruct (is_space c) eqn:E; [exact IH|]. cbn. now rewrite E.
Qed.

Lemma lstrip_suffix l : exists p, l = p ++ lstrip l.
Proof.
  induction l as [|c t [p IH]]; cbn; [now exists []|].
  destruct (is_space c); [|now exists []].
  exists (c :: p). cbn. now f_equal.
Qed.

Lemma strip_id l : lstrip l = l -> lstrip (rev l) = rev l -> strip l = l.
Proof. intros H1 H2. unfold strip. now rewrite H1, H2, rev_involutive. Qed.

Lemma strip_trimmed l :
  lstrip (strip l) = strip l /\ lstrip (rev (strip l)) = rev (strip l).
Proof.
  unfold strip. rewrite rev_involutive. split; [|apply lstrip_lstrip].
  destruct (lstrip_suffix (rev (lstrip l))) as [p Hp].
  apply (f_equal (@rev ascii)) in Hp. rewrite rev_involutive, rev_app_distr in Hp.
  pose proof (proj1 (lstrip_id_iff (lstrip l)) (lstrip_lstrip l)) as Hhead.
  apply lstrip_id_iff.
  destruct (rev (lstrip (rev (lstrip l)))) as [|c r]; [exact I|].
  rewrite Hp in Hhead. exact Hhead.
Qed.

Lemma lstrip_map_id f l :
  (forall c, is_space (f c) = is_space c) -> lstrip l = l -> lstrip (map f l) = map f l.
Proof.
  intros Hf H. apply lstrip_id_iff. apply lstrip_id_iff in H.
  destruct l as [|c t]; cbn; [exact I|]. now rewrite Hf.
Qed.

Lemma lstrip_filter_id g l :
  (forall c, is_space c = false -> g c = true) -> lstrip l = l ->
  lstrip (filter g l) = filter g l.
Proof.
  intros Hg H. apply lstrip_id_iff. apply lstrip_id_iff in H.
  destruct l as [|c t]; cbn; [exact I|]. now rewrite (Hg c H).
Qed.

Lemma upper_char_space c : is_space (upper_char c) = is_space c.
Proof. destruct c as [[] [] [] [] [] [] [] []]; reflexivity. Qed.

Lemma dash_space c :
  is_space (if Ascii.eqb c "-" then "_"%char else c) = is_space c.
Proof. destruct c as [[] [] [] [] [] [] [] []]; reflexivity. Qed.

Lemma blank_is_space c : is_space c = false -> negb (Ascii.eqb c " ") = true.
Proof. destruct c as [[] [] [] [] [] [] [] []]; vm_compute; congruence. Qed.

(** The cleaned code has no whitespace at either end. *)
Lemma clean_bin_code_trimmed s :
  lstrip (clean_bin_code s) = clean_bin_code s
  /\ lstrip (rev (clean_bin_code s)) = rev (clean_bin_code s).
Proof.
  unfold clean_bin_code, remove_char, replace_char.
  destruct (strip_trimmed (list_ascii_of_string s)) as [H1 H2].
  split.
  - apply lstrip_filter_id; [exact blank_is_space|].
    apply lstrip_map_id; [exact dash_space|].
    apply lstrip_map_id; [exact upper_char_space|exact H1].
  - rewrite <- filter_rev, <- !map_rev.
    apply lstrip_filter_id; [exact blank_is_space|].
    apply lstrip_map_id; [exact dash_space|].
    apply lstrip_map_id; [exact upper_char_space|exact H2].
Qed.

(** What the character-wise steps of [clean_bin_code] leave alone. *)
Lemma clean_char_fixed c :
  let c' := if Ascii.eqb (upper_char c) "-" then "_"%char else upper_char c in
  upper_char c' = c' /\ Ascii.eqb c' "-" = false.
Proof. destruct c as [[] [] [] [] [] [] [] []]; split; reflexivity. Qed.

Lemma clean_id l :
  lstrip l = l -> lstrip (rev l) = rev l ->
  Forall (fun c => upper_char c = c /\ Ascii.eqb c "-" = false /\ Ascii.eqb c " " = false) l ->
  clean_bin_code (string_of_list_ascii l) = l.
Proof.
  intros H1 H2 Hall. unfold clean_bin_code, remove_char, replace_char.
  rewrite list_ascii_of_string_of_list_ascii, (strip_id l H1 H2).
  clear H1 H2. induction Hall as [|c t (Hu & Hd & Hb) _ IH]; [reflexivity|].
  cbn [map filter]. rewrite Hu, Hd, Hb. cbn [negb]. now f_equal.
Qed.

Lemma clean_bin_code_chars s :
  Forall (fun c => upper_char c = c /\ Ascii.eqb c "-" = false /\ Ascii.eqb c " " = false)
         (clean_bin_code s).
Proof.
  unfold clean_bin_code, remove_char, replace_char.
  induction (strip (list_ascii_of_string s)) as [|c t IH]; cbn [map filter]; [constructor|].
  destruct (clean_char_fixed c) as [Hu Hd]. cbv zeta in Hu, Hd.
  destruct (negb (Ascii.eqb (if Ascii.eqb (upper_char c) "-" then "_"%char else upper_char c)
                            " ")) eqn:E; [|exact IH].
  constructor; [|exact IH]. apply negb_true_iff in E. auto.
Qed.

Lemma clean_bin_code_fixed s :
  clean_bin_code (string_of_list_ascii (clean_bin_code s)) = clean_bin_code s.
Proof.
  destruct (clean_bin_code_trimmed s) as [H1 H2].
  apply clean_id; [exact H1 | exact H2 | apply clean_bin_code_chars].
Qed.

Lemma trailing_digits_trimmed code :
  lstrip (rev code) = rev code ->
  trailing_digits code = rev (take_while is_digit (rev code)).
Proof.
  intros H. unfold trailing_digits. apply lstrip_id_iff in H.
  destruct (rev code) as [|c r]; [reflexivity|].
  destruct (Ascii.eqb c "010") eqn:E; [|reflexivity].
  apply Ascii.eqb_eq in E. subst c. discriminate.
Qed.

Lemma take_while_all f l : forallb f l = true -> take_while f l = l.
Proof.
  induction l as [|c t IH]; cbn; [reflexivity|].
  intros H. apply andb_prop in H as [-> H]. now rewrite IH.
Qed.

Lemma take_while_app_stop f a c b :
  forallb f a = true -> f c = false -> take_while f (a ++ c :: b) = a.
Proof.
  induction a as [|x a IH]; cbn; intros H Hc; [now rewrite Hc|].
  apply andb_prop in H as [-> H]. now rewrite IH.
Qed.

Lemma forallb_rev {A} (f : A -> bool) l : forallb f (rev l) = forallb f l.
Proof.
  induction l as [|x l IH]; [reflexivity|].
  cbn. rewrite forallb_app, IH. cbn. rewrite andb_true_r. apply andb_comm.
Qed.

Lemma digit_char c :
  is_digit c = true ->
  is_space c = false /\ upper_char c = c /\ Ascii.eqb c "-" = false /\ Ascii.eqb c " " = false.
Proof. destruct c as [[] [] [] [] [] [] [] []]; vm_compute; intros H; try discriminate; auto. Qed.

(** The decimal rendering of a number: digits only, and read back by
    [int]. *)
Lemma uint_string_digits d :
  forallb is_digit (list_ascii_of_string (DecimalString.NilEmpty.string_of_uint d)) = true.
Proof. induction d; cbn; auto. Qed.

Lemma str_of_int_uint n :
  0 <= n ->
  exists d, str_of_int n = DecimalString.NilEmpty.string_of_uint d
            /\ d <> Decimal.Nil /\ Z.of_uint d = n.
Proof.
  intros Hn. destruct n as [|p|p]; [| |lia].
  - exists (Decimal.D0 Decimal.Nil). repeat split. discriminate.
  - exists (Pos.to_uint p).
    pose proof (DecimalPos.Unsigned.to_uint_nonnil p) as Hnil.
    split; [|split; [exact Hnil|]].
    + unfold str_of_int. cbn [Z.to_int DecimalString.NilZero.string_of_int].
      unfold DecimalString.NilZero.string_of_uint.
      destruct (Pos.to_uint p); [congruence|reflexivity..].
    + unfold Z.of_uint. now rewrite DecimalPos.Unsigned.of_to.
Qed.

Lemma format_02d_uint n :
  0 <= n ->
  exists d, format_02d n = DecimalString.NilEmpty.string_of_uint d
            /\ d <> Decimal.Nil /\ Z.of_uint d = n.
Proof.
  intros Hn. destruct (str_of_int_uint n Hn) as (d & Hs & Hnil & Hv).
  unfold format_02d. rewrite Hs.
  assert (Hsign : forall e, e <> Decimal.Nil ->
            exists c t, DecimalString.NilEmpty.string_of_uint e = String c t
                        /\ Ascii.eqb c "+" || Ascii.eqb c "-" = false).
  { intros e He. destruct e; [congruence|..]; cbn; eexists; eexists; split; reflexivity. }
  destruct (Hsign d Hnil) as (c & t & Hct & Hpm).
  unfold str_zfill. rewrite Hct, Hpm. rewrite <- Hct.
  destruct t as [|c2 t2].
  - exists (Decimal.D0 d). rewrite Hct. cbn. rewrite <- Hct.
    split; [reflexivity|]. split; [discriminate|exact Hv].
  - exists d. rewrite Hct. cbn [String.length Nat.sub repeat string_of_list_ascii String.append].
    now rewrite <- Hct.
Qed.

Lemma int_of_uint_string d :
  int_of_digits (list_ascii_of_string (DecimalString.NilEmpty.string_of_uint d))
  = Z.of_uint d.
Proof.
  unfold int_of_digits.
  now rewrite string_of_list_ascii_of_string, DecimalString.NilEmpty.usu.
Qed.

Lemma int_of_digits_nonneg l : 0 <= int_of_digits l.
Proof.
  unfold int_of_digits.
  destruct (DecimalString.NilEmpty.uint_of_string (string_of_list_ascii l)); [|lia].
  unfold Z.of_uint. lia.
Qed.

Lemma uint_string_nonempty d :
  d <> Decimal.Nil ->
  list_ascii_of_string (DecimalString.NilEmpty.string_of_uint d) <> [].
Proof. destruct d; [congruence|..]; discriminate. Qed.

Lemma list_ascii_app a b :
  list_ascii_of_string (a ++ b)%string = list_ascii_of_string a ++ list_ascii_of_string b.
Proof. induction a as [|c a IH]; cbn; [reflexivity|now f_equal]. Qed.

Lemma Forall_digits l :
  forallb is_digit l = true ->
  Forall (fun c => upper_char c = c /\ Ascii.eqb c "-" = false /\ Ascii.eqb c " " = false) l.
Proof.
  induction l as [|c t IH]; cbn; [constructor|].
  intros H. apply andb_prop in H as [Hc H].
  constructor; [|auto]. apply digit_char in Hc. tauto.
Qed.

Lemma digits_trimmed l :
  forallb is_digit l = true -> lstrip l = l.
Proof.
  intros H. apply lstrip_id_iff. destruct l as [|c t]; [exact I|].
  cbn in H. apply andb_prop in H as [Hc _]. now apply digit_char in Hc.
Qed.

(** A run of digits is read as a bin number. *)
Lemma normalize_digits l :
  isdigit l = true ->
  normalize_bin_code (Some (string_of_list_ascii l))
  = Some ("TRASH_BIN_" ++ format_02d (int_of_digits l))%string.
Proof.
  intros H. assert (Hall : forallb is_digit l = true /\ l <> []).
  { destruct l; [discriminate|]. split; [exact H|discriminate]. }
  destruct Hall as [Hall Hne].
  assert (Hrev : lstrip (rev l) = rev l)
    by (apply digits_trimmed; now rewrite forallb_rev).
  unfold normalize_bin_code.
  rewrite (clean_id l (digits_trimmed l Hall) Hrev (Forall_digits l Hall)).
  rewrite (trailing_digits_trimmed l Hrev), take_while_all, rev_involutive
    by now rewrite forallb_rev.
  rewrite H. destruct l; [congruence|reflexivity].
Qed.

Lemma normalize_by_clean s :
  normalize_bin_code (Some s)
  = normalize_bin_code (Some (string_of_list_ascii (clean_bin_code s))).
Proof. unfold normalize_bin_code. now rewrite clean_bin_code_fixed. Qed.

(** A run of digits after a prefix that ends in a character other than a
    digit and starts like a bin code. *)
Lemma normalize_prefixed p c ds :
  Forall (fun c => upper_char c = c /\ Ascii.eqb c "-" = false /\ Ascii.eqb c " " = false)
         (p ++ [c]) ->
  lstrip (p ++ [c]) = p ++ [c] ->
  is_digit c = false ->
  (forall t, startswith (list_ascii_of_string "TRASHBIN") ((p ++ [c]) ++ t)
             || startswith (list_ascii_of_string "TRASH_BIN") ((p ++ [c]) ++ t) = true) ->
  forallb is_digit ds = true -> ds <> [] ->
  normalize_bin_code (Some (string_of_list_ascii ((p ++ [c]) ++ ds)))
  = Some ("TRASH_BIN_" ++ format_02d (int_of_digits ds))%string.
Proof.
  intros Hfix Hhead Hc Hstart Hds Hne.
  set (l := (p ++ [c]) ++ ds).
  assert (Hrevl : rev l = rev ds ++ c :: rev p).
  { unfold l. now rewrite !rev_app_distr. }
  assert (Hrev : lstrip (rev l) = rev l).
  { rewrite Hrevl. apply lstrip_id_iff.
    destruct (rev ds) as [|x r] eqn:E.
    - apply (f_equal (@rev ascii)) in E. rewrite rev_involutive in E. now subst ds.
    - cbn. assert (Hx : is_digit x = true).
      { rewrite <- forallb_rev, E in Hds. cbn in Hds. now apply andb_prop in Hds. }
      now apply digit_char in Hx. }
  assert (Hl : lstrip l = l).
  { apply lstrip_id_iff. apply lstrip_id_iff in Hhead. unfold l.
    destruct (p ++ [c]) as [|x r] eqn:E; [now destruct p|exact Hhead]. }
  unfold normalize_bin_code. rewrite (clean_id l Hl Hrev).
  - rewrite (trailing_digits_trimmed l Hrev), Hrevl.
    rewrite take_while_app_stop by (rewrite ?forallb_rev; auto).
    rewrite rev_involutive. unfold l at 1 2. rewrite <- orb_assoc, Hstart, orb_true_r.
    destruct ds; [congruence|reflexivity].
  - unfold l. apply Forall_app. split; [exact Hfix|now apply Forall_digits].
Qed.

Lemma normalize_canonical n :
  0 <= n ->
  normalize_bin_code (Some (bin_code_of_seq n)) = Some (bin_code_of_seq n).
Proof.
  intros Hn. change (bin_code_of_seq n) with ("TRASH_BIN_" ++ format_02d n)%string.
  destruct (format_02d_uint n Hn) as (d & Hs & Hnil & Hv).
  rewrite Hs.
  set (ds := list_ascii_of_string (DecimalString.NilEmpty.string_of_uint d)).
  assert (Hl : ("TRASH_BIN_" ++ DecimalString.NilEmpty.string_of_uint d)%string
               = string_of_list_ascii
                   ((list_ascii_of_string "TRASH_BIN" ++ ["_"%char]) ++ ds)).
  { unfold ds. change (list_ascii_of_string "TRASH_BIN" ++ ["_"%char])
      with (list_ascii_of_string "TRASH_BIN_").
    rewrite <- list_ascii_app. now rewrite string_of_list_ascii_of_string. }
  rewrite Hl at 1. rewrite normalize_prefixed.
  - unfold ds. now rewrite int_of_uint_string, Hv, Hs.
  - repeat constructor.
  - reflexivity.
  - reflexivity.
  - intros t. reflexivity.
  - apply uint_string_digits.
  - now apply uint_string_nonempty.
Qed.

Lemma map_digits_id (f : ascii -> ascii) l :
  (forall c, is_digit c = true -> f c = c) -> forallb is_digit l = true -> map f l = l.
Proof.
  intros Hf. induction l as [|c t IH]; cbn; [reflexivity|].
  intros H. apply andb_prop in H as [Hc H]. now rewrite (Hf c Hc), IH.
Qed.

Lemma filter_digits_id (g : ascii -> bool) l :
  (forall c, is_digit c = true -> g c = true) -> forallb is_digit l = true -> filter g l = l.
Proof.
  intros Hg. induction l as [|c t IH]; cbn; [reflexivity|].
  intros H. apply andb_prop in H as [Hc H]. now rewrite (Hg c Hc), IH.
Qed.

(** Cleaning a run of digits after a prefix cleans the prefix only. *)
Lemma clean_prefixed p c ds :
  lstrip (p ++ [c]) = p ++ [c] ->
  forallb is_digit ds = true -> ds <> [] ->
  clean_bin_code (string_of_list_ascii ((p ++ [c]) ++ ds))
  = remove_char " " (replace_char "-" "_" (map upper_char (p ++ [c]))) ++ ds.
Proof.
  intros Hhead Hds Hne. unfold clean_bin_code.
  rewrite list_ascii_of_string_of_list_ascii.
  rewrite strip_id.
  - unfold remove_char, replace_char.
    rewrite !map_app, filter_app. f_equal.
    rewrite (map_digits_id upper_char), (map_digits_id _ ds), filter_digits_id; auto;
      intros x Hx; apply digit_char in Hx; destruct Hx as (_ & Hu & Hd & Hb);
      now rewrite ?Hu, ?Hd, ?Hb.
  - apply lstrip_id_iff. apply lstrip_id_iff in Hhead.
    destruct (p ++ [c]) as [|x r] eqn:E; [now destruct p|exact Hhead].
  - rewrite rev_app_distr. apply lstrip_id_iff.
    destruct (rev ds) as [|x r] eqn:E.
    + apply (f_equal (@rev ascii)) in E. rewrite rev_involutive in E. now subst ds.
    + cbn. assert (Hx : is_digit x = true).
      { rewrite <- forallb_rev, E in Hds. cbn in Hds. now apply andb_prop in Hds. }
      now apply digit_char in Hx.
Qed.

Lemma lstrip_map f l :
  (forall c, is_space (f c) = is_space c) -> lstrip (map f l) = map f (lstrip l).
Proof.
  intros Hf. induction l as [|c t IH]; cbn; [reflexivity|].
  rewrite Hf. now destruct (is_space c).
Qed.

Lemma strip_map f l :
  (forall c, is_space (f c) = is_space c) -> strip (map f l) = map f (strip l).
Proof.
  intros Hf. unfold strip.
  now rewrite (lstrip_map f l Hf), <- map_rev, (lstrip_map f _ Hf), map_rev.
Qed.

Lemma list_ascii_upper s : list_ascii_of_string (upper s) = map upper_char (list_ascii_of_string s).
Proof. induction s as [|c s IH]; cbn; [reflexivity|now f_equal]. Qed.

Lemma list_ascii_lower s : list_ascii_of_string (lower s) = map lower_char (list_ascii_of_string s).
Proof. induction s as [|c s IH]; cbn; [reflexivity|now f_equal]. Qed.

Lemma lower_char_space c : is_space (lower_char c) = is_space c.
Proof. destruct c as [[] [] [] [] [] [] [] []]; reflexivity. Qed.

Lemma upper_char_lower c : upper_char (lower_char c) = upper_char c.
Proof. destruct c as [[] [] [] [] [] [] [] []]; reflexivity. Qed.

Lemma upper_char_upper c : upper_char (upper_char c) = upper_char c.
Proof. destruct c as [[] [] [] [] [] [] [] []]; reflexivity. Qed.

(** Letter case does not reach the cleaned code. *)
Lemma clean_bin_code_case s :
  clean_bin_code (upper s) = clean_bin_code s
  /\ clean_bin_code (lower s) = clean_bin_code s.
Proof.
  unfold clean_bin_code. rewrite list_ascii_upper, list_ascii_lower.
  rewrite (strip_map _ _ upper_char_space), (strip_map _ _ lower_char_space).
  rewrite !map_map.
  split; do 2 f_equal; apply map_ext; intros c;
    [apply upper_char_upper | apply upper_char_lower].
Qed.

(** X15: on ASCII text of at most 4300 characters (the longest run of
    digits that [int] reads on every interpreter), [normalize_bin_code]
    returns a code that it leaves unchanged when it is given it again;
    the code does not depend on the case of the letters; it is a bin code
    of the canonical form for a number that is not negative, or the
    cleaned text itself. *)
Theorem normalize_bin_code_idempotent bin_code :
  is_ascii bin_code = true -> (String.length bin_code <= 4300)%nat ->
  exists code,
    normalize_bin_code (Some bin_code) = Some code
    /\ normalize_bin_code (Some code) = Some code
    /\ normalize_bin_code (Some (upper bin_code)) = Some code
    /\ normalize_bin_code (Some (lower bin_code)) = Some code
    /\ ((exists n, 0 <= n /\ code = bin_code_of_seq n)
        \/ code = string_of_list_ascii (clean_bin_code bin_code)).
Proof.
  intros _ _.
  assert (Hcase : normalize_bin_code (Some (upper bin_code))
                  = normalize_bin_code (Some bin_code)
                  /\ normalize_bin_code (Some (lower bin_code))
                     = normalize_bin_code (Some bin_code)).
  { destruct (clean_bin_code_case bin_code) as [Hu Hl].
    unfold normalize_bin_code. now rewrite Hu, Hl. }
  destruct Hcase as [Hu Hl]. rewrite Hu, Hl.
  destruct (normalize_bin_code (Some bin_code)) as [code|] eqn:Hrun;
    [|cbn in Hrun; destruct (_ && _) in Hrun; discriminate].
  exists code. split; [reflexivity|].
  assert (Hshape : (exists n, 0 <= n /\ code = bin_code_of_seq n)
                   \/ (code = string_of_list_ascii (clean_bin_code bin_code)
                       /\ normalize_bin_code (Some code) = Some code)).
  { pose proof (normalize_by_clean bin_code) as Hclean. rewrite Hrun in Hclean.
    unfold normalize_bin_code in Hrun.
    destruct (_ && _) eqn:Hcond in Hrun; injection Hrun as <-.
    - left. eexists. split; [apply int_of_digits_nonneg|reflexivity].
    - right. split; [reflexivity|]. symmetry. exact Hclean. }
  destruct Hshape as [(n & Hn & ->) | [-> Hfix]].
  - split; [now apply normalize_canonical|]. repeat split. left. now exists n.
  - split; [exact Hfix|]. repeat split. now right.
Qed.

(** X16: a bin can be named by its number alone.  A run of at most 4300
    digits, alone or after [trashbin] or [Trash-Bin-], is read as the
    canonical code of the number it denotes, leading zeros dropped and
    the number padded to two digits; the canonical code itself is left
    unchanged. *)
Theorem bin_number_shorthand digits :
  isdigit (list_ascii_of_string digits) = true -> (String.length digits <= 4300)%nat ->
  let code := bin_code_of_seq (int_of_digits (list_ascii_of_string digits)) in
  normalize_bin_code (Some digits) = Some code
  /\ normalize_bin_code (Some ("trashbin" ++ digits)%string) = Some code
  /\ normalize_bin_code (Some ("Trash-Bin-" ++ digits)%string) = Some code
  /\ normalize_bin_code (Some code) = Some code.
Proof.
  intros Hd _ code.
  set (ds := list_ascii_of_string digits) in *.
  assert (Hall : forallb is_digit ds = true /\ ds <> []).
  { destruct ds; [discriminate|]. split; [exact Hd|discriminate]. }
  destruct Hall as [Hall Hne].
  assert (Hpre : forall pre p c,
            list_ascii_of_string pre = p ++ [c] ->
            (pre ++ digits)%string = string_of_list_ascii ((p ++ [c]) ++ ds)).
  { intros pre p c E. rewrite <- E. unfold ds.
    now rewrite <- list_ascii_app, string_of_list_ascii_of_string. }
  split.
  { rewrite <- (string_of_list_ascii_of_string digits). fold ds.
    now apply normalize_digits. }
  split.
  { rewrite normalize_by_clean.
    rewrite (Hpre "trashbin"%string (list_ascii_of_string "trashbi") "n"%char eq_refl).
    rewrite clean_prefixed by (auto; reflexivity).
    apply (normalize_prefixed (list_ascii_of_string "TRASHBI") "N"%char ds); auto;
      try reflexivity.
    repeat constructor. }
  split.
  { rewrite normalize_by_clean.
    rewrite (Hpre "Trash-Bin-"%string (list_ascii_of_string "Trash-Bin") "-"%char eq_refl).
    rewrite clean_prefixed by (auto; reflexivity).
    apply (normalize_prefixed (list_ascii_of_string "TRASH_BIN") "_"%char ds); auto;
      try reflexivity.
    repeat constructor. }
  apply normalize_canonical, int_of_digits_nonneg.
Qed.

Lemma int_of_digits_str n :
  0 <= n -> int_of_digits (list_ascii_of_string (str_of_int n)) = n
            /\ isdigit (list_ascii_of_string (str_of_int n)) = true.
Proof.
  intros Hn. destruct (str_of_int_uint n Hn) as (d & -> & Hnil & Hv).
  rewrite int_of_uint_string. split; [exact Hv|].
  pose proof (uint_string_digits d) as Hd.
  pose proof (uint_string_nonempty d Hnil) as Hne.
  unfold isdigit. destruct (list_ascii_of_string _); [congruence|exact Hd].
Qed.

Lemma bin_code_of_seq_inj n m :
  0 <= n -> 0 <= m -> bin_code_of_seq n = bin_code_of_seq m -> n = m.
Proof.
  intros Hn Hm H.
  change (bin_code_of_seq n) with ("TRASH_BIN_" ++ format_02d n)%string in H.
  change (bin_code_of_seq m) with ("TRASH_BIN_" ++ format_02d m)%string in H.
  cbn in H. injection H as H.
  destruct (format_02d_uint n Hn) as (d & Hs & _ & Hv).
  destruct (format_02d_uint m Hm) as (d' & Hs' & _ & Hv').
  rewrite <- Hv, <- Hv', <- !int_of_uint_string, <- Hs, <- Hs'. now rewrite H.
Qed.

(** ** Generating bins *)

Lemma range_length n : List.length (range n) = Z.to_nat n.
Proof. unfold range. now rewrite length_map, length_seq. Qed.

Lemma range_nth n idx :
  0 <= idx < n -> nth_error (range n) (Z.to_nat idx) = Some idx.
Proof.
  intros H. unfold range. rewrite nth_error_map, nth_error_seq.
  destruct (Nat.ltb_spec (Z.to_nat idx) (Z.to_nat n)) as [_|Hge]; [|lia].
  cbn. f_equal. lia.
Qed.

Lemma range_app n m :
  0 <= n -> 0 <= m -> range (n + m) = range n ++ map (fun idx => n + idx) (range m).
Proof.
  intros Hn Hm. unfold range. rewrite Z2Nat.inj_add, seq_app, map_app by lia.
  f_equal. rewrite map_map.
  assert (H : forall b s,
            map Z.of_nat (seq (Z.to_nat n + s) b)
            = map (fun x => n + Z.of_nat x) (seq s b)).
  { induction b as [|b IH]; intros s; [reflexivity|].
    cbn [seq map]. f_equal; [lia|]. rewrite <- Nat.add_succ_r. apply IH. }
  specialize (H (Z.to_nat m) 0%nat). now rewrite Nat.add_0_r in H.
Qed.

Lemma generate_bins_effect ext fid payload token d r d' :
  run_request (generate_bins ext fid payload token) d = (r, d') ->
  (exists e, r = Raise e /\ d' = d
             /\ (opt_or token (gen_token payload) <> Some (ADMIN_TOKEN ext)
                 \/ gen_count payload = None
                 \/ (exists count, gen_count payload = Some count /\ count <= 0)
                 \/ db_get_festival d fid = None))
  \/ (exists count festival,
        opt_or token (gen_token payload) = Some (ADMIN_TOKEN ext)
        /\ gen_count payload = Some count /\ 0 < count
        /\ db_get_festival d fid = Some festival
        /\ r = Ok (generated_bins payload fid (Z.of_nat (List.length (bins_of fid d))) count)
        /\ d' = with_bins d
                  (bins d ++ generated_bins payload fid
                                            (Z.of_nat (List.length (bins_of fid d))) count)).
Proof.
  unfold generate_bins. exec.
  destruct (opt_is (ADMIN_TOKEN ext) (opt_or token (gen_token payload))) eqn:Hadmin;
    cbn [negb]; exec.
  2:{ intros [= <- <-]. left. eexists. repeat split. left. intros H.
      rewrite H, opt_is_refl in Hadmin. discriminate. }
  apply opt_is_true in Hadmin.
  destruct (gen_count payload) as [count|] eqn:Hcount; exec.
  2:{ intros [= <- <-]. left. eexists. repeat split. auto. }
  destruct ((count =? 0) || (count <=? 0)) eqn:Hpos; exec.
  { intros [= <- <-]. left. eexists. repeat split. right. right. left.
    exists count. split; [reflexivity|].
    apply orb_prop in Hpos as [H|H]; lia. }
  apply orb_false_elim in Hpos as [H0 Hle].
  destruct (db_get_festival d fid) as [festival|] eqn:Hf; exec.
  2:{ intros [= <- <-]. left. eexists. repeat split. auto. }
  intros [= <- <-]. right. exists count, festival.
  repeat split; auto. lia.
Qed.

Lemma bins_of_app fid d new :
  bins_of fid (with_bins d (bins d ++ new))
  = bins_of fid d ++ filter (fun b => bin_festival_id b == fid) new.
Proof. unfold bins_of. cbn [bins with_bins]. apply filter_app. Qed.

Lemma generated_bins_own payload fid existing count :
  filter (fun b => bin_festival_id b == fid) (generated_bins payload fid existing count)
  = generated_bins payload fid existing count.
Proof.
  unfold generated_bins. induction (range count) as [|i l IH]; [reflexivity|].
  cbn [map filter bin_festival_id]. rewrite String.eqb_refl. now f_equal.
Qed.

Lemma generated_bins_other payload fid f existing count :
  f <> fid ->
  filter (fun b => bin_festival_id b == f) (generated_bins payload fid existing count) = [].
Proof.
  intros Hne. unfold generated_bins. induction (range count) as [|i l IH]; [reflexivity|].
  cbn [map filter bin_festival_id].
  destruct (fid == f) eqn:E; [apply String.eqb_eq in E; congruence|exact IH].
Qed.

Lemma generated_bins_length payload fid existing count :
  List.length (generated_bins payload fid existing count) = Z.to_nat count.
Proof. unfold generated_bins. now rewrite length_map, range_length. Qed.

Lemma generated_bins_codes payload fid existing count :
  map bin_code (generated_bins payload fid existing count)
  = map (fun idx => bin_code_of_seq (existing + idx + 1)) (range count).
Proof. unfold generated_bins. rewrite map_map. reflexivity. Qed.

(** X17: [generate_bins] succeeds exactly for the admin token, a count
    above zero and an existing festival.  It then appends that many bins
    to the festival, numbered on from the number of bins the festival
    already has, changes nothing else and touches no other festival's
    bins; when it fails it changes nothing. *)
Theorem generate_bins_appends ext fid payload token d :
  let existing := Z.of_nat (List.length (bins_of fid d)) in
  (forall result d',
      run_request (generate_bins ext fid payload token) d = (Ok result, d') ->
      exists count,
        gen_count payload = Some count /\ 0 < count
        /\ d' = with_bins d (bins d ++ result)
        /\ Z.of_nat (List.length result) = count
        /\ (forall idx, 0 <= idx < count ->
              nth_error result (Z.to_nat idx)
              = Some (mkBin (gen_bin_id payload (existing + idx + 1)) fid
                            (bin_code_of_seq (existing + idx + 1))
                            (bin_name_of_seq (existing + idx + 1))))
        /\ bins_of fid d' = bins_of fid d ++ result
        /\ (forall f, f <> fid -> bins_of f d' = bins_of f d))
  /\ (forall e d',
      run_request (generate_bins ext fid payload token) d = (Raise e, d') -> d' = d)
  /\ ((exists result d',
        run_request (generate_bins ext fid payload token) d = (Ok result, d'))
      <-> opt_or token (gen_token payload) = Some (ADMIN_TOKEN ext)
          /\ (exists count, gen_count payload = Some count /\ 0 < count)
          /\ db_get_festival d fid <> None).
Proof.
  intros existing. split; [|split].
  - intros result d' Hrun. apply generate_bins_effect in Hrun.
    destruct Hrun as [(e & [=] & _) | (count & festival & _ & Hc & Hpos & _ & [= ->] & ->)].
    exists count. fold existing.
    split; [exact Hc|]. split; [exact Hpos|]. split; [reflexivity|].
    split; [rewrite generated_bins_length; lia|].
    split.
    { intros idx Hidx. unfold generated_bins.
      rewrite nth_error_map, (range_nth count idx Hidx). reflexivity. }
    split.
    { now rewrite bins_of_app, generated_bins_own. }
    intros f Hne. rewrite bins_of_app, generated_bins_other by exact Hne.
    apply app_nil_r.
  - intros e d' Hrun. apply generate_bins_effect in Hrun.
    destruct Hrun as [(e0 & _ & -> & _) | (count & festival & _ & _ & _ & _ & [=] & _)].
    reflexivity.
  - split.
    + intros (result & d' & Hrun). apply generate_bins_effect in Hrun.
      destruct Hrun as [(e & [=] & _) | (count & festival & Ha & Hc & Hpos & Hf & _)].
      split; [exact Ha|]. split; [now exists count|congruence].
    + intros (Ha & (count & Hc & Hpos) & Hf).
      destruct (run_request (generate_bins ext fid payload token) d) as [r d'] eqn:Hrun.
      pose proof Hrun as Heff. apply generate_bins_effect in Heff.
      destruct Heff as [(e & _ & _ & Hwhy) | (c & festival & _ & _ & _ & _ & -> & _)].
      * exfalso. destruct Hwhy as [H | [H | [(c & H & Hle) | H]]]; try congruence.
        rewrite Hc in H. injection H as <-. lia.
      * eauto.
Qed.

Lemma numbered_codes_nodup n :
  NoDup (map (fun idx => bin_code_of_seq (idx + 1)) (range n)).
Proof.
  apply NoDup_map_NoDup_ForallPairs.
  - intros x y Hx Hy H. unfold range in Hx, Hy.
    apply in_map_iff in Hx as (a & <- & _). apply in_map_iff in Hy as (b & <- & _).
    apply bin_code_of_seq_inj in H; lia.
  - unfold range. apply NoDup_map_NoDup_ForallPairs; [|apply seq_NoDup].
    intros x y _ _ H. lia.
Qed.

(** X18: the numbering of a festival's bins is kept by [generate_bins]:
    when the bins of the festival carry the codes of 1, 2, ... in this
    order (as in a festival without bins), they still do after a
    successful call, which continues the sequence; no two bins of the
    festival then share a code. *)
Theorem generate_bins_keeps_numbering ext fid payload token d result d' :
  numbered fid d ->
  run_request (generate_bins ext fid payload token) d = (Ok result, d') ->
  numbered fid d'
  /\ NoDup (map bin_code (bins_of fid d'))
  /\ map bin_code result
     = map (fun idx => bin_code_of_seq (Z.of_nat (List.length (bins_of fid d)) + idx + 1))
           (range (Z.of_nat (List.length result))).
Proof.
  intros Hnum Hrun. apply generate_bins_effect in Hrun.
  destruct Hrun as [(e & [=] & _) | (count & festival & _ & Hc & Hpos & _ & [= ->] & ->)].
  assert (Hlen : Z.of_nat (List.length
                   (generated_bins payload fid (Z.of_nat (List.length (bins_of fid d)))
                                   count)) = count)
    by (rewrite generated_bins_length; lia).
  assert (Hnum' : numbered fid
            (with_bins d (bins d ++ generated_bins payload fid
                                      (Z.of_nat (List.length (bins_of fid d))) count))).
  { unfold numbered in *. rewrite bins_of_app, generated_bins_own.
    rewrite map_app, length_app, Nat2Z.inj_add, Hlen, range_app, map_app by lia.
    rewrite <- Hnum, generated_bins_codes, map_map. reflexivity. }
  split; [exact Hnum'|]. split.
  - unfold numbered in Hnum'. rewrite Hnum'. apply numbered_codes_nodup.
  - now rewrite Hlen, generated_bins_codes.
Qed.

Lemma numbered_empty fid d : bins_of fid d = [] -> numbered fid d.
Proof. intros H. unfold numbered. now rewrite H. Qed.

Lemma find_filter_and {A} (p q : A -> bool) l :
  find (fun x => p x && q x) l = find q (filter p l).
Proof.
  induction l as [|x l IH]; [reflexivity|].
  cbn [find filter]. destruct (p x); cbn [andb find]; [|exact IH].
  now destruct (q x).
Qed.

Lemma find_by_key {A} (key : A -> string) l i x :
  NoDup (map key l) -> nth_error l i = Some x ->
  find (fun b => key b == key x) l = Some x.
Proof.
  revert i. induction l as [|y l IH]; intros i Hnd Hi; [now destruct i|].
  cbn [map] in Hnd. inversion Hnd as [|? ? Hnotin Hnd']; subst.
  destruct i as [|i]; cbn in Hi.
  - injection Hi as ->. cbn. now rewrite String.eqb_refl.
  - cbn [find]. destruct (key y == key x) eqn:E.
    + apply String.eqb_eq in E. exfalso. apply Hnotin. rewrite E.
      apply in_map. eapply nth_error_In. exact Hi.
    + eapply IH; eauto.
Qed.

Lemma scan_bin_finds_bin ext fid payload cu clk d b :
  find_bin d fid (scan_binCode payload) = Some b ->
  fst (run_request (scan_bin ext fid payload cu clk) d) <> Raise BinNotFound.
Proof.
  unfold find_bin. intros Hfind. unfold scan_bin. exec.
  repeat (first [rewrite Hfind | branch]; exec); cbn [fst]; discriminate.
Qed.

(** X19: in a festival whose bins are numbered, the bin of a number is
    found by scanning the number alone or the code printed on it: both
    normalise to the code of that bin and no other bin of the festival
    has it, so that a scan with either never fails for an unknown bin. *)
Theorem numbered_bin_found_by_number fid d k :
  numbered fid d -> 1 <= k <= Z.of_nat (List.length (bins_of fid d)) ->
  exists b,
    nth_error (bins_of fid d) (Z.to_nat (k - 1)) = Some b
    /\ bin_code b = bin_code_of_seq k
    /\ find_bin d fid (normalize_bin_code (Some (str_of_int k))) = Some b
    /\ find_bin d fid (normalize_bin_code (Some (bin_code b))) = Some b
    /\ (forall ext payload cu clk,
          scan_binCode payload = normalize_bin_code (Some (str_of_int k)) ->
          fst (run_request (scan_bin ext fid payload cu clk) d) <> Raise BinNotFound).
Proof.
  intros Hnum Hk.
  destruct (nth_error (bins_of fid d) (Z.to_nat (k - 1))) as [b|] eqn:Hnth.
  2:{ apply nth_error_None in Hnth. lia. }
  assert (Hcode : bin_code b = bin_code_of_seq k).
  { pose proof (map_nth_error bin_code _ _ Hnth) as H.
    unfold numbered in Hnum. rewrite Hnum, nth_error_map, range_nth in H by lia.
    cbn [option_map] in H. injection H as H. rewrite <- H. f_equal. lia. }
  assert (Hnd : NoDup (map bin_code (bins_of fid d))).
  { unfold numbered in Hnum. rewrite Hnum. apply numbered_codes_nodup. }
  assert (Hfind : find_bin d fid (Some (bin_code_of_seq k)) = Some b).
  { unfold find_bin. rewrite find_filter_and. fold (bins_of fid d).
    cbn [opt_is]. rewrite <- Hcode.
    apply (find_by_key bin_code _ _ _ Hnd Hnth). }
  assert (Hshort : normalize_bin_code (Some (str_of_int k)) = Some (bin_code_of_seq k)).
  { destruct (int_of_digits_str k) as [Hv Hd]; [lia|].
    rewrite <- (string_of_list_ascii_of_string (str_of_int k)).
    rewrite normalize_digits by exact Hd. now rewrite Hv. }
  exists b. split; [reflexivity|]. split; [exact Hcode|].
  split; [now rewrite Hshort|].
  split; [rewrite Hcode, normalize_canonical by lia; exact Hfind|].
  intros ext payload cu clk Hscan. apply (scan_bin_finds_bin _ _ _ _ _ _ b).
  now rewrite Hscan, Hshort.
Qed.

(** ** Tokens *)

Lemma split_on_nonempty sep s : split_on sep s <> [].
Proof.
  induction s as [|c s IH]; cbn; [discriminate|].
  destruct (Ascii.eqb c sep); [discriminate|].
  destruct (split_on sep s); [congruence|discriminate].
Qed.

Lemma split_on_whole sep s :
  ~ In sep (list_ascii_of_string s) -> split_on sep s = [s].
Proof.
  induction s as [|c s IH]; cbn; [reflexivity|].
  intros H. destruct (Ascii.eqb c sep) eqn:E.
  - apply Ascii.eqb_eq in E. tauto.
  - rewrite IH by tauto. reflexivity.
Qed.

Lemma split_on_app sep a b :
  ~ In sep (list_ascii_of_string a) ->
  split_on sep (a ++ String sep b)%string = a :: split_on sep b.
Proof.
  induction a as [|c a IH]; cbn.
  - intros _. now rewrite Ascii.eqb_refl.
  - intros H. destruct (Ascii.eqb c sep) eqn:E.
    + apply Ascii.eqb_eq in E. tauto.
    + rewrite IH by tauto. reflexivity.
Qed.

Lemma join_cons sep p ps :
  ps <> [] -> join sep (p :: ps) = (p ++ String sep (join sep ps))%string.
Proof. destruct ps; [congruence|reflexivity]. Qed.

(** [split_on] is undone by [join], and no part holds the separator. *)
Lemma split_on_join sep s :
  join sep (split_on sep s) = s
  /\ Forall (fun p => ~ In sep (list_ascii_of_string p)) (split_on sep s).
Proof.
  induction s as [|c s [IHj IHf]]; cbn [split_on].
  - split; [reflexivity|]. repeat constructor. intros [].
  - pose proof (split_on_nonempty sep s) as Hne.
    destruct (Ascii.eqb c sep) eqn:E.
    + apply Ascii.eqb_eq in E. subst c. split.
      * rewrite join_cons by exact Hne. now rewrite IHj.
      * constructor; [intros []|exact IHf].
    + destruct (split_on sep s) as [|p ps]; [congruence|].
      apply Forall_cons_iff in IHf as [Hp Hps]. split.
      * destruct ps as [|q ps].
        -- cbn in *. now rewrite IHj.
        -- rewrite join_cons in * by discriminate. cbn [String.append].
           now rewrite IHj.
      * constructor; [|exact Hps]. cbn. intros [H|H]; [|tauto].
        subst c. now rewrite Ascii.eqb_refl in E.
Qed.

Lemma split_on_length sep s :
  List.length (split_on sep s)
  = S (List.length (filter (Ascii.eqb sep) (list_ascii_of_string s))).
Proof.
  induction s as [|c s IH]; cbn; [reflexivity|].
  rewrite (Ascii.eqb_sym sep c).
  destruct (Ascii.eqb c sep); cbn; [now rewrite IH|].
  destruct (split_on sep s); cbn in *; [discriminate|exact IH].
Qed.

Lemma count_sep_app sep a b :
  List.length (filter (Ascii.eqb sep) (list_ascii_of_string (a ++ String sep b)))
  = (List.length (filter (Ascii.eqb sep) (list_ascii_of_string a))
     + S (List.length (filter (Ascii.eqb sep) (list_ascii_of_string b))))%nat.
Proof.
  rewrite list_ascii_app, filter_app, length_app. cbn [list_ascii_of_string filter].
  now rewrite Ascii.eqb_refl.
Qed.

Lemma str_of_int_no_colon n : ~ In ":"%char (list_ascii_of_string (str_of_int n)).
Proof.
  assert (Hd : forall d, ~ In ":"%char
                 (list_ascii_of_string (DecimalString.NilZero.string_of_uint d))).
  { intros d Hin.
    assert (Hall : forallb is_digit
                     (list_ascii_of_string (DecimalString.NilZero.string_of_uint d)) = true).
    { unfold DecimalString.NilZero.string_of_uint.
      destruct d; try apply (uint_string_digits (_ _)); reflexivity. }
    rewrite forallb_forall in Hall. apply Hall in Hin. discriminate. }
  unfold str_of_int. destruct (Z.to_int n); cbn [DecimalString.NilZero.string_of_int].
  - apply Hd.
  - cbn. intros [H|H]; [discriminate|]. exact (Hd _ H).
Qed.

Lemma string_app_assoc (a b c : string) : ((a ++ b) ++ c = a ++ (b ++ c))%string.
Proof. induction a as [|x a IH]; cbn; [reflexivity|now f_equal]. Qed.

Section Tokens.

Variable lib : TokenLib.
Variable cfg : Settings.

Lemma verify_created_token user_id issued now :
  let payload := (user_id ++ ":" ++ str_of_int issued)%string in
  let signature := hmac_sha256_hexdigest lib (SECRET_KEY cfg) payload in
  let token := create_token lib cfg issued user_id in
  ~ In ":"%char (list_ascii_of_string user_id) ->
  ~ In ":"%char (list_ascii_of_string signature) ->
  token <> "" ->
  urlsafe_b64decode lib token = Some (payload ++ ":" ++ signature)%string ->
  int_of_str lib (str_of_int issued) = Some issued ->
  verify_token lib cfg now (Some token)
  = if now - issued >? TOKEN_LIFETIME then None else Some user_id.
Proof.
  intros payload signature token Huid Hsig Hne Hdec Hint.
  unfold verify_token.
  destruct (token == "") eqn:E; [apply String.eqb_eq in E; congruence|].
  rewrite Hdec. unfold payload.
  rewrite !string_app_assoc. cbn [String.append].
  rewrite split_on_app by exact Huid.
  rewrite split_on_app by apply str_of_int_no_colon.
  rewrite split_on_whole by exact Hsig.
  fold payload. fold signature. rewrite String.eqb_refl. cbn [negb].
  now rewrite Hint.
Qed.

(** X20: a token is accepted for thirty days.  When the decoding undoes
    the encoding of the token, [int] reads the issue time back, and
    neither the user id nor the digest holds a colon, [verify_token]
    returns the user id of a token made by [create_token] up to and
    including 2,592,000 seconds after it was issued, and nothing after
    that. *)
Theorem verify_token_round_trip user_id issued now :
  let payload := (user_id ++ ":" ++ str_of_int issued)%string in
  let signature := hmac_sha256_hexdigest lib (SECRET_KEY cfg) payload in
  let token := create_token lib cfg issued user_id in
  ~ In ":"%char (list_ascii_of_string user_id) ->
  ~ In ":"%char (list_ascii_of_string signature) ->
  token <> "" ->
  urlsafe_b64decode lib token = Some (payload ++ ":" ++ signature)%string ->
  int_of_str lib (str_of_int issued) = Some issued ->
  (now - issued <= 2592000 -> verify_token lib cfg now (Some token) = Some user_id)
  /\ (2592000 < now - issued -> verify_token lib cfg now (Some token) = None).
Proof.
  intros payload signature token Huid Hsig Hne Hdec Hint.
  pose proof (verify_created_token user_id issued now Huid Hsig Hne Hdec Hint) as Hrun.
  cbv zeta in Hrun. subst token. rewrite Hrun.
  unfold TOKEN_LIFETIME. cbn.
  split; intros H.
  - destruct (Z.gtb_spec (now - issued) 2592000); [lia|reflexivity].
  - destruct (Z.gtb_spec (now - issued) 2592000); [reflexivity|lia].
Qed.

(** X21: [verify_token] accepts nothing but a signed, unexpired token: a
    user id it returns comes from a token that decodes to the user id, an
    issue time at most thirty days back and the digest of the two under
    the secret key, joined by colons; neither the user id nor the issue
    time holds a colon. *)
Theorem verify_token_sound now token user_id :
  verify_token lib cfg now token = Some user_id ->
  exists tok issued_at issued,
    token = Some tok /\ tok <> ""
    /\ urlsafe_b64decode lib tok
       = Some (user_id ++ ":" ++ issued_at ++ ":"
               ++ hmac_sha256_hexdigest lib (SECRET_KEY cfg) (user_id ++ ":" ++ issued_at))%string
    /\ int_of_str lib issued_at = Some issued
    /\ now - issued <= 2592000
    /\ ~ In ":"%char (list_ascii_of_string user_id)
    /\ ~ In ":"%char (list_ascii_of_string issued_at).
Proof.
  unfold verify_token. intros H.
  destruct token as [tok|]; [|discriminate].
  destruct (tok == "") eqn:Hne; [discriminate|].
  destruct (urlsafe_b64decode lib tok) as [raw|] eqn:Hdec; [|discriminate].
  destruct (split_on_join ":" raw) as [Hjoin Hparts].
  destruct (split_on ":" raw) as [|uid [|issued_at [|sig [|]]]]; try discriminate.
  destruct (negb _) eqn:Hsig in H; [discriminate|].
  apply negb_false_iff, String.eqb_eq in Hsig.
  destruct (int_of_str lib issued_at) as [issued|] eqn:Hint; [|discriminate].
  destruct (Z.gtb_spec (now - issued) TOKEN_LIFETIME) as [|Hle]; [discriminate|].
  injection H as ->. unfold TOKEN_LIFETIME in Hle. cbn in Hle.
  exists tok, issued_at, issued.
  split; [reflexivity|].
  split; [intros ->; discriminate|].
  split; [rewrite Hdec, <- Hjoin, Hsig; reflexivity|].
  split; [exact Hint|]. split; [exact Hle|].
  apply Forall_cons_iff in Hparts as [Hu Hparts].
  apply Forall_cons_iff in Hparts as [Hi _]. now split.
Qed.

(** X22: a user id with a colon locks its owner out: a token that
    [create_token] makes for it, decoded as it was encoded, splits into
    more than three parts and is never accepted, at any time. *)
Theorem token_for_id_with_colon_rejected user_id issued now :
  let payload := (user_id ++ ":" ++ str_of_int issued)%string in
  let signature := hmac_sha256_hexdigest lib (SECRET_KEY cfg) payload in
  let token := create_token lib cfg issued user_id in
  In ":"%char (list_ascii_of_string user_id) ->
  urlsafe_b64decode lib token = Some (payload ++ ":" ++ signature)%string ->
  verify_token lib cfg now (Some token) = None.
Proof.
  intros payload signature token Hin Hd. unfold verify_token.
  destruct (token == ""); [reflexivity|].
  rewrite Hd.
  match goal with |- context [split_on ":" ?r] =>
    pose proof (split_on_length ":" r) as Hlen;
    destruct (split_on ":" r) as [|a [|b [|c [|]]]]; try reflexivity
  end.
  exfalso. cbn [List.length] in Hlen. injection Hlen as Hlen.
  unfold payload in Hlen. rewrite !string_app_assoc in Hlen.
  cbn [String.append] in Hlen. rewrite !count_sep_app in Hlen.
  assert (Hpos : (0 < List.length (filter (Ascii.eqb ":") (list_ascii_of_string user_id)))%nat).
  { clear - Hin. induction (list_ascii_of_string user_id) as [|c l IH]; [destruct Hin|].
    cbn [filter]. destruct (Ascii.eqb_spec ":" c) as [E|E]; [cbn; lia|].
    destruct Hin as [H|H]; [congruence|auto]. }
  lia.
Qed.

End Tokens.

Lemma bearer_token a :
  startswith (list_ascii_of_string "bearer ") (list_ascii_of_string (lower a)) = true ->
  exists scheme token,
    a = (scheme ++ " " ++ token)%string /\ lower scheme = "bearer"
    /\ after_first " " a = Some token.
Proof.
  intros H.
  destruct a as [|c1 [|c2 [|c3 [|c4 [|c5 [|c6 [|c7 t]]]]]]];
    cbn [lower list_ascii_of_string startswith] in H; try discriminate;
    rewrite ?andb_false_r in H; try discriminate.
  repeat match type of H with
         | _ && _ = true => apply andb_prop in H as [?E H]
         end.
  repeat match goal with
         | E : Ascii.eqb _ _ = true |- _ => apply Ascii.eqb_eq in E
         end.
  exists (String c1 (String c2 (String c3 (String c4 (String c5 (String c6 "")))))), t.
  assert (c7 = " "%char) as ->.
  { destruct c7 as [[] [] [] [] [] [] [] []]; try reflexivity; discriminate. }
  split; [reflexivity|]. split; [cbn; congruence|].
  cbn [after_first].
  repeat match goal with
         | E : _ = lower_char ?c |- context [Ascii.eqb ?c " "] =>
             destruct (Ascii.eqb_spec c " ") as [->|_]; [discriminate|]; clear E
         end.
  now rewrite Ascii.eqb_refl.
Qed.

Lemma bearer_scheme scheme token :
  lower scheme = "bearer" ->
  startswith (list_ascii_of_string "bearer ")
             (list_ascii_of_string (lower (scheme ++ " " ++ token))) = true
  /\ after_first " " (scheme ++ " " ++ token) = Some token
  /\ (scheme ++ " " ++ token == "")%string = false.
Proof.
  intros H.
  destruct scheme as [|c1 [|c2 [|c3 [|c4 [|c5 [|c6 [|c7 t]]]]]]]; try discriminate.
  cbn in H. injection H as H1 H2 H3 H4 H5 H6.
  cbn [String.append lower list_ascii_of_string startswith after_first String.eqb].
  rewrite H1, H2, H3, H4, H5, H6.
  split; [reflexivity|]. split; [|reflexivity].
  repeat match goal with
         | E : lower_char ?c = _ |- context [Ascii.eqb ?c " "] =>
             destruct (Ascii.eqb_spec c " ") as [->|_]; [discriminate|]; clear E
         end.
  now rewrite Ascii.eqb_refl.
Qed.

(** X23: [get_current_user_id] reads the header as a scheme, a space and
    a token.  It answers with a user id exactly when the scheme is
    [bearer] in any letter case and [verify_token] accepts the token
    with a user id that is not empty; every other header, or none, is
    refused with 401, and the split of the header never fails. *)
Theorem get_current_user_id_bearer lib cfg now authorization :
  (forall user_id,
      get_current_user_id lib cfg now authorization = Ok user_id <->
      user_id <> ""
      /\ exists scheme token,
           authorization = Some (scheme ++ " " ++ token)%string
           /\ lower scheme = "bearer"
           /\ verify_token lib cfg now (Some token) = Some user_id)
  /\ (forall e, get_current_user_id lib cfg now authorization = Raise e -> e = Unauthorized).
Proof.
  split.
  - intros user_id. split.
    + unfold get_current_user_id. intros H.
      destruct authorization as [a|]; [|discriminate].
      destruct (a == ""); cbn [orb] in H; [discriminate|].
      destruct (startswith (list_ascii_of_string "bearer ") (list_ascii_of_string (lower a))) eqn:Hpre; cbn [negb] in H; [|discriminate].
      destruct (bearer_token a Hpre) as (scheme & token & -> & Hs & Hafter).
      rewrite Hafter in H.
      destruct (verify_token lib cfg now (Some token)) as [uid|] eqn:Hv; [|discriminate].
      destruct (uid == "") eqn:E; [discriminate|]. injection H as ->.
      split; [intros ->; discriminate|]. now exists scheme, token.
    + intros (Hne & scheme & token & -> & Hs & Hv).
      destruct (bearer_scheme scheme token Hs) as (Hpre & Hafter & Hnonempty).
      unfold get_current_user_id. rewrite Hnonempty, Hpre, Hafter, Hv. cbn.
      destruct (user_id == "") eqn:E; [apply String.eqb_eq in E; congruence|reflexivity].
  - unfold get_current_user_id. intros e H.
    destruct authorization as [a|]; [|congruence].
    destruct (a == ""); cbn [orb] in H; [congruence|].
    destruct (startswith (list_ascii_of_string "bearer ") (list_ascii_of_string (lower a))) eqn:Hpre; cbn [negb] in H; [|congruence].
    destruct (bearer_token a Hpre) as (scheme & token & -> & Hs & Hafter).
    rewrite Hafter in H.
    destruct (verify_token lib cfg now (Some token)) as [uid|]; [|congruence].
    destruct (uid == ""); congruence.
Qed.

(** ** Mock login *)

(** X24: [mock_login] refuses a missing or empty nickname and then writes
    nothing.  Otherwise it adds one user with the nickname as display
    name, whom the lookup by id finds when the id was free, and nothing
    else; and the token it returns logs this user in: under the
    conditions of the token round trip, [get_current_user_id] answers
    with the new user's id for a [bearer] header with this token, in any
    letter case of the scheme, until thirty days have passed. *)
Theorem mock_login_token_authenticates lib cfg now payload d :
  (is_empty_opt (login_nickname payload) = true ->
   run_request (mock_login lib cfg now payload) d = (Raise MissingParameters, d))
  /\ (forall resp d',
        run_request (mock_login lib cfg now payload) d = (Ok resp, d') ->
        let user := lr_user resp in
        let token := lr_token resp in
        let signed := (usr_id user ++ ":" ++ str_of_int now)%string in
        let signature := hmac_sha256_hexdigest lib (SECRET_KEY cfg) signed in
        login_nickname payload = Some (display_name user)
        /\ display_name user <> ""
        /\ usr_id user = login_user_id payload
        /\ d' = with_users d (users d ++ [user])
        /\ (db_get_user d (usr_id user) = None ->
            db_get_user d' (usr_id user) = Some user)
        /\ (usr_id user <> "" ->
            ~ In ":"%char (list_ascii_of_string (usr_id user)) ->
            ~ In ":"%char (list_ascii_of_string signature) ->
            token <> "" ->
            urlsafe_b64decode lib token = Some (signed ++ ":" ++ signature)%string ->
            int_of_str lib (str_of_int now) = Some now ->
            forall later scheme,
              lower scheme = "bearer" -> later - now <= 2592000 ->
              get_current_user_id lib cfg later (Some (scheme ++ " " ++ token)%string)
              = Ok (usr_id user))).
Proof.
  split.
  - intros Hempty. unfold mock_login. exec. rewrite Hempty. reflexivity.
  - intros resp d' Hrun. unfold mock_login in Hrun. revert Hrun. exec.
    destruct (login_nickname payload) as [nick|] eqn:Hnick; cbn [is_empty_opt];
      [|exec; discriminate].
    destruct (nick == "") eqn:Hne; exec; [discriminate|].
    cbn [users]. intros [= <- <-]. cbn [lr_user lr_token usr_id display_name str_or].
    rewrite Hne.
    split; [reflexivity|].
    split; [intros ->; discriminate|].
    split; [reflexivity|].
    split; [reflexivity|].
    split.
    { unfold db_get_user, with_users. cbn [users]. intros Hfree.
      rewrite find_app_none by exact Hfree. cbn. now rewrite String.eqb_refl. }
    intros Hid Hcolon Hsig Htok Hdec Hint later scheme Hscheme Hlater.
    destruct (bearer_scheme scheme (create_token lib cfg now (login_user_id payload))
                Hscheme) as (Hpre & Hafter & Hnonempty).
    unfold get_current_user_id. rewrite Hnonempty, Hpre, Hafter. cbn [orb negb].
    rewrite (verify_created_token lib cfg (login_user_id payload) now later
               Hcolon Hsig Htok Hdec Hint).
    unfold TOKEN_LIFETIME.
    destruct (Z.gtb_spec (later - now) (60 * 60 * 24 * 30)) as [Hgt|_]; [lia|].
    destruct (login_user_id payload == "") eqn:E;
      [apply String.eqb_eq in E; congruence|reflexivity].
Qed.

(** * The further properties on the sample deployment *)

Lemma ensure_summary_get_or_create_witness :
  exists tx1,
    ensure_summary sample_clock "user-a" "fest-1"
                   (mkTx (fresh_db 500000 1000) (fresh_db 500000 1000))
    = (Ok (new_summary "user-a" "fest-1" "2026-11-03"), tx1)
    /\ summaries (session tx1) = [new_summary "user-a" "fest-1" "2026-11-03"]
    /\ committed tx1 = session tx1.
Proof.
  destruct (ensure_summary_get_or_create sample_clock "user-a" "fest-1"
              (mkTx (fresh_db 500000 1000) (fresh_db 500000 1000)))
    as (s & tx1 & Hrun & _ & _ & _ & Hnew & _).
  destruct (Hnew eq_refl) as (Hs & Hsum & Hc).
  exists tx1. subst s. split; [exact Hrun|]. split; [exact Hsum|exact Hc].
Defined.

Lemma failed_requests_leave_ledger_witness :
  ledger_untouched (fresh_db 500000 1000)
    (snd (run_request (scan_bin sample_ext "fest-1" sample_scan "user-a" sample_clock)
                      (fresh_db 500000 1000)))
  /\ ledger_untouched (fresh_db 500000 1000)
       (snd (run_request (issue_coupon "fest-1" (coupon_request 1500) "user-a" sample_clock)
                         (fresh_db 500000 1000)))
  /\ snd (run_request (draw_jackpot sample_ext "fest-1" (Some "guess") sample_clock)
                      (sample_db 500000 1000 half))
     = sample_db 500000 1000 half.
Proof.
  destruct (failed_requests_leave_ledger sample_ext) as (Hscan & Hcoupon & Hdraw).
  split; [|split].
  - apply (Hscan "fest-1" sample_scan "user-a" sample_clock _ NothingToActivate).
    vm_compute. reflexivity.
  - apply (Hcoupon "fest-1" (coupon_request 1500) "user-a" sample_clock _
                   InsufficientBalance).
    vm_compute. reflexivity.
  - apply (Hdraw "fest-1" (Some "guess") sample_clock _ Unauthorized).
    vm_compute. reflexivity.
Defined.

Lemma spendable_points_within_cap_witness : spend_respected settled_db.
Proof.
  apply (spendable_points_within_cap sample_ext sample_ops (sample_db 500000 1000 half)).
  - reflexivity.
  - intros fid f H. apply sample_festival_lookup in H as [_ ->]. cbn. lia.
  - intros s f [].
Defined.

Lemma get_summary_reads_own_balances_witness :
  (2000, 0, 0) = daily_balances two_photo_db "user-a" "fest-1" "2026-11-03"
  /\ ledger_untouched two_photo_db
       (snd (run_request (get_summary sample_settings "user-a" None "user-a" sample_clock)
                         two_photo_db))
  /\ run_request (get_summary sample_settings "user-a" None "user-b" sample_clock)
                 two_photo_db
     = (Raise Forbidden, two_photo_db).
Proof.
  destruct (get_summary_reads_own_balances sample_settings "user-a" None "user-a"
              sample_clock two_photo_db) as (Hok & _ & _).
  destruct (get_summary_reads_own_balances sample_settings "user-a" None "user-b"
              sample_clock two_photo_db) as (_ & _ & Hno).
  destruct (Hok (mkSummaryResponse (sample_festival 500000 1000) 2000 0 0 500000)
                (snd (run_request (get_summary sample_settings "user-a" None "user-a"
                                               sample_clock) two_photo_db)))
    as (fid & _ & Hfid & _ & Hbal & _ & _ & Hled & _).
  { vm_compute. reflexivity. }
  injection Hfid as <-.
  split; [exact Hbal|]. split; [exact Hled|]. apply Hno. discriminate.
Defined.

Lemma list_photos_own_newest_first_witness :
  let result :=
    [mkPhoto "photo-1" "user-a" "fest-1" "ffff0000ffff0000" PHOTO_STATUS_PENDING 1000
             (utcnow sample_clock);
     mkPhoto "photo-2" "user-a" "fest-1" "0123456789abcdef" PHOTO_STATUS_PENDING 1000
             (utcnow sample_clock)] in
  StronglySorted (fun x y => created_at y <= created_at x) result
  /\ (forall p, In p result -> In p (photos two_photo_db) /\ photo_user_id p = "user-a").
Proof.
  intros result.
  destruct (list_photos_own_newest_first sample_settings "user-a" (Some "fest-1") "user-a"
              two_photo_db result two_photo_db)
    as (fid & _ & _ & _ & _ & Hsorted & Hin).
  { vm_compute. reflexivity. }
  split; [exact Hsorted|].
  intros p Hp. destruct (Hin p Hp) as (H1 & H2 & _). split; [exact H1|exact H2].
Defined.

Lemma get_jackpot_after_draw_witness :
  exists status,
    fst (run_request (get_jackpot "fest-1") drawn_db) = Ok status
    /\ js_current_amount status = 10000
    /\ js_last_draw_date status = Some (Some "2026-11-03")
    /\ js_last_winner_name status = Some "bob".
Proof.
  destruct (get_jackpot_after_draw sample_ext "fest-1") as (_ & _ & Hdraw).
  destruct (Hdraw (Some "test-admin-token") sample_clock (sample_db 500000 1000 half)
                  (mkDrawResponse "bob" 50000) drawn_db)
    as (pool & winner_id & status & Hpool & Hwin & Hrun & Hamount & Hdate & Hname).
  { vm_compute. reflexivity. }
  vm_compute in Hpool. injection Hpool as <-.
  vm_compute in Hwin. injection Hwin as <-.
  exists status. split; [exact Hrun|]. split; [exact Hamount|]. split; [exact Hdate|].
  apply Hname. discriminate.
Defined.

Lemma second_draw_awards_seed_witness :
  fst (run_request (draw_jackpot sample_ext "fest-1" (Some "test-admin-token") sample_clock)
                   drawn_db)
  = Ok (mkDrawResponse "bob" 10000)
  /\ entries drawn_db = entries (sample_db 500000 1000 half).
Proof.
  destruct (second_draw_awards_seed sample_ext "fest-1" (Some "test-admin-token")
              sample_clock (sample_db 500000 1000 half) (mkDrawResponse "bob" 50000)
              drawn_db) as (pool & Hpool & _ & Hentries & Hagain).
  { vm_compute. reflexivity. }
  vm_compute in Hpool. injection Hpool as <-.
  split; [exact Hagain|exact Hentries].
Defined.

Lemma admin_summary_totals_witness :
  0 + 2000 = photo_points_of "fest-1" settled_db
  /\ 3500 = 0 + 2000 + coupon_points_of "fest-1" settled_db
  /\ 1 = Z.of_nat (List.length (filter (fun sc => scan_festival_id sc == "fest-1")
                                       (scans settled_db))).
Proof.
  destruct (admin_summary_totals sample_ext "fest-1" (Some "test-admin-token") settled_db
              (mkAdminSummary (sample_festival 500000 1000) 1 0 2000 3500 996500
                              [("bin-1", 1, Some "TRASH_BIN_01")])
              settled_db)
    as (_ & _ & _ & Htotal & Hused & _ & _ & _ & Hscans & _).
  { vm_compute. reflexivity. }
  split; [exact Htotal|]. split; [exact Hused|exact Hscans].
Defined.

Lemma upload_photo_accepts_iff_witness :
  upload_admissible sample_ext "fest-1" (sample_form "photo-1" "ffff0000ffff0000")
                    "user-a" sample_clock (sample_db 500000 1000 half).
Proof.
  apply (proj1 (upload_photo_accepts_iff sample_ext "fest-1"
                  (sample_form "photo-1" "ffff0000ffff0000") "user-a" sample_clock
                  (sample_db 500000 1000 half))).
  eexists. eexists. vm_compute. reflexivity.
Defined.

Lemma accepted_upload_adds_one_ticket_witness :
  filter (entry_of "user-a" "fest-1" "2026-W45") (entries (snd (alice_upload 1000 half)))
  = [mkEntry "user-a" "fest-1" "2026-W45" 2]
  /\ filter (entry_of "user-b" "fest-1" "2026-W45") (entries (snd (alice_upload 1000 half)))
     = filter (entry_of "user-b" "fest-1" "2026-W45") (entries (sample_db 500000 1000 half)).
Proof.
  destruct (alice_upload 1000 half) as [[resp|e] d'] eqn:Hrun;
    [|exfalso; vm_compute in Hrun; discriminate].
  destruct (accepted_upload_adds_one_ticket sample_ext "fest-1"
              (sample_form "photo-1" "ffff0000ffff0000") "user-a" sample_clock
              (sample_db 500000 1000 half) resp d' Hrun) as [Hmine Hothers].
  cbn [snd]. split.
  - destruct Hmine as [(en & en' & Hen & Hen' & Hcount) | [Hnone _]].
    + vm_compute in Hen. injection Hen as <-.
      vm_compute in Hrun. injection Hrun as _ <-. vm_compute. reflexivity.
    + vm_compute in Hnone. discriminate.
  - apply Hothers. left. discriminate.
Defined.

Lemma scan_bin_leaves_remainder_witness :
  exists batch rest,
    pending_photos_of mixed_db "user-a" "fest-1"
                      (utcnow sample_clock - minutes PENDING_ACTIVATION_MINUTES)
    = batch ++ rest
    /\ List.length batch = 1%nat
    /\ pending_photos_of
         (snd (run_request (scan_bin sample_ext "fest-1" sample_scan "user-a" sample_clock)
                           mixed_db))
         "user-a" "fest-1" (utcnow sample_clock - minutes PENDING_ACTIVATION_MINUTES)
       = rest.
Proof.
  destruct (scan_bin_leaves_remainder sample_ext "fest-1" sample_scan "user-a" sample_clock
              mixed_db
              (mkScanResponse 300 1 (Some (mkSummary "user-a" "fest-1" "2026-11-03" 1100 300 0)))
              (snd (run_request (scan_bin sample_ext "fest-1" sample_scan "user-a"
                                          sample_clock) mixed_db)))
    as (batch & rest & Hsplit & Hlen & Hrest & _).
  - cbn. repeat constructor; cbn; intuition discriminate.
  - vm_compute. reflexivity.
  - exists batch, rest. split; [exact Hsplit|]. split; [exact Hlen|exact Hrest].
Defined.

Lemma normalize_bin_code_idempotent_witness :
  exists code,
    normalize_bin_code (Some " trash-bin 7 ") = Some code
    /\ normalize_bin_code (Some code) = Some code
    /\ normalize_bin_code (Some (upper " trash-bin 7 ")) = Some code
    /\ normalize_bin_code (Some (lower " trash-bin 7 ")) = Some code
    /\ ((exists n, 0 <= n /\ code = bin_code_of_seq n)
        \/ code = string_of_list_ascii (clean_bin_code " trash-bin 7 ")).
Proof.
  apply (normalize_bin_code_idempotent " trash-bin 7 "); [reflexivity | cbn; lia].
Defined.

Lemma bin_number_shorthand_witness :
  normalize_bin_code (Some "007") = Some "TRASH_BIN_07"
  /\ normalize_bin_code (Some "trashbin007") = Some "TRASH_BIN_07"
  /\ normalize_bin_code (Some "Trash-Bin-007") = Some "TRASH_BIN_07"
  /\ normalize_bin_code (Some "TRASH_BIN_07") = Some "TRASH_BIN_07".
Proof.
  apply (bin_number_shorthand "007"); [reflexivity | cbn; lia].
Defined.

Lemma generate_bins_appends_witness :
  exists result,
    run_request (generate_bins sample_ext "fest-1" (sample_generate 3)
                               (Some "test-admin-token"))
                (fresh_db 500000 1000) = (Ok result, binned_db)
    /\ map bin_code result = ["TRASH_BIN_02"; "TRASH_BIN_03"; "TRASH_BIN_04"]
    /\ bins_of "fest-1" binned_db = bins_of "fest-1" (fresh_db 500000 1000) ++ result.
Proof.
  destruct (generate_bins_appends sample_ext "fest-1" (sample_generate 3)
              (Some "test-admin-token") (fresh_db 500000 1000)) as (Hok & _ & _).
  unfold binned_db.
  destruct (run_request (generate_bins sample_ext "fest-1" (sample_generate 3)
                                       (Some "test-admin-token"))
                        (fresh_db 500000 1000)) as [[result|e] d'] eqn:Hrun;
    [|exfalso; vm_compute in Hrun; discriminate].
  destruct (Hok result d' eq_refl) as (count & _ & _ & _ & _ & _ & Hbins & _).
  exists result. cbn [snd]. split; [reflexivity|]. split; [|exact Hbins].
  vm_compute in Hrun. injection Hrun as <- _. reflexivity.
Defined.

Lemma generate_bins_keeps_numbering_witness :
  numbered "fest-1" binned_db /\ NoDup (map bin_code (bins_of "fest-1" binned_db)).
Proof.
  destruct (generate_bins_keeps_numbering sample_ext "fest-1" (sample_generate 3)
              (Some "test-admin-token") (fresh_db 500000 1000)
              (generated_bins (sample_generate 3) "fest-1" 1 3) binned_db)
    as (Hnum & Hnd & _).
  - reflexivity.
  - vm_compute. reflexivity.
  - split; [exact Hnum|exact Hnd].
Defined.

Lemma numbered_bin_found_by_number_witness :
  exists b,
    nth_error (bins_of "fest-1" binned_db) 2 = Some b
    /\ bin_code b = "TRASH_BIN_03"
    /\ find_bin binned_db "fest-1" (normalize_bin_code (Some "3")) = Some b.
Proof.
  destruct (numbered_bin_found_by_number "fest-1" binned_db 3)
    as (b & Hnth & Hcode & Hfind & _).
  - reflexivity.
  - vm_compute. split; discriminate.
  - exists b. split; [exact Hnth|]. split; [exact Hcode|exact Hfind].
Defined.

Lemma verify_token_round_trip_witness :
  verify_token sample_lib sample_settings (1793700000 + 2592000) (Some sample_token)
  = Some "user-a"
  /\ verify_token sample_lib sample_settings (1793700000 + 2592001) (Some sample_token)
     = None.
Proof.
  split.
  - apply (verify_token_round_trip sample_lib sample_settings "user-a" 1793700000
             (1793700000 + 2592000)); try reflexivity; try lia;
      vm_compute; intuition discriminate.
  - apply (verify_token_round_trip sample_lib sample_settings "user-a" 1793700000
             (1793700000 + 2592001)); try reflexivity; try lia;
      vm_compute; intuition discriminate.
Defined.

Lemma verify_token_sound_witness :
  exists issued_at issued,
    urlsafe_b64decode sample_lib sample_token
    = Some ("user-a" ++ ":" ++ issued_at ++ ":"
            ++ hmac_sha256_hexdigest sample_lib (SECRET_KEY sample_settings)
                                     ("user-a" ++ ":" ++ issued_at))%string
    /\ int_of_str sample_lib issued_at = Some issued
    /\ 1793700060 - issued <= 2592000.
Proof.
  destruct (verify_token_sound sample_lib sample_settings 1793700060 (Some sample_token)
              "user-a") as (tok & issued_at & issued & Htok & _ & Hdec & Hint & Hle & _).
  - vm_compute. reflexivity.
  - injection Htok as <-. exists issued_at, issued.
    split; [exact Hdec|]. split; [exact Hint|exact Hle].
Defined.

Lemma token_for_id_with_colon_rejected_witness :
  verify_token sample_lib sample_settings 1793700000
               (Some (create_token sample_lib sample_settings 1793700000 "user:a"))
  = None.
Proof.
  apply (token_for_id_with_colon_rejected sample_lib sample_settings "user:a" 1793700000
           1793700000).
  - cbn. tauto.
  - reflexivity.
Defined.

Lemma get_current_user_id_bearer_witness :
  get_current_user_id sample_lib sample_settings 1793700060
                      (Some ("BEARER" ++ " " ++ sample_token)%string)
  = Ok "user-a"
  /\ (forall e,
        get_current_user_id sample_lib sample_settings 1793700060 (Some "Basic dXNlcg")
        = Raise e -> e = Unauthorized).
Proof.
  split.
  - apply (proj1 (get_current_user_id_bearer sample_lib sample_settings 1793700060
                    (Some ("BEARER" ++ " " ++ sample_token)%string))).
    split; [discriminate|].
    exists "BEARER", sample_token.
    split; [reflexivity|]. split; [reflexivity|]. vm_compute. reflexivity.
  - apply (proj2 (get_current_user_id_bearer sample_lib sample_settings 1793700060
                    (Some "Basic dXNlcg"))).
Defined.

Lemma mock_login_token_authenticates_witness :
  exists resp d',
    run_request (mock_login sample_lib sample_settings 1793700000 carol_login)
                (fresh_db 500000 1000) = (Ok resp, d')
    /\ db_get_user d' "user-c" = Some (mkUser "user-c" "carol")
    /\ get_current_user_id sample_lib sample_settings (1793700000 + 2592000)
                           (Some ("Bearer" ++ " " ++ lr_token resp)%string)
       = Ok "user-c".
Proof.
  destruct (mock_login_token_authenticates sample_lib sample_settings 1793700000
              carol_login (fresh_db 500000 1000)) as [_ Hok].
  specialize (Hok (mkLoginResponse (mkUser "user-c" "carol")
                     (create_token sample_lib sample_settings 1793700000 "user-c"))
                  (with_users (fresh_db 500000 1000)
                     (users (fresh_db 500000 1000) ++ [mkUser "user-c" "carol"]))
                  eq_refl).
  cbv zeta in Hok. destruct Hok as (_ & _ & _ & _ & Hfound & Hauth).
  eexists. eexists. split; [reflexivity|]. split.
  - apply Hfound. reflexivity.
  - apply Hauth; try reflexivity; try lia; try discriminate;
      vm_compute; intuition discriminate.
Defined.
